(** * TeensyDMX transmit engine ([Sender.cpp]): model and properties

    The development embeds the member functions of
    [qindesign::teensydmx::Sender] as functions on a record of the object's
    fields.  Functions that only touch the object they are called on are
    functions on [Sender]; [begin], [end], [setRefreshRate] and
    [completePacket] also reach the global [txInstances] table or other
    objects and are functions on a [World] (objects by address plus the
    table), in the option monad: [None] stands for a call that C++ leaves
    undefined (a dangling object pointer, an index outside [txInstances]). *)

From Stdlib Require Import ZArith Lia Bool List.
From Stdlib Require Import Floats.SpecFloat.
From stdpp Require Import base option list gmap.

Local Open Scope Z_scope.

(** ** Machine arithmetic *)

(** [int] is the 32-bit two's complement integer of the ARM targets.  Signed
    overflow is written as wrap-around, which is what the guards of the form
    [startChannel + len <= 0] in the source rely on. *)
Definition int_min : Z := - 2 ^ 31.
Definition int_max : Z := 2 ^ 31 - 1.
Definition is_int (z : Z) : Prop := int_min <= z <= int_max.
Definition wrap_int (z : Z) : Z := (z + 2 ^ 31) mod 2 ^ 32 - 2 ^ 31.

Definition UINT32_MAX : Z := 2 ^ 32 - 1.
Definition is_uint32 (z : Z) : Prop := 0 <= z <= UINT32_MAX.
Definition wrap_uint32 (z : Z) : Z := z mod 2 ^ 32.
Definition wrap_uint8 (z : Z) : Z := z mod 2 ^ 8.

(** [float] is IEEE 754 binary32 (24 bits of precision, [emax = 128]). *)
Definition float : Type := spec_float.
Definition float_zero : float := S754_zero false.
Definition float_infinity : float := S754_infinity false.
Definition float_of_int (z : Z) : float := binary_normalize 24 128 z 0 false.
Definition float_div (x y : float) : float := SFdiv 24 128 x y.
Definition float_eqb (x y : float) : bool := SFeqb x y.
Definition float_ltb (x y : float) : bool := SFltb x y.
Definition float_is_nan (x : float) : bool :=
  match x with S754_nan => true | _ => false end.

(** Conversion of a [float] to [uint32_t]: the fraction is discarded.  C++
    leaves the conversion of a value outside the range of [uint32_t]
    undefined; the ARM conversion instruction saturates, and so does this
    definition. *)
Definition float_to_uint32 (x : float) : Z :=
  match x with
  | S754_zero _ => 0
  | S754_infinity sign => if sign then 0 else UINT32_MAX
  | S754_nan => 0
  | S754_finite sign m e =>
      if sign then 0
      else Z.min UINT32_MAX
             (match e with
              | Z0 => Z.pos m
              | Z.pos p => Z.pos m * 2 ^ Z.pos p
              | Z.neg p => Z.pos m / 2 ^ Z.pos p
              end)
  end.

(** ** Build configuration

    The preprocessor symbols that [Sender.cpp] tests, and the [SERIAL_*]
    format constants of the Teensy core's [HardwareSerial.h], which the
    library includes but does not define. *)
Inductive Chip : Type :=
  | MK20DX128 | MK20DX256 | MKL26Z64 | MK64FX512 | MK66FX1M0
  | IMXRT1062 | IMXRT1052 | UnknownChip.

Record Build : Type := mkBuild {
  chip : Chip;
  KINETISL : bool;
  SERIAL_9BIT_SUPPORT : bool;
  ARDUINO_TEENSY41 : bool;
  SERIAL_7E1 : Z;
  SERIAL_7O1 : Z;
  SERIAL_8N1 : Z;
  SERIAL_8E1 : Z;
  SERIAL_8O1 : Z;
  SERIAL_8N2 : Z;
  SERIAL_8E2 : Z;
  SERIAL_8O2 : Z;
  SERIAL_9N1 : Z;
  SERIAL_9E1 : Z;
  SERIAL_9O1 : Z
}.

(** ** Constants of [Sender.cpp] *)

Definition kDefaultBreakBaud : Z := 50000.
Definition kDefaultBreakTime : Z := 180.
Definition kDefaultMABTime : Z := 20.

Definition kSerialFormatRXINVBit : Z := 0x10.
Definition kSerialFormatTXINVBit : Z := 0x20.

Definition kBreakTimerAdjust (c : Chip) : Z :=
  match c with
  | MK20DX128 | MK20DX256 => 1
  | MKL26Z64 => 5
  | MK64FX512 => 1
  | MK66FX1M0 => 1
  | IMXRT1062 | IMXRT1052 => 0
  | UnknownChip => 0
  end.

Definition kMABTimerAdjust (c : Chip) : Z :=
  match c with
  | MK20DX128 | MK20DX256 => 7
  | MKL26Z64 => 12
  | MK64FX512 => 5
  | MK66FX1M0 => 4
  | IMXRT1062 | IMXRT1052 => 1
  | UnknownChip => 0
  end.

(** Modelled from the spec: [kMaxDMXPacketSize] is declared in [TeensyDMX.h],
    which is not among the sources.  The spec gives the output buffer
    "exactly 513 bytes (1 start code + 512 channel slots)". *)
Definition kMaxDMXPacketSize : Z := 513.

(** Number of entries of [txInstances]. *)
Definition txInstances_size (b : Build) : nat :=
  match chip b with
  | IMXRT1052 => 8
  | _ => if ARDUINO_TEENSY41 b then 8 else 7
  end%nat.

(** ** The object *)

(** Modelled from the spec: [XmitStates] is declared in [TeensyDMX.h]; the
    spec lists the states idle, sending-break, transmitting-data and
    completing.  [Sender.cpp] itself only names [kIdle]. *)
Inductive XmitStates : Type := kIdle | kBreak | kData | kCompleting.

(** The send handler ([UARTSendHandler] or [LPUARTSendHandler]) and the
    interval timer are owned by the object; their classes are not among the
    sources.  Each is represented by the calls it has received, oldest
    first. *)
Inductive HandlerCall : Type :=
  | HStart
  | HSetActive
  | HEnd
  | HSetIRQsEnabled (on : bool)
  | HBreakSerialParamsChanged.

Inductive TimerCall : Type :=
  | TSetPriorityOfHandler
  | TEnd.

(** Addresses of objects and of completion functions. *)
Abbreviation ptr := nat (only parsing).
Abbreviation FnPtr := nat (only parsing).

Record Sender : Type := mkSender {
  serialIndex_ : Z;
  packetCount_ : Z;
  sendHandler_ : list HandlerCall;
  intervalTimer_ : list TimerCall;
  began_ : bool;
  state_ : XmitStates;
  outputBuf_ : list Z;
  outputBufIndex_ : Z;
  breakTime_ : Z;
  mabTime_ : Z;
  adjustedBreakTime_ : Z;
  adjustedMABTime_ : Z;
  breakBaud_ : Z;
  breakFormat_ : Z;
  breakUseTimer_ : bool;
  packetSize_ : Z;
  refreshRate_ : float;
  breakToBreakTime_ : Z;
  breakStartTime_ : Z;
  paused_ : bool;
  resumeCounter_ : Z;
  transmitting_ : bool;
  doneTXFunc_ : option FnPtr
}.

Definition with_packetCount_ (v : Z) (s : Sender) : Sender :=
  mkSender (serialIndex_ s) v (sendHandler_ s) (intervalTimer_ s) (began_ s)
  (state_ s) (outputBuf_ s) (outputBufIndex_ s) (breakTime_ s) (mabTime_ s)
  (adjustedBreakTime_ s) (adjustedMABTime_ s) (breakBaud_ s) (breakFormat_ s)
  (breakUseTimer_ s) (packetSize_ s) (refreshRate_ s) (breakToBreakTime_ s)
  (breakStartTime_ s) (paused_ s) (resumeCounter_ s) (transmitting_ s)
  (doneTXFunc_ s).
Definition with_sendHandler_ (v : list HandlerCall) (s : Sender) : Sender :=
  mkSender (serialIndex_ s) (packetCount_ s) v (intervalTimer_ s) (began_ s)
  (state_ s) (outputBuf_ s) (outputBufIndex_ s) (breakTime_ s) (mabTime_ s)
  (adjustedBreakTime_ s) (adjustedMABTime_ s) (breakBaud_ s) (breakFormat_ s)
  (breakUseTimer_ s) (packetSize_ s) (refreshRate_ s) (breakToBreakTime_ s)
  (breakStartTime_ s) (paused_ s) (resumeCounter_ s) (transmitting_ s)
  (doneTXFunc_ s).
Definition with_intervalTimer_ (v : list TimerCall) (s : Sender) : Sender :=
  mkSender (serialIndex_ s) (packetCount_ s) (sendHandler_ s) v (began_ s)
  (state_ s) (outputBuf_ s) (outputBufIndex_ s) (breakTime_ s) (mabTime_ s)
  (adjustedBreakTime_ s) (adjustedMABTime_ s) (breakBaud_ s) (breakFormat_ s)
  (breakUseTimer_ s) (packetSize_ s) (refreshRate_ s) (breakToBreakTime_ s)
  (breakStartTime_ s) (paused_ s) (resumeCounter_ s) (transmitting_ s)
  (doneTXFunc_ s).
Definition with_began_ (v : bool) (s : Sender) : Sender :=
  mkSender (serialIndex_ s) (packetCount_ s) (sendHandler_ s) (intervalTimer_
  s) v (state_ s) (outputBuf_ s) (outputBufIndex_ s) (breakTime_ s) (mabTime_
  s) (adjustedBreakTime_ s) (adjustedMABTime_ s) (breakBaud_ s) (breakFormat_
  s) (breakUseTimer_ s) (packetSize_ s) (refreshRate_ s) (breakToBreakTime_ s)
  (breakStartTime_ s) (paused_ s) (resumeCounter_ s) (transmitting_ s)
  (doneTXFunc_ s).
Definition with_state_ (v : XmitStates) (s : Sender) : Sender :=
  mkSender (serialIndex_ s) (packetCount_ s) (sendHandler_ s) (intervalTimer_
  s) (began_ s) v (outputBuf_ s) (outputBufIndex_ s) (breakTime_ s) (mabTime_
  s) (adjustedBreakTime_ s) (adjustedMABTime_ s) (breakBaud_ s) (breakFormat_
  s) (breakUseTimer_ s) (packetSize_ s) (refreshRate_ s) (breakToBreakTime_ s)
  (breakStartTime_ s) (paused_ s) (resumeCounter_ s) (transmitting_ s)
  (doneTXFunc_ s).
Definition with_outputBuf_ (v : list Z) (s : Sender) : Sender :=
  mkSender (serialIndex_ s) (packetCount_ s) (sendHandler_ s) (intervalTimer_
  s) (began_ s) (state_ s) v (outputBufIndex_ s) (breakTime_ s) (mabTime_ s)
  (adjustedBreakTime_ s) (adjustedMABTime_ s) (breakBaud_ s) (breakFormat_ s)
  (breakUseTimer_ s) (packetSize_ s) (refreshRate_ s) (breakToBreakTime_ s)
  (breakStartTime_ s) (paused_ s) (resumeCounter_ s) (transmitting_ s)
  (doneTXFunc_ s).
Definition with_outputBufIndex_ (v : Z) (s : Sender) : Sender :=
  mkSender (serialIndex_ s) (packetCount_ s) (sendHandler_ s) (intervalTimer_
  s) (began_ s) (state_ s) (outputBuf_ s) v (breakTime_ s) (mabTime_ s)
  (adjustedBreakTime_ s) (adjustedMABTime_ s) (breakBaud_ s) (breakFormat_ s)
  (breakUseTimer_ s) (packetSize_ s) (refreshRate_ s) (breakToBreakTime_ s)
  (breakStartTime_ s) (paused_ s) (resumeCounter_ s) (transmitting_ s)
  (doneTXFunc_ s).
Definition with_breakTime_ (v : Z) (s : Sender) : Sender :=
  mkSender (serialIndex_ s) (packetCount_ s) (sendHandler_ s) (intervalTimer_
  s) (began_ s) (state_ s) (outputBuf_ s) (outputBufIndex_ s) v (mabTime_ s)
  (adjustedBreakTime_ s) (adjustedMABTime_ s) (breakBaud_ s) (breakFormat_ s)
  (breakUseTimer_ s) (packetSize_ s) (refreshRate_ s) (breakToBreakTime_ s)
  (breakStartTime_ s) (paused_ s) (resumeCounter_ s) (transmitting_ s)
  (doneTXFunc_ s).
Definition with_mabTime_ (v : Z) (s : Sender) : Sender :=
  mkSender (serialIndex_ s) (packetCount_ s) (sendHandler_ s) (intervalTimer_
  s) (began_ s) (state_ s) (outputBuf_ s) (outputBufIndex_ s) (breakTime_ s) v
  (adjustedBreakTime_ s) (adjustedMABTime_ s) (breakBaud_ s) (breakFormat_ s)
  (breakUseTimer_ s) (packetSize_ s) (refreshRate_ s) (breakToBreakTime_ s)
  (breakStartTime_ s) (paused_ s) (resumeCounter_ s) (transmitting_ s)
  (doneTXFunc_ s).
Definition with_adjustedBreakTime_ (v : Z) (s : Sender) : Sender :=
  mkSender (serialIndex_ s) (packetCount_ s) (sendHandler_ s) (intervalTimer_
  s) (began_ s) (state_ s) (outputBuf_ s) (outputBufIndex_ s) (breakTime_ s)
  (mabTime_ s) v (adjustedMABTime_ s) (breakBaud_ s) (breakFormat_ s)
  (breakUseTimer_ s) (packetSize_ s) (refreshRate_ s) (breakToBreakTime_ s)
  (breakStartTime_ s) (paused_ s) (resumeCounter_ s) (transmitting_ s)
  (doneTXFunc_ s).
Definition with_adjustedMABTime_ (v : Z) (s : Sender) : Sender :=
  mkSender (serialIndex_ s) (packetCount_ s) (sendHandler_ s) (intervalTimer_
  s) (began_ s) (state_ s) (outputBuf_ s) (outputBufIndex_ s) (breakTime_ s)
  (mabTime_ s) (adjustedBreakTime_ s) v (breakBaud_ s) (breakFormat_ s)
  (breakUseTimer_ s) (packetSize_ s) (refreshRate_ s) (breakToBreakTime_ s)
  (breakStartTime_ s) (paused_ s) (resumeCounter_ s) (transmitting_ s)
  (doneTXFunc_ s).
Definition with_breakBaud_ (v : Z) (s : Sender) : Sender :=
  mkSender (serialIndex_ s) (packetCount_ s) (sendHandler_ s) (intervalTimer_
  s) (began_ s) (state_ s) (outputBuf_ s) (outputBufIndex_ s) (breakTime_ s)
  (mabTime_ s) (adjustedBreakTime_ s) (adjustedMABTime_ s) v (breakFormat_ s)
  (breakUseTimer_ s) (packetSize_ s) (refreshRate_ s) (breakToBreakTime_ s)
  (breakStartTime_ s) (paused_ s) (resumeCounter_ s) (transmitting_ s)
  (doneTXFunc_ s).
Definition with_breakFormat_ (v : Z) (s : Sender) : Sender :=
  mkSender (serialIndex_ s) (packetCount_ s) (sendHandler_ s) (intervalTimer_
  s) (began_ s) (state_ s) (outputBuf_ s) (outputBufIndex_ s) (breakTime_ s)
  (mabTime_ s) (adjustedBreakTime_ s) (adjustedMABTime_ s) (breakBaud_ s) v
  (breakUseTimer_ s) (packetSize_ s) (refreshRate_ s) (breakToBreakTime_ s)
  (breakStartTime_ s) (paused_ s) (resumeCounter_ s) (transmitting_ s)
  (doneTXFunc_ s).
Definition with_refreshRate_ (v : float) (s : Sender) : Sender :=
  mkSender (serialIndex_ s) (packetCount_ s) (sendHandler_ s) (intervalTimer_
  s) (began_ s) (state_ s) (outputBuf_ s) (outputBufIndex_ s) (breakTime_ s)
  (mabTime_ s) (adjustedBreakTime_ s) (adjustedMABTime_ s) (breakBaud_ s)
  (breakFormat_ s) (breakUseTimer_ s) (packetSize_ s) v (breakToBreakTime_ s)
  (breakStartTime_ s) (paused_ s) (resumeCounter_ s) (transmitting_ s)
  (doneTXFunc_ s).
Definition with_breakToBreakTime_ (v : Z) (s : Sender) : Sender :=
  mkSender (serialIndex_ s) (packetCount_ s) (sendHandler_ s) (intervalTimer_
  s) (began_ s) (state_ s) (outputBuf_ s) (outputBufIndex_ s) (breakTime_ s)
  (mabTime_ s) (adjustedBreakTime_ s) (adjustedMABTime_ s) (breakBaud_ s)
  (breakFormat_ s) (breakUseTimer_ s) (packetSize_ s) (refreshRate_ s) v
  (breakStartTime_ s) (paused_ s) (resumeCounter_ s) (transmitting_ s)
  (doneTXFunc_ s).
Definition with_paused_ (v : bool) (s : Sender) : Sender :=
  mkSender (serialIndex_ s) (packetCount_ s) (sendHandler_ s) (intervalTimer_
  s) (began_ s) (state_ s) (outputBuf_ s) (outputBufIndex_ s) (breakTime_ s)
  (mabTime_ s) (adjustedBreakTime_ s) (adjustedMABTime_ s) (breakBaud_ s)
  (breakFormat_ s) (breakUseTimer_ s) (packetSize_ s) (refreshRate_ s)
  (breakToBreakTime_ s) (breakStartTime_ s) v (resumeCounter_ s)
  (transmitting_ s) (doneTXFunc_ s).
Definition with_resumeCounter_ (v : Z) (s : Sender) : Sender :=
  mkSender (serialIndex_ s) (packetCount_ s) (sendHandler_ s) (intervalTimer_
  s) (began_ s) (state_ s) (outputBuf_ s) (outputBufIndex_ s) (breakTime_ s)
  (mabTime_ s) (adjustedBreakTime_ s) (adjustedMABTime_ s) (breakBaud_ s)
  (breakFormat_ s) (breakUseTimer_ s) (packetSize_ s) (refreshRate_ s)
  (breakToBreakTime_ s) (breakStartTime_ s) (paused_ s) v (transmitting_ s)
  (doneTXFunc_ s).
Definition with_transmitting_ (v : bool) (s : Sender) : Sender :=
  mkSender (serialIndex_ s) (packetCount_ s) (sendHandler_ s) (intervalTimer_
  s) (began_ s) (state_ s) (outputBuf_ s) (outputBufIndex_ s) (breakTime_ s)
  (mabTime_ s) (adjustedBreakTime_ s) (adjustedMABTime_ s) (breakBaud_ s)
  (breakFormat_ s) (breakUseTimer_ s) (packetSize_ s) (refreshRate_ s)
  (breakToBreakTime_ s) (breakStartTime_ s) (paused_ s) (resumeCounter_ s) v
  (doneTXFunc_ s).
Definition with_doneTXFunc_ (v : option FnPtr) (s : Sender) : Sender :=
  mkSender (serialIndex_ s) (packetCount_ s) (sendHandler_ s) (intervalTimer_
  s) (began_ s) (state_ s) (outputBuf_ s) (outputBufIndex_ s) (breakTime_ s)
  (mabTime_ s) (adjustedBreakTime_ s) (adjustedMABTime_ s) (breakBaud_ s)
  (breakFormat_ s) (breakUseTimer_ s) (packetSize_ s) (refreshRate_ s)
  (breakToBreakTime_ s) (breakStartTime_ s) (paused_ s) (resumeCounter_ s)
  (transmitting_ s) v.

(** ** Member functions that touch only their own object *)

(** [switch x cases] is a C++ [switch] whose [case] labels carry a value:
    the value of the label equal to [x], or [None] for [default]. *)
Fixpoint switch {A : Type} (x : Z) (cases : list (Z * A)) : option A :=
  match cases with
  | [] => None
  | (label, a) :: rest => if x =? label then Some a else switch x rest
  end.

(** [f & ~(kSerialFormatTXINVBit | kSerialFormatRXINVBit)] on [uint32_t]. *)
Definition strip_inv_bits (f : Z) : Z :=
  Z.land f
    (wrap_uint32 (Z.lnot (Z.lor kSerialFormatTXINVBit kSerialFormatRXINVBit))).

(** Modelled from the spec: the accessors [isBreakUseTimerNotSerial],
    [breakSerialBaud] and [breakSerialFormat] are defined in [TeensyDMX.h];
    the spec calls them the break generation mode and "the configured baud
    rate and byte format". *)
Definition isBreakUseTimerNotSerial (s : Sender) : bool := breakUseTimer_ s.
Definition breakSerialBaud (s : Sender) : Z := breakBaud_ s.
Definition breakSerialFormat (s : Sender) : Z := breakFormat_ s.

(** Modelled from the spec: [resetPacketCount] and [incPacketCount] are
    defined in [TeensyDMX.h]; the spec has [begin] "reset counters" and a
    completed packet "increment a monotonic packet counter". *)
Definition resetPacketCount (s : Sender) : Sender := with_packetCount_ 0 s.
Definition incPacketCount (s : Sender) : Sender :=
  with_packetCount_ (packetCount_ s + 1) s.

Definition handler_call (c : HandlerCall) (s : Sender) : Sender :=
  with_sendHandler_ (sendHandler_ s ++ [c]) s.
Definition timer_call (c : TimerCall) (s : Sender) : Sender :=
  with_intervalTimer_ (intervalTimer_ s ++ [c]) s.

Definition disableIRQs (s : Sender) : Sender :=
  if negb (began_ s) then s else handler_call (HSetIRQsEnabled false) s.

Definition enableIRQs (s : Sender) : Sender :=
  if negb (began_ s) then s else handler_call (HSetIRQsEnabled true) s.

(** Modelled from the spec: the scoped [Lock] is declared in [TeensyDMX.h];
    the spec describes "a single scoped critical section per instance that
    disables the relevant interrupt for its duration".  [locked body] is a
    block that opens with [Lock lock{*this};]. *)
Definition locked (body : Sender -> Sender) (s : Sender) : Sender :=
  enableIRQs (body (disableIRQs s)).

Section Local.

Variable b : Build.

Definition kDefaultBreakFormat : Z := SERIAL_8N1 b.

(** The condition of the [#if] around the [SERIAL_8E2] and [SERIAL_8O2]
    labels. *)
Definition has_parity_2stop : bool :=
  match chip b with
  | MK64FX512 | MK66FX1M0 | IMXRT1062 | IMXRT1052 => true
  | _ => KINETISL b
  end.

Definition setBreakTime (t : Z) (s : Sender) : Sender :=
  with_adjustedBreakTime_ (wrap_uint32 (t + kBreakTimerAdjust (chip b)))
    (with_breakTime_ t s).

Definition breakTime_cases : list (Z * Z) :=
  [(SERIAL_7E1 b, 9); (SERIAL_8N1 b, 9); (SERIAL_8O1 b, 9); (SERIAL_8N2 b, 9);
   (SERIAL_8E1 b, 10)]
  ++ (if has_parity_2stop then [(SERIAL_8E2 b, 10); (SERIAL_8O2 b, 9)] else [])
  ++ [(SERIAL_7O1 b, 8)]
  ++ (if SERIAL_9BIT_SUPPORT b
      then [(SERIAL_9N1 b, 10); (SERIAL_9O1 b, 10); (SERIAL_9E1 b, 11)]
      else []).

(** Division by a zero baud rate is undefined in C++; [Z.div] gives 0. *)
Definition breakTime (s : Sender) : Z :=
  if isBreakUseTimerNotSerial s then breakTime_ s
  else
    match switch (strip_inv_bits (breakSerialFormat s)) breakTime_cases with
    | Some t => wrap_uint32 (t * 1000000) / breakSerialBaud s
    | None => kDefaultBreakTime
    end.

Definition setMABTime (t : Z) (s : Sender) : Sender :=
  let s := with_mabTime_ t s in
  if t <? kMABTimerAdjust (chip b) then with_adjustedMABTime_ 0 s
  else with_adjustedMABTime_ (t - kMABTimerAdjust (chip b)) s.

Definition mabTime_cases : list (Z * Z) :=
  [(SERIAL_7E1 b, 1); (SERIAL_8N1 b, 1); (SERIAL_8E1 b, 1);
   (SERIAL_7O1 b, 2); (SERIAL_8O1 b, 2); (SERIAL_8N2 b, 2)]
  ++ (if has_parity_2stop then [(SERIAL_8E2 b, 2); (SERIAL_8O2 b, 3)] else [])
  ++ (if SERIAL_9BIT_SUPPORT b
      then [(SERIAL_9N1 b, 1); (SERIAL_9E1 b, 1); (SERIAL_9O1 b, 2)]
      else []).

Definition mabTime (s : Sender) : Z :=
  if isBreakUseTimerNotSerial s then mabTime_ s
  else
    match switch (strip_inv_bits (breakSerialFormat s)) mabTime_cases with
    | Some t => wrap_uint32 (t * 1000000) / breakSerialBaud s
    | None => kDefaultMABTime
    end.

(** The labels of the [switch] in [setBreakSerialParams]. *)
Definition supported_formats : list Z :=
  [SERIAL_7E1 b; SERIAL_7O1 b; SERIAL_8N1 b; SERIAL_8E1 b; SERIAL_8O1 b;
   SERIAL_8N2 b]
  ++ (if has_parity_2stop then [SERIAL_8E2 b; SERIAL_8O2 b] else [])
  ++ (if SERIAL_9BIT_SUPPORT b
      then [SERIAL_9N1 b; SERIAL_9E1 b; SERIAL_9O1 b]
      else []).

(** The [switch] is on [breakSerialFormat()], the format already stored, as
    in the source. *)
Definition setBreakSerialParams (baud format : Z) (s : Sender)
  : bool * Sender :=
  if baud =? 0 then (false, s)
  else if negb (Z.land format kSerialFormatTXINVBit =? 0) then (false, s)
  else
    match switch (strip_inv_bits (breakSerialFormat s))
                 (map (fun l => (l, tt)) supported_formats) with
    | None => (false, s)
    | Some _ =>
        (true,
         handler_call HBreakSerialParamsChanged
           (with_breakFormat_ format (with_breakBaud_ baud s)))
    end.

End Local.

(** *** The output buffer *)

(** [outputBuf_[i] = v] for an index inside the array.  For an index
    outside it the C++ store is undefined; this function then leaves the
    list as it is (a negative index counts as 0), so it stands for the
    source only where the index is inside.  [store_checked] below tells the
    two cases apart, and the properties of the writes say which calls stay
    inside. *)
Definition store (i : Z) (v : Z) (buf : list Z) : list Z :=
  <[Z.to_nat i := v]> buf.

(** [set(int channel, uint8_t value)] *)
Definition set (channel value : Z) (s : Sender) : bool * Sender :=
  if (channel <? 0) || (kMaxDMXPacketSize <=? channel) then (false, s)
  else (true, with_outputBuf_ (store channel value (outputBuf_ s)) s).

(** [set16Bit(int channel, uint16_t value)] *)
Definition set16Bit (channel value : Z) (s : Sender) : bool * Sender :=
  if (channel <? 0) || (kMaxDMXPacketSize - 1 <=? channel) then (false, s)
  else
    (true,
     locked
       (fun s =>
          with_outputBuf_
            (store (channel + 1) (wrap_uint8 value)
               (store channel (wrap_uint8 (Z.shiftr value 8)) (outputBuf_ s)))
            s)
       s).

(** [std::copy_n(&values[0], n, &outputBuf_[dst])].  [values] is the array
    the caller points to; reading past its end, undefined in C++, reads 0. *)
Fixpoint copy_n (values : list Z) (n : nat) (dst : Z) (buf : list Z)
  : list Z :=
  match n with
  | O => buf
  | S n' => copy_n (tl values) n' (dst + 1) (store dst (hd 0 values) buf)
  end.

(** [set(int startChannel, const uint8_t *values, int len)] *)
Definition set_values (startChannel : Z) (values : list Z) (len : Z)
    (s : Sender) : bool * Sender :=
  if (len <? 0) || (startChannel <? 0) || (kMaxDMXPacketSize <=? startChannel)
  then (false, s)
  else if len =? 0 then (true, s)
  else if (wrap_int (startChannel + len) <=? 0)
          || (kMaxDMXPacketSize <? wrap_int (startChannel + len))
  then (false, s)
  else
    (true,
     locked
       (fun s =>
          with_outputBuf_
            (copy_n values (Z.to_nat len) startChannel (outputBuf_ s)) s)
       s).

(** The loop of the 16-bit range write: high byte, then low byte, of each
    value. *)
Fixpoint store16_n (values : list Z) (n : nat) (dst : Z) (buf : list Z)
  : list Z :=
  match n with
  | O => buf
  | S n' =>
      let v := hd 0 values in
      store16_n (tl values) n' (dst + 2)
        (store (dst + 1) (wrap_uint8 v)
           (store dst (wrap_uint8 (Z.shiftr v 8)) buf))
  end.

(** [set16Bit(int startChannel, const uint16_t *values, int len)] *)
Definition set16Bit_values (startChannel : Z) (values : list Z) (len : Z)
    (s : Sender) : bool * Sender :=
  let end_index := wrap_int (startChannel + wrap_int (len * 2)) in
  if (len <? 0) || (startChannel <? 0) || (kMaxDMXPacketSize <=? startChannel)
  then (false, s)
  else if len =? 0 then (true, s)
  else if (end_index <=? 0) || (kMaxDMXPacketSize <? end_index)
  then (false, s)
  else
    (true,
     locked
       (fun s =>
          with_outputBuf_
            (store16_n values (Z.to_nat len) startChannel (outputBuf_ s)) s)
       s).

(** [std::fill_n(&outputBuf_[dst], n, v)] *)
Fixpoint fill_n (n : nat) (dst : Z) (v : Z) (buf : list Z) : list Z :=
  match n with
  | O => buf
  | S n' => fill_n n' (dst + 1) v (store dst v buf)
  end.

Definition clear (s : Sender) : Sender :=
  locked
    (fun s =>
       with_outputBuf_
         (fill_n (Z.to_nat kMaxDMXPacketSize) 0 0 (outputBuf_ s)) s)
    s.

(** [isTransmitting() const]: the lock leaves its two calls on the send
    handler, so the object is returned with the answer. *)
Definition isTransmitting (s : Sender) : bool * Sender :=
  let s1 := disableIRQs s in
  let state := negb (paused_ s1) || transmitting_ s1 in
  (state, enableIRQs s1).

(** [Sender(HardwareSerial &uart)]; [serialIndex] is the index the base
    class derives from [uart] (negative for an unknown port). *)
Definition Sender_new (b : Build) (serialIndex : Z) : Sender :=
  setMABTime b kDefaultMABTime
    (setBreakTime b kDefaultBreakTime
       (mkSender serialIndex 0 [] [] false kIdle
          (replicate (Z.to_nat kMaxDMXPacketSize) 0) 0
          kDefaultBreakTime kDefaultMABTime kDefaultBreakTime kDefaultMABTime
          kDefaultBreakBaud (kDefaultBreakFormat b) false kMaxDMXPacketSize
          float_infinity 0 0 false 0 false None)).

(** ** The instance table and the member functions that reach it *)

(** [objs] holds the live [Sender] objects by address; [txInstances] is the
    file-level array of instance pointers, [None] for [nullptr]. *)
Record World : Type := mkWorld {
  objs : gmap ptr Sender;
  txInstances : list (option ptr)
}.

Definition World_new (b : Build) : World :=
  mkWorld ∅ (replicate (txInstances_size b) None).

(** Apply [f] to the fields of the object at [this]. *)
Definition modify (this : ptr) (f : Sender -> Sender) (w : World) : World :=
  mkWorld (alter f this (objs w)) (txInstances w).

(** [txInstances[i] = v] *)
Definition set_txInstance (i : nat) (v : option ptr) (w : World) : World :=
  mkWorld (objs w) (<[i := v]> (txInstances w)).

(** Construct a [Sender] at address [this]. *)
Definition construct (b : Build) (this : ptr) (serialIndex : Z) (w : World)
  : World :=
  mkWorld (<[this := Sender_new b serialIndex]> (objs w)) (txInstances w).

(** [Sender::end()] *)
Definition end_ (this : ptr) (w : World) : option World :=
  s ← objs w !! this;
  if negb (began_ s) then Some w
  else
    let w := modify this (with_began_ false) w in
    if serialIndex_ s <? 0 then Some w
    else
      let w := modify this (fun s => timer_call TEnd (handler_call HEnd s)) w in
      cur ← txInstances w !! Z.to_nat (serialIndex_ s);
      if decide (cur = Some this)
      then Some (set_txInstance (Z.to_nat (serialIndex_ s)) None w)
      else Some w.

(** [Sender::begin()] *)
Definition begin (this : ptr) (w : World) : option World :=
  s ← objs w !! this;
  if began_ s then Some w
  else
    let w := modify this (with_began_ true) w in
    if serialIndex_ s <? 0 then Some w
    else
      let w := modify this resetPacketCount w in
      let i := Z.to_nat (serialIndex_ s) in
      prev ← txInstances w !! i;
      let w := set_txInstance i (Some this) w in
      w ← match prev with
          | Some p => if decide (p = this) then Some w else end_ p w
          | None => Some w
          end;
      Some
        (modify this
           (fun s =>
              handler_call HSetActive
                (timer_call TSetPriorityOfHandler
                   (handler_call HStart
                      (with_state_ kIdle (with_transmitting_ false s)))))
           w).

(** [Sender::~Sender()] *)
Definition destruct_ (this : ptr) (w : World) : option World :=
  w ← end_ this w;
  Some (mkWorld (delete this (objs w)) (txInstances w)).

(** [Sender::setRefreshRate(float rate)] *)
Definition setRefreshRate (rate : float) (this : ptr) (w : World)
  : option (bool * World) :=
  s ← objs w !! this;
  if negb (float_eqb rate rate) || float_ltb rate float_zero
  then Some (false, w)
  else if float_eqb rate float_zero
  then
    Some (true,
          modify this
            (fun s => with_refreshRate_ rate (with_breakToBreakTime_ UINT32_MAX s))
            w)
  else
    w ← (if float_eqb (refreshRate_ s) float_zero
         then end_ this w ≫= begin this
         else Some w);
    Some (true,
          modify this
            (fun s =>
               with_refreshRate_ rate
                 (with_breakToBreakTime_
                    (float_to_uint32 (float_div (float_of_int 1000000) rate))
                    s))
            w).

Section Callbacks.

(** What a completion function does when called with the address of the
    object: any change of the world, or undefined behaviour. *)
Variable call : FnPtr -> ptr -> World -> option World.

(** [Sender::completePacket()] *)
Definition completePacket (this : ptr) (w : World) : option World :=
  s ← objs w !! this;
  let w :=
    modify this
      (fun s =>
         with_state_ kIdle
           (with_transmitting_ false
              (with_outputBufIndex_ 0 (incPacketCount s))))
      w in
  if paused_ s then
    match doneTXFunc_ s with
    | Some f => call f this w
    | None => Some w
    end
  else Some w.

End Callbacks.

(** ** Shorthands for the object updates of [end()] and [begin()] *)

(** What [end()] does to its own object once past the two early returns. *)
Definition ended (s : Sender) : Sender :=
  timer_call TEnd (handler_call HEnd (with_began_ false s)).

(** What [begin()] does to its own object once past the two early returns. *)
Definition started (s : Sender) : Sender :=
  handler_call HSetActive
    (timer_call TSetPriorityOfHandler
       (handler_call HStart
          (with_state_ kIdle
             (with_transmitting_ false
                (resetPacketCount (with_began_ true s)))))).

(** ** Well-formed states *)

(** The output buffer is the 513-byte array of the class. *)
Definition buffer_ok (s : Sender) : Prop :=
  length (outputBuf_ s) = Z.to_nat kMaxDMXPacketSize.

(** The instance table is consistent with the objects: every object's port
    index lies inside the table, an occupied slot holds a live, begun object
    of that port, and every begun object of a known port is in its slot. *)
Definition registry_ok (w : World) : Prop :=
  (∀ p s, objs w !! p = Some s →
          serialIndex_ s < Z.of_nat (length (txInstances w)))
  ∧ (∀ i p, txInstances w !! i = Some (Some p) →
            ∃ s, objs w !! p = Some s ∧ began_ s = true
                 ∧ serialIndex_ s = Z.of_nat i)
  ∧ (∀ p s, objs w !! p = Some s → began_ s = true → 0 <= serialIndex_ s →
            txInstances w !! Z.to_nat (serialIndex_ s) = Some (Some p)).

(** ** A concrete build

    A Teensy 3.2 (MK20DX256) without 9-bit support; the format constants
    have the values the Teensy core gives them. *)
Definition teensy32 : Build :=
  mkBuild MK20DX256 false false false
    0x02 0x03 0x00 0x06 0x07 0x04 0x106 0x107 0x84 0x8E 0x8F.

(** A completion function that leaves the world alone. *)
Definition call_nothing (f : FnPtr) (this : ptr) (w : World) : option World :=
  Some w.

(** ** Resuming *)

(** [resumeFor(int n, doneTXFunc)], where [doneTXFunc] is a pointer to a
    function taking the [Sender], or null. *)
Definition resumeFor_callback (n : Z) (doneTXFunc : option FnPtr)
    (s : Sender) : bool * Sender :=
  if n <? 0 then (false, s)
  else
    (true,
     locked
       (fun s =>
          let s := with_resumeCounter_ n s in
          let s :=
            if paused_ s
            then
              with_paused_ false
                (if began_ s && negb (transmitting_ s)
                 then handler_call HSetActive s
                 else s)
            else s in
          with_doneTXFunc_ doneTXFunc s)
       s).

(** [resumeFor(int n)] *)
Definition resumeFor (n : Z) (s : Sender) : bool * Sender :=
  resumeFor_callback n (doneTXFunc_ s) s.

(** [resume()] *)
Definition resume (s : Sender) : Sender := snd (resumeFor 0 s).

(** ** The TX interrupt service routines *)

(** The port macros of the Teensy core that guard the ISRs and the cases of
    the constructor's [switch]. *)
Record PortMacros : Type := mkPortMacros {
  HAS_KINETISK_UART0 : bool;
  HAS_KINETISK_UART1 : bool;
  HAS_KINETISK_UART2 : bool;
  HAS_KINETISK_UART3 : bool;
  HAS_KINETISK_UART4 : bool;
  HAS_KINETISK_UART5 : bool;
  HAS_KINETISL_UART0 : bool;
  HAS_KINETISL_UART1 : bool;
  HAS_KINETISL_UART2 : bool;
  HAS_KINETISK_LPUART0 : bool;
  IMXRT_LPUART1 : bool;
  IMXRT_LPUART2 : bool;
  IMXRT_LPUART3 : bool;
  IMXRT_LPUART4 : bool;
  IMXRT_LPUART5 : bool;
  IMXRT_LPUART6 : bool;
  IMXRT_LPUART7 : bool;
  IMXRT_LPUART8 : bool
}.

Inductive TxIsr : Type :=
  | uart0_tx_isr | uart1_tx_isr | uart2_tx_isr | uart3_tx_isr | uart4_tx_isr
  | uart5_tx_isr | lpuart0_tx_isr | lpuart6_tx_isr | lpuart4_tx_isr
  | lpuart2_tx_isr | lpuart3_tx_isr | lpuart8_tx_isr | lpuart1_tx_isr
  | lpuart7_tx_isr | lpuart5_tx_isr.

(** The index each ISR reads [txInstances] at. *)
Definition isr_slot (isr : TxIsr) : nat :=
  match isr with
  | uart0_tx_isr => 0
  | uart1_tx_isr => 1
  | uart2_tx_isr => 2
  | uart3_tx_isr => 3
  | uart4_tx_isr => 4
  | uart5_tx_isr => 5
  | lpuart0_tx_isr => 5
  | lpuart6_tx_isr => 0
  | lpuart4_tx_isr => 1
  | lpuart2_tx_isr => 2
  | lpuart3_tx_isr => 3
  | lpuart8_tx_isr => 4
  | lpuart1_tx_isr => 5
  | lpuart7_tx_isr => 6
  | lpuart5_tx_isr => 7
  end%nat.

(** [__IMXRT1052__ || ARDUINO_TEENSY41], the condition that gives
    [txInstances] its eighth entry. *)
Definition has_eighth_port (b : Build) : bool :=
  match chip b with IMXRT1052 => true | _ => ARDUINO_TEENSY41 b end.

(** The condition of the [#if] around the definition of each ISR. *)
Definition isr_defined (b : Build) (m : PortMacros) (isr : TxIsr) : bool :=
  match isr with
  | uart0_tx_isr => HAS_KINETISK_UART0 m || HAS_KINETISL_UART0 m
  | uart1_tx_isr => HAS_KINETISK_UART1 m || HAS_KINETISL_UART1 m
  | uart2_tx_isr => HAS_KINETISK_UART2 m || HAS_KINETISL_UART2 m
  | uart3_tx_isr => HAS_KINETISK_UART3 m
  | uart4_tx_isr => HAS_KINETISK_UART4 m
  | uart5_tx_isr => HAS_KINETISK_UART5 m
  | lpuart0_tx_isr => HAS_KINETISK_LPUART0 m
  | lpuart6_tx_isr => IMXRT_LPUART6 m
  | lpuart4_tx_isr => IMXRT_LPUART4 m
  | lpuart2_tx_isr => IMXRT_LPUART2 m
  | lpuart3_tx_isr => IMXRT_LPUART3 m
  | lpuart8_tx_isr => IMXRT_LPUART8 m
  | lpuart1_tx_isr => IMXRT_LPUART1 m
  | lpuart7_tx_isr => IMXRT_LPUART7 m
  | lpuart5_tx_isr => IMXRT_LPUART5 m && has_eighth_port b
  end.

(** The body the ISRs share: [Sender *s = txInstances[slot]; if (s !=
    nullptr) s->sendHandler_->irqHandler();].  The result is the object whose
    send handler gets the interrupt, [Some None] when the slot is null and
    the ISR returns without a call, and [None] for an index outside the
    array. *)
Definition tx_isr (isr : TxIsr) (w : World) : option (option ptr) :=
  txInstances w !! isr_slot isr.

(** The ISR that the [switch] of the constructor hands to the send handler
    it creates for [serialIndex_]; [None] where no case is compiled in and
    [sendHandler_] stays null. *)
Definition constructor_isr (b : Build) (m : PortMacros) (serialIndex : Z)
  : option TxIsr :=
  match serialIndex with
  | 0 =>
      if HAS_KINETISK_UART0 m || HAS_KINETISL_UART0 m then Some uart0_tx_isr
      else if IMXRT_LPUART6 m then Some lpuart6_tx_isr
      else None
  | 1 =>
      if HAS_KINETISK_UART1 m || HAS_KINETISL_UART1 m then Some uart1_tx_isr
      else if IMXRT_LPUART4 m then Some lpuart4_tx_isr
      else None
  | 2 =>
      if HAS_KINETISK_UART2 m || HAS_KINETISL_UART2 m then Some uart2_tx_isr
      else if IMXRT_LPUART2 m then Some lpuart2_tx_isr
      else None
  | 3 =>
      if HAS_KINETISK_UART3 m then Some uart3_tx_isr
      else if IMXRT_LPUART3 m then Some lpuart3_tx_isr
      else None
  | 4 =>
      if HAS_KINETISK_UART4 m then Some uart4_tx_isr
      else if IMXRT_LPUART8 m then Some lpuart8_tx_isr
      else None
  | 5 =>
      if HAS_KINETISK_UART5 m then Some uart5_tx_isr
      else if HAS_KINETISK_LPUART0 m then Some lpuart0_tx_isr
      else if IMXRT_LPUART1 m then Some lpuart1_tx_isr
      else None
  | 6 => if IMXRT_LPUART7 m then Some lpuart7_tx_isr else None
  | 7 =>
      if IMXRT_LPUART5 m && has_eighth_port b then Some lpuart5_tx_isr
      else None
  | _ => None
  end.

(** ** More well-formed states *)

(** The calls a [Lock] that is [taken] makes on the send handler of [s]:
    interrupts off, then interrupts on, and none on an object that has not
    begun. *)
Definition lock_calls (s : Sender) (taken : bool) : list HandlerCall :=
  if began_ s && taken then [HSetIRQsEnabled false; HSetIRQsEnabled true]
  else [].

(** [s'] differs from [s] at most in the output buffer and in the calls its
    send handler has received. *)
Definition same_but_buffer (s s' : Sender) : Prop :=
  with_outputBuf_ (outputBuf_ s) (with_sendHandler_ (sendHandler_ s) s') = s.

(** The break parameters are usable: a nonzero baud rate, which
    [breakTime()] and [mabTime()] divide by, and no TX-invert bit. *)
Definition break_params_ok (s : Sender) : Prop :=
  0 < breakBaud_ s ∧ Z.land (breakFormat_ s) kSerialFormatTXINVBit = 0.

(** A Teensy 4.1 build (IMXRT1062 with [ARDUINO_TEENSY41]) and its ports. *)
Definition teensy41 : Build :=
  mkBuild IMXRT1062 false false true
    0x02 0x03 0x00 0x06 0x07 0x100 0x106 0x107 0x84 0x8E 0x8F.

Definition teensy41_ports : PortMacros :=
  mkPortMacros false false false false false false false false false false
    true true true true true true true true.

(** ** Stores with the bounds of the array checked *)

(** [outputBuf_[i] = v] with the index checked against the array: [None]
    for an index outside it, where the store of the source is undefined. *)
Definition store_checked (i v : Z) (buf : list Z) : option (list Z) :=
  if (0 <=? i) && (i <? Z.of_nat (length buf)) then Some (store i v buf)
  else None.

(** The two stores of [set16Bit(int channel, uint16_t value)]. *)
Definition store16_checked (channel value : Z) (buf : list Z)
  : option (list Z) :=
  buf ← store_checked channel (wrap_uint8 (Z.shiftr value 8)) buf;
  store_checked (channel + 1) (wrap_uint8 value) buf.

(** [copy_n], [store16_n] and [fill_n] with every store checked. *)
Fixpoint copy_n_checked (values : list Z) (n : nat) (dst : Z) (buf : list Z)
  : option (list Z) :=
  match n with
  | O => Some buf
  | S n' =>
      buf ← store_checked dst (hd 0 values) buf;
      copy_n_checked (tl values) n' (dst + 1) buf
  end.

Fixpoint store16_n_checked (values : list Z) (n : nat) (dst : Z)
    (buf : list Z) : option (list Z) :=
  match n with
  | O => Some buf
  | S n' =>
      buf ← store16_checked dst (hd 0 values) buf;
      store16_n_checked (tl values) n' (dst + 2) buf
  end.

Fixpoint fill_n_checked (n : nat) (dst : Z) (v : Z) (buf : list Z)
  : option (list Z) :=
  match n with
  | O => Some buf
  | S n' => buf ← store_checked dst v buf; fill_n_checked n' (dst + 1) v buf
  end.

(** ** A write and the transmit interrupt, step by step *)

(** The steps of a write that takes the lock, in the order the source runs
    them: the constructor of the [Lock], the stores into [outputBuf_], the
    destructor of the [Lock]. *)
Inductive WriteStep : Type :=
| WDisableIRQs
| WStore (i v : Z)
| WEnableIRQs.

Definition write_step (o : WriteStep) (s : Sender) : Sender :=
  match o with
  | WDisableIRQs => disableIRQs s
  | WStore i v => with_outputBuf_ (store i v (outputBuf_ s)) s
  | WEnableIRQs => enableIRQs s
  end.

(** A list of stores, each a slot and a byte, and the buffer they leave. *)
Fixpoint apply_stores (stores : list (Z * Z)) (buf : list Z) : list Z :=
  match stores with
  | [] => buf
  | p :: rest => apply_stores rest (store (fst p) (snd p) buf)
  end.

(** The body of a member function that opens with the [Lock] and then
    stores. *)
Definition locked_steps (stores : list (Z * Z)) : list WriteStep :=
  WDisableIRQs :: map (λ p, WStore (fst p) (snd p)) stores ++ [WEnableIRQs].

(** The stores of [std::copy_n(&values[0], n, &outputBuf_[dst])]. *)
Fixpoint copy_n_stores (values : list Z) (n : nat) (dst : Z)
  : list (Z * Z) :=
  match n with
  | O => []
  | S n' => (dst, hd 0 values) :: copy_n_stores (tl values) n' (dst + 1)
  end.

(** The two writes that claim the lock for more than one byte:
    [set16Bit(channel, value)] and [set(startChannel, values, len)]. *)
Inductive WriteCall : Type :=
| CallSet16Bit (channel value : Z)
| CallSetValues (startChannel : Z) (values : list Z) (len : Z).

Definition write_call (c : WriteCall) (s : Sender) : bool * Sender :=
  match c with
  | CallSet16Bit channel value => set16Bit channel value s
  | CallSetValues startChannel values len =>
      set_values startChannel values len s
  end.

(** The steps the call runs on the object: none when a guard returns
    early. *)
Definition write_steps (c : WriteCall) : list WriteStep :=
  match c with
  | CallSet16Bit channel value =>
      if (channel <? 0) || (kMaxDMXPacketSize - 1 <=? channel) then []
      else
        locked_steps
          [(channel, wrap_uint8 (Z.shiftr value 8));
           (channel + 1, wrap_uint8 value)]
  | CallSetValues startChannel values len =>
      if (len <? 0) || (startChannel <? 0)
         || (kMaxDMXPacketSize <=? startChannel)
      then []
      else if len =? 0 then []
      else if (wrap_int (startChannel + len) <=? 0)
              || (kMaxDMXPacketSize <? wrap_int (startChannel + len))
      then []
      else locked_steps (copy_n_stores values (Z.to_nat len) startChannel)
  end.

(** The object, what is left of the write in progress, and the bytes the
    interrupt has handed to the port so far. *)
Record Machine : Type := mkMachine {
  object : Sender;
  pending : list WriteStep;
  sent : list Z
}.

(** Modelled from the spec: the send handler is declared in [TeensyDMX.h];
    the lock "disables the relevant interrupt for its duration", so the
    interrupt of the port is masked from the handler's
    [setIRQsEnabled(false)] until its next call. *)
Definition irqs_masked (s : Sender) : bool :=
  match last (sendHandler_ s) with
  | Some (HSetIRQsEnabled false) => true
  | _ => false
  end.

(** Modelled from the spec: the transmit interrupt while the packet is
    sent, "the hardware interrupt fires once per byte consumed; the handler
    pushes the next pending byte" of the buffer "until the full packet" has
    gone out.  The interrupt routines of the source reach an object through
    its slot of [txInstances], which holds begun objects only; a masked
    interrupt does not run. *)
Definition transmit_irq (m : Machine) : Machine :=
  let s := object m in
  if began_ s && negb (irqs_masked s)
     && (outputBufIndex_ s <? packetSize_ s)
  then
    match outputBuf_ s !! Z.to_nat (outputBufIndex_ s) with
    | Some x =>
        mkMachine (with_outputBufIndex_ (outputBufIndex_ s + 1) s)
          (pending m) (sent m ++ [x])
    | None => m
    end
  else m.

(** The application runs the next step of its write. *)
Definition app_step (m : Machine) : Machine :=
  match pending m with
  | [] => m
  | o :: rest => mkMachine (write_step o (object m)) rest (sent m)
  end.

(** An interleaving is a schedule: at each point either the interrupt is
    raised or the application moves on by one step. *)
Inductive Event : Type := Irq | App.

Definition event_step (e : Event) (m : Machine) : Machine :=
  match e with
  | Irq => transmit_irq m
  | App => app_step m
  end.

Fixpoint run (sched : list Event) (m : Machine) : Machine :=
  match sched with
  | [] => m
  | e :: rest => run rest (event_step e m)
  end.

(** How many steps the schedule gives the application. *)
Fixpoint count_App (sched : list Event) : nat :=
  match sched with
  | [] => O
  | App :: rest => S (count_App rest)
  | Irq :: rest => count_App rest
  end.

(** The bytes [sent] were read from the slot the object's index pointed to
    onwards: the first [n] of them from the buffer of [s], the others from
    the buffer [new]. *)
Definition reads_old_then_new (s : Sender) (new : list Z) (n : nat)
    (sent : list Z) : Prop :=
  ∀ j x,
    sent !! j = Some x →
    (if decide (j < n)%nat then outputBuf_ s else new)
      !! (Z.to_nat (outputBufIndex_ s) + j)%nat = Some x.

(** Where an interleaving of the locked stores [sts] on the object [s]
    stands: before the lock, between the lock and its release, or after the
    write, which leaves the object [fin]. *)
Definition interleaving_inv (s fin : Sender) (sts : list (Z * Z))
    (m : Machine) : Prop :=
  outputBufIndex_ (object m)
  = outputBufIndex_ s + Z.of_nat (length (sent m))
  ∧ ((pending m = locked_steps sts
      ∧ with_outputBufIndex_ (outputBufIndex_ s) (object m) = s
      ∧ reads_old_then_new s (outputBuf_ s) 0 (sent m))
     ∨ (∃ done rest,
          sts = done ++ rest
          ∧ pending m
            = map (λ p, WStore (fst p) (snd p)) rest ++ [WEnableIRQs]
          ∧ with_outputBufIndex_ (outputBufIndex_ s) (object m)
            = with_outputBuf_ (apply_stores done (outputBuf_ s))
                (disableIRQs s)
          ∧ reads_old_then_new s (outputBuf_ s) 0 (sent m))
     ∨ (pending m = []
        ∧ with_outputBufIndex_ (outputBufIndex_ s) (object m) = fin
        ∧ ∃ n, (n <= length (sent m))%nat
               ∧ reads_old_then_new s (outputBuf_ fin) n (sent m))).

(** [forall_from p n k]: [p] holds of the [n] integers from [k] on.  It
    checks a property of the [float] arithmetic over a range of rates. *)
Fixpoint forall_from (p : Z → bool) (n : nat) (k : Z) : bool :=
  match n with
  | O => true
  | S n' => if p k then forall_from p n' (k + 1) else false
  end.

(** * Properties *)

(** ** Arithmetic helpers *)

(** Unfold the range predicates of the machine types and leave the goal to
    [lia]. *)
Ltac range_lia :=
  unfold is_int, is_uint32, int_min, int_max, UINT32_MAX in *; lia.

Lemma wrap_int_id (z : Z) : is_int z → wrap_int z = z.
Proof.
  unfold is_int, int_min, int_max, wrap_int. intros H.
  rewrite Z.mod_small; lia.
Qed.

Lemma wrap_int_above (z : Z) :
  int_max < z < 2 ^ 32 + int_min + 2 ^ 31 → wrap_int z = z - 2 ^ 32.
Proof.
  unfold int_min, int_max, wrap_int. intros H.
  replace (z + 2 ^ 31) with ((z - 2 ^ 31) + 1 * 2 ^ 32) by lia.
  rewrite Z.mod_add by lia. rewrite Z.mod_small; lia.
Qed.

Lemma wrap_uint32_id (z : Z) : is_uint32 z → wrap_uint32 z = z.
Proof.
  unfold is_uint32, UINT32_MAX, wrap_uint32. intros H.
  apply Z.mod_small. lia.
Qed.

Lemma switch_None {A : Type} (x : Z) (cases : list (Z * A)) :
  switch x cases = None ↔ ¬ In x (map fst cases).
Proof.
  induction cases as [|[l a] rest IH]; simpl.
  - tauto.
  - destruct (Z.eqb_spec x l) as [->|Hne].
    + split; [discriminate | intros H; exfalso; apply H; auto].
    + rewrite IH. split.
      * intros H [Heq|Hin]; [congruence | tauto].
      * intros H Hin. apply H. auto.
Qed.

Lemma switch_Some {A : Type} (x : Z) (cases : list (Z * A)) (a : A) :
  switch x cases = Some a → In (x, a) cases.
Proof.
  induction cases as [|[l a'] rest IH]; simpl; [discriminate|].
  destruct (Z.eqb_spec x l) as [->|Hne].
  - intros [= ->]. auto.
  - auto.
Qed.

(** ** The output buffer *)

Lemma store_lookup_eq (i v : Z) (buf : list Z) :
  0 <= i < Z.of_nat (length buf) → store i v buf !! Z.to_nat i = Some v.
Proof. intros H. unfold store. apply list_lookup_insert_eq. lia. Qed.

Lemma store_lookup_ne (i v : Z) (buf : list Z) (j : nat) :
  j ≠ Z.to_nat i → store i v buf !! j = buf !! j.
Proof. intros H. unfold store. apply list_lookup_insert_ne. congruence. Qed.

Lemma store_length (i v : Z) (buf : list Z) :
  length (store i v buf) = length buf.
Proof. unfold store. apply length_insert. Qed.

Lemma set_accepts (channel value : Z) (s : Sender) :
  fst (set channel value s) = true ↔ 0 <= channel < kMaxDMXPacketSize.
Proof.
  unfold set.
  destruct (Z.ltb_spec channel 0), (Z.leb_spec kMaxDMXPacketSize channel);
    simpl; split; intros; try discriminate; try lia; reflexivity.
Qed.

(** C10: the single-byte [set] succeeds exactly for the channels 0 to 512,
    start code slot 0 and last slot 512 included, and then stores [value] in
    slot [channel] and nothing else; for any other channel it returns false
    and changes nothing.  It never takes the lock: the send handler receives
    no call, whereas [set16Bit] on a begun object brackets its stores with
    the two interrupt-enable calls. *)
Theorem set_single_byte (channel value : Z) (s : Sender) :
  buffer_ok s →
  (fst (set channel value s) = true ↔ 0 <= channel < 513)
  ∧ (0 <= channel < 513 →
       set channel value s
       = (true, with_outputBuf_ (store channel value (outputBuf_ s)) s)
       ∧ outputBuf_ (snd (set channel value s)) !! Z.to_nat channel
         = Some value
       ∧ ∀ j, j ≠ Z.to_nat channel →
              outputBuf_ (snd (set channel value s)) !! j = outputBuf_ s !! j)
  ∧ (channel < 0 ∨ 513 <= channel → set channel value s = (false, s))
  ∧ fst (set 0 value s) = true
  ∧ fst (set 512 value s) = true
  ∧ sendHandler_ (snd (set channel value s)) = sendHandler_ s
  ∧ (began_ s = true → 0 <= channel < 512 →
       sendHandler_ (snd (set16Bit channel value s))
       = sendHandler_ s ++ [HSetIRQsEnabled false; HSetIRQsEnabled true]).
Proof.
  intros Hbuf. unfold buffer_ok in Hbuf.
  split; [apply set_accepts|].
  split.
  { intros Hc. unfold set.
    destruct (Z.ltb_spec channel 0); [lia|].
    destruct (Z.leb_spec kMaxDMXPacketSize channel);
      [unfold kMaxDMXPacketSize in *; lia|].
    simpl. split; [reflexivity|]. split.
    - apply store_lookup_eq. rewrite Hbuf. unfold kMaxDMXPacketSize. lia.
    - intros j Hj. by apply store_lookup_ne. }
  split.
  { intros Hc. unfold set.
    destruct (Z.ltb_spec channel 0); [reflexivity|].
    destruct (Z.leb_spec kMaxDMXPacketSize channel); [reflexivity|].
    unfold kMaxDMXPacketSize in *. lia. }
  split; [reflexivity|]. split; [reflexivity|]. split.
  { unfold set. by destruct (_ || _). }
  intros Hb Hc. unfold set16Bit.
  destruct (Z.ltb_spec channel 0); [lia|].
  destruct (Z.leb_spec (kMaxDMXPacketSize - 1) channel);
    [unfold kMaxDMXPacketSize in *; lia|].
  simpl. unfold locked, enableIRQs, disableIRQs. rewrite Hb. simpl.
  rewrite Hb. simpl. by rewrite <- app_assoc.
Qed.

Lemma set_single_byte_witness :
  buffer_ok (Sender_new teensy32 0)
  ∧ outputBuf_ (snd (set 512 255 (Sender_new teensy32 0))) !! 512%nat
    = Some 255.
Proof.
  split; [reflexivity|].
  apply (set_single_byte 512 255 (Sender_new teensy32 0)); [reflexivity|lia].
Defined.

(** *** Range writes *)

(** The guard of the byte range write, over all [int] arguments: the write
    is accepted exactly when it is empty with a start inside the buffer, or
    lies inside the 513 bytes.  An overflowing [startChannel + len] wraps to
    a negative number and is rejected. *)
Lemma set_values_accepts (startChannel len : Z) (values : list Z)
    (s : Sender) :
  is_int startChannel → is_int len →
  fst (set_values startChannel values len s) = true
  ↔ 0 <= startChannel < kMaxDMXPacketSize ∧ 0 <= len
    ∧ startChannel + len <= kMaxDMXPacketSize.
Proof.
  intros Hs Hl. unfold set_values, kMaxDMXPacketSize.
  destruct (Z.ltb_spec len 0); simpl; [split; [discriminate|lia]|].
  destruct (Z.ltb_spec startChannel 0); simpl; [split; [discriminate|lia]|].
  destruct (Z.leb_spec 513 startChannel); simpl; [split; [discriminate|lia]|].
  destruct (Z.eqb_spec len 0); simpl; [split; [lia|reflexivity]|].
  destruct (Z_le_gt_dec (startChannel + len) int_max) as [Hfit|Hover].
  - rewrite wrap_int_id
      by range_lia.
    destruct (Z.leb_spec (startChannel + len) 0); simpl; [lia|].
    destruct (Z.ltb_spec 513 (startChannel + len)); simpl;
      split; intros; try discriminate; try lia; reflexivity.
  - rewrite wrap_int_above
      by range_lia.
    destruct (Z.leb_spec (startChannel + len - 2 ^ 32) 0); simpl.
    + unfold int_max in *. split; [discriminate|lia].
    + unfold is_int, int_min, int_max in *. lia.
Qed.

Lemma set_values_rejects (startChannel len : Z) (values : list Z)
    (s : Sender) :
  fst (set_values startChannel values len s) = false →
  set_values startChannel values len s = (false, s).
Proof.
  unfold set_values.
  destruct (len <? 0), (startChannel <? 0), (kMaxDMXPacketSize <=? startChannel),
    (len =? 0); simpl; try discriminate; try reflexivity;
    destruct (_ <=? 0), (kMaxDMXPacketSize <? _);
    simpl; intros; try discriminate; reflexivity.
Qed.

(** The guard of the 16-bit range write.  [len * 2] wraps once [len] reaches
    [2 ^ 30]; as long as [startChannel + 2 * len] does not pass [2 ^ 32] the
    wrapped end index is not positive and the write is rejected. *)
Lemma set16Bit_values_accepts (startChannel len : Z) (values : list Z)
    (s : Sender) :
  is_int startChannel → is_int len → startChannel + 2 * len <= 2 ^ 32 →
  fst (set16Bit_values startChannel values len s) = true
  ↔ 0 <= startChannel < kMaxDMXPacketSize ∧ 0 <= len
    ∧ startChannel + 2 * len <= kMaxDMXPacketSize.
Proof.
  intros Hs Hl Hno. unfold set16Bit_values, kMaxDMXPacketSize.
  destruct (Z.ltb_spec len 0); cbn [fst orb]; [split; [discriminate|lia]|].
  destruct (Z.ltb_spec startChannel 0); cbn [fst orb]; [split; [discriminate|lia]|].
  destruct (Z.leb_spec 513 startChannel); cbn [fst orb]; [split; [discriminate|lia]|].
  destruct (Z.eqb_spec len 0); cbn [fst orb]; [split; [lia|reflexivity]|].
  unfold is_int, int_min, int_max in *.
  destruct (Z_le_gt_dec (len * 2) (2 ^ 31 - 1)) as [Hfit|Hover].
  - rewrite (wrap_int_id (len * 2))
      by range_lia.
    destruct (Z_le_gt_dec (startChannel + len * 2) (2 ^ 31 - 1))
      as [Hfit'|Hover'].
    + rewrite wrap_int_id by range_lia.
      destruct (Z.leb_spec (startChannel + len * 2) 0); cbn [fst orb]; [lia|].
      destruct (Z.ltb_spec 513 (startChannel + len * 2)); cbn [fst orb];
        split; intros; try discriminate; try lia; reflexivity.
    + rewrite wrap_int_above by range_lia.
      destruct (Z.leb_spec (startChannel + len * 2 - 2 ^ 32) 0);
        cbn [fst orb]; [split; [discriminate|lia] | lia].
  - rewrite (wrap_int_above (len * 2))
      by range_lia.
    rewrite wrap_int_id by range_lia.
    destruct (Z.leb_spec (startChannel + (len * 2 - 2 ^ 32)) 0);
      cbn [fst orb]; [split; [discriminate|lia] | lia].
Qed.

Lemma set16Bit_values_rejects (startChannel len : Z) (values : list Z)
    (s : Sender) :
  fst (set16Bit_values startChannel values len s) = false →
  set16Bit_values startChannel values len s = (false, s).
Proof.
  unfold set16Bit_values. cbv zeta.
  destruct (len <? 0), (startChannel <? 0), (kMaxDMXPacketSize <=? startChannel),
    (len =? 0); simpl; try discriminate; try reflexivity;
    destruct (_ <=? 0), (kMaxDMXPacketSize <? _);
    simpl; intros; try discriminate; reflexivity.
Qed.

(** Past that point the guard of the 16-bit range write lets a wrapped end
    index through: with [len = INT_MAX] the product [len * 2] wraps to [-2],
    and the write is accepted for every start channel from 3 on. *)
Lemma set16Bit_values_wrapped_guard (values : list Z) (s : Sender) :
  fst (set16Bit_values 3 values int_max s) = true.
Proof.
  unfold set16Bit_values. cbv zeta.
  replace (wrap_int (int_max * 2)) with (-2) by reflexivity.
  reflexivity.
Qed.

(** *** What an accepted byte range write stores *)

Lemma copy_n_length (values : list Z) (n : nat) (dst : Z) (buf : list Z) :
  length (copy_n values n dst buf) = length buf.
Proof.
  revert values dst buf. induction n as [|n IH]; intros values dst buf; simpl.
  - reflexivity.
  - by rewrite IH, store_length.
Qed.

Lemma copy_n_outside (values : list Z) (n : nat) (dst : Z) (buf : list Z)
    (j : nat) :
  0 <= dst → Z.of_nat j < dst ∨ dst + Z.of_nat n <= Z.of_nat j →
  copy_n values n dst buf !! j = buf !! j.
Proof.
  revert values dst buf. induction n as [|n IH]; intros values dst buf Hd Hj;
    simpl; [reflexivity|].
  rewrite IH by lia. apply store_lookup_ne. lia.
Qed.

Lemma copy_n_inside (values : list Z) (n : nat) (dst : Z) (buf : list Z)
    (k : nat) :
  0 <= dst → dst + Z.of_nat n <= Z.of_nat (length buf) → (k < n)%nat →
  copy_n values n dst buf !! (Z.to_nat dst + k)%nat = Some (nth k values 0).
Proof.
  revert values dst buf k.
  induction n as [|n IH]; intros values dst buf k Hd Hfit Hk; [lia|].
  simpl. destruct k as [|k].
  - rewrite copy_n_outside by lia. rewrite Nat.add_0_r.
    rewrite store_lookup_eq by lia. by destruct values.
  - replace (Z.to_nat dst + S k)%nat with (Z.to_nat (dst + 1) + k)%nat by lia.
    rewrite IH; [| lia | rewrite store_length; lia | lia].
    destruct values; [by destruct k | done].
Qed.

Lemma locked_outputBuf (g : list Z → list Z) (s : Sender) :
  outputBuf_ (locked (λ s, with_outputBuf_ (g (outputBuf_ s)) s) s)
  = g (outputBuf_ s).
Proof.
  unfold locked, enableIRQs, disableIRQs.
  destruct (began_ s) eqn:Hb; simpl; rewrite Hb; reflexivity.
Qed.

(** An accepted range write of [len] bytes puts [values[k]] in slot
    [startChannel + k] for every [k < len] and leaves the other slots as
    they were. *)
Lemma set_values_writes (startChannel len : Z) (values : list Z)
    (s : Sender) :
  buffer_ok s → is_int startChannel → is_int len →
  fst (set_values startChannel values len s) = true →
  (∀ k, (k < Z.to_nat len)%nat →
        outputBuf_ (snd (set_values startChannel values len s))
          !! (Z.to_nat startChannel + k)%nat = Some (nth k values 0))
  ∧ (∀ j, Z.of_nat j < startChannel ∨ startChannel + len <= Z.of_nat j →
          outputBuf_ (snd (set_values startChannel values len s)) !! j
          = outputBuf_ s !! j).
Proof.
  intros Hbuf Hs Hl Hacc.
  pose proof (proj1 (set_values_accepts _ _ values s Hs Hl) Hacc)
    as (Hstart & Hlen & Hend).
  unfold buffer_ok in Hbuf. unfold kMaxDMXPacketSize in *.
  assert (Hsnd : outputBuf_ (snd (set_values startChannel values len s))
                 = if len =? 0 then outputBuf_ s
                   else copy_n values (Z.to_nat len) startChannel
                          (outputBuf_ s)).
  { revert Hacc. unfold set_values.
    destruct (_ || _); simpl; [discriminate|].
    destruct (len =? 0); simpl; [reflexivity|].
    destruct (_ || _); simpl; [discriminate|]. intros _.
    apply (locked_outputBuf
             (copy_n values (Z.to_nat len) startChannel)). }
  rewrite Hsnd. destruct (Z.eqb_spec len 0) as [->|Hne].
  { split; [intros k Hk; simpl in Hk; lia | reflexivity]. }
  split.
  - intros k Hk. apply copy_n_inside; lia.
  - intros j Hj. apply copy_n_outside; lia.
Qed.

(** C1 (amended): the range writes [set(startChannel, values, len)] and
    [set16Bit(startChannel, values, len)] return false and leave the whole
    object, output buffer included, unchanged when [startChannel] or [len]
    is negative or the end index passes 513, the size of the buffer:
    [startChannel + len] for bytes, overflow included, and
    [startChannel + 2 * len] for 16-bit values as long as that sum is at
    most [2 ^ 32].  A write that starts inside the buffer and ends at or
    before 513 returns true.  [set(-1, 5)] and the range write of 3 bytes at
    511 fail; the range write of 1 byte at 511 succeeds. *)
Theorem range_writes_bounds (startChannel len : Z) (values : list Z)
    (s : Sender) :
  is_int startChannel → is_int len →
  (startChannel < 0 ∨ len < 0 ∨ 513 < startChannel + len →
     set_values startChannel values len s = (false, s))
  ∧ (startChannel < 0 ∨ len < 0
     ∨ (513 < startChannel + 2 * len ∧ startChannel + 2 * len <= 2 ^ 32) →
     set16Bit_values startChannel values len s = (false, s))
  ∧ (0 <= startChannel < 513 → 0 <= len → startChannel + len <= 513 →
     fst (set_values startChannel values len s) = true)
  ∧ (0 <= startChannel < 513 → 0 <= len → startChannel + 2 * len <= 513 →
     fst (set16Bit_values startChannel values len s) = true)
  ∧ set (-1) 5 s = (false, s)
  ∧ set_values 511 values 3 s = (false, s)
  ∧ fst (set_values 511 values 1 s) = true.
Proof.
  intros Hs Hl.
  pose proof (set_values_accepts startChannel len values s Hs Hl) as Hb.
  unfold kMaxDMXPacketSize in Hb.
  repeat split.
  - intros Hbad. apply set_values_rejects.
    destruct (fst (set_values startChannel values len s)); [|reflexivity].
    destruct Hb as [Hb _]. specialize (Hb eq_refl). lia.
  - intros Hbad. apply set16Bit_values_rejects.
    destruct (Z_lt_ge_dec startChannel 0) as [Hneg|Hpos].
    { unfold set16Bit_values. cbv zeta.
      destruct (Z.ltb_spec startChannel 0); [|lia].
      by rewrite orb_true_r. }
    destruct (Z_lt_ge_dec len 0) as [Hneg|Hpos'].
    { unfold set16Bit_values. cbv zeta.
      by destruct (Z.ltb_spec len 0); [|lia]. }
    assert (Hno : startChannel + 2 * len <= 2 ^ 32) by lia.
    pose proof (set16Bit_values_accepts startChannel len values s Hs Hl Hno)
      as Hw.
    unfold kMaxDMXPacketSize in Hw.
    destruct (fst (set16Bit_values startChannel values len s)); [|reflexivity].
    destruct Hw as [Hw _]. specialize (Hw eq_refl). lia.
  - intros. apply Hb. lia.
  - intros. apply (set16Bit_values_accepts _ _ values s Hs Hl);
      unfold kMaxDMXPacketSize; lia.
Qed.

Lemma range_writes_bounds_witness :
  is_int 400 ∧ is_int 200
  ∧ set_values 400 [1; 2; 3] 200 (Sender_new teensy32 0)
    = (false, Sender_new teensy32 0).
Proof.
  assert (H1 : is_int 400) by range_lia.
  assert (H2 : is_int 200) by range_lia.
  split; [exact H1|]. split; [exact H2|].
  destruct
    (range_writes_bounds 400 200 [1; 2; 3] (Sender_new teensy32 0) H1 H2)
    as [Hreject _].
  apply Hreject. lia.
Defined.

(** C1 as stated fails in two places.  At the limit it names: a one-byte
    range write at channel 512 has end index 513, above 512, and yet returns
    true and stores the byte in slot 512.  And on overflow in the 16-bit
    write: with [len = INT_MAX] the sum [startChannel + 2 * len] overflows,
    and the write at channel 3 returns true. *)
Lemma range_writes_counterexample :
  (512 < 512 + 1
   ∧ fst (set_values 512 [255] 1 (Sender_new teensy32 0)) = true
   ∧ outputBuf_ (Sender_new teensy32 0) !! 512%nat = Some 0
   ∧ outputBuf_ (snd (set_values 512 [255] 1 (Sender_new teensy32 0)))
       !! 512%nat = Some 255)
  ∧ (is_int int_max ∧ int_max < 3 + 2 * int_max
     ∧ fst (set16Bit_values 3 [] int_max (Sender_new teensy32 0)) = true).
Proof.
  split.
  - split; [lia|]. repeat split; vm_compute; reflexivity.
  - split; [unfold is_int, int_min, int_max; lia|].
    split; [unfold int_max; lia|].
    apply set16Bit_values_wrapped_guard.
Qed.

(** ** BREAK and MAB times *)

(** C4 (amended): for every requested [uint32_t] duration [t], the adjusted
    BREAK time after [setBreakTime(t)] is [t] plus the correction constant
    of the chip family reduced modulo [2 ^ 32], hence exactly [t] plus the
    constant whenever that sum fits in 32 bits; the adjusted MAB time after
    [setMABTime(t)] is [t] minus the constant when [t] is at least the
    constant and 0 otherwise, and is never negative.  Both calls store [t]
    itself as the requested time. *)
Theorem timer_adjustments (b : Build) (t : Z) (s : Sender) :
  is_uint32 t →
  adjustedBreakTime_ (setBreakTime b t s)
  = (t + kBreakTimerAdjust (chip b)) mod 2 ^ 32
  ∧ (t + kBreakTimerAdjust (chip b) <= UINT32_MAX →
     adjustedBreakTime_ (setBreakTime b t s) = t + kBreakTimerAdjust (chip b))
  ∧ breakTime_ (setBreakTime b t s) = t
  ∧ (kMABTimerAdjust (chip b) <= t →
     adjustedMABTime_ (setMABTime b t s) = t - kMABTimerAdjust (chip b))
  ∧ (t < kMABTimerAdjust (chip b) →
     adjustedMABTime_ (setMABTime b t s) = 0)
  ∧ 0 <= adjustedMABTime_ (setMABTime b t s)
  ∧ mabTime_ (setMABTime b t s) = t.
Proof.
  intros Ht. unfold is_uint32 in Ht.
  assert (Hk : 0 <= kBreakTimerAdjust (chip b))
    by (destruct (chip b); simpl; lia).
  split; [reflexivity|]. split.
  { intros Hfit. unfold setBreakTime. simpl.
    apply wrap_uint32_id. unfold is_uint32. lia. }
  split; [reflexivity|].
  unfold setMABTime. cbv zeta.
  destruct (Z.ltb_spec t (kMABTimerAdjust (chip b))); simpl;
    repeat split; intros; lia.
Qed.

Lemma timer_adjustments_witness :
  is_uint32 180
  ∧ adjustedBreakTime_ (setBreakTime teensy32 180 (Sender_new teensy32 0)) = 181
  ∧ adjustedMABTime_ (setMABTime teensy32 20 (Sender_new teensy32 0)) = 13
  ∧ adjustedMABTime_ (setMABTime teensy32 3 (Sender_new teensy32 0)) = 0.
Proof.
  assert (H180 : is_uint32 180) by range_lia.
  assert (H20 : is_uint32 20) by range_lia.
  assert (H3 : is_uint32 3) by range_lia.
  split; [exact H180|]. split; [|split].
  - destruct (timer_adjustments teensy32 180 (Sender_new teensy32 0) H180)
      as (_ & Hbreak & _).
    rewrite Hbreak; [reflexivity | unfold UINT32_MAX; simpl; lia].
  - destruct (timer_adjustments teensy32 20 (Sender_new teensy32 0) H20)
      as (_ & _ & _ & Hmab & _).
    rewrite Hmab; [reflexivity | simpl; lia].
  - destruct (timer_adjustments teensy32 3 (Sender_new teensy32 0) H3)
      as (_ & _ & _ & _ & Hzero & _).
    apply Hzero. simpl. lia.
Defined.

(** C4 as stated fails where the 32-bit sum wraps: on a Teensy 3.2 the
    constant is 1, and a requested BREAK time of [UINT32_MAX] gives the
    adjusted time 0, not [UINT32_MAX + 1]. *)
Lemma setBreakTime_wraps_counterexample :
  is_uint32 UINT32_MAX
  ∧ kBreakTimerAdjust (chip teensy32) = 1
  ∧ adjustedBreakTime_
      (setBreakTime teensy32 UINT32_MAX (Sender_new teensy32 0)) = 0
  ∧ adjustedBreakTime_
      (setBreakTime teensy32 UINT32_MAX (Sender_new teensy32 0))
    ≠ UINT32_MAX + kBreakTimerAdjust (chip teensy32).
Proof.
  split; [unfold is_uint32, UINT32_MAX; lia|].
  split; [reflexivity|]. split; [reflexivity|].
  vm_compute. discriminate.
Qed.

Section SerialTimes.

Variable b : Build.

Lemma breakTime_cases_labels (f : Z) :
  In f (map fst (breakTime_cases b)) ↔ In f (supported_formats b).
Proof.
  unfold breakTime_cases, supported_formats.
  destruct (has_parity_2stop b), (SERIAL_9BIT_SUPPORT b); simpl; tauto.
Qed.

Lemma mabTime_cases_labels (f : Z) :
  In f (map fst (mabTime_cases b)) ↔ In f (supported_formats b).
Proof.
  unfold mabTime_cases, supported_formats.
  destruct (has_parity_2stop b), (SERIAL_9BIT_SUPPORT b); simpl; tauto.
Qed.

Lemma breakTime_cases_bits (f t : Z) :
  In (f, t) (breakTime_cases b) → 8 <= t <= 11.
Proof.
  unfold breakTime_cases.
  destruct (has_parity_2stop b), (SERIAL_9BIT_SUPPORT b); simpl;
    intros H; repeat (destruct H as [[= _ <-]|H]; [lia|]); destruct H.
Qed.

Lemma mabTime_cases_bits (f t : Z) :
  In (f, t) (mabTime_cases b) → 1 <= t <= 3.
Proof.
  unfold mabTime_cases.
  destruct (has_parity_2stop b), (SERIAL_9BIT_SUPPORT b); simpl;
    intros H; repeat (destruct H as [[= _ <-]|H]; [lia|]); destruct H.
Qed.

Lemma switch_supported {A : Type} (f : Z) (cases : list (Z * A)) :
  In f (map fst cases) → ∃ a, switch f cases = Some a.
Proof.
  intros Hin. destruct (switch f cases) as [a|] eqn:Hsw; [eauto|].
  apply switch_None in Hsw. contradiction.
Qed.

(** With distinct labels, which C++ demands of a [switch], the value of a
    label is the one written next to it. *)
Lemma switch_NoDup {A : Type} (x : Z) (a : A) (cases : list (Z * A)) :
  NoDup (map fst cases) → In (x, a) cases → switch x cases = Some a.
Proof.
  induction cases as [|[l a'] rest IH]; simpl; [intros _ []|].
  rewrite NoDup_cons. intros [Hl Hrest] [[= -> ->]|Hin].
  - by rewrite Z.eqb_refl.
  - destruct (Z.eqb_spec x l) as [->|_]; [|by apply IH].
    exfalso. apply Hl. apply list_elem_of_In.
    apply (in_map fst) in Hin. exact Hin.
Qed.

Lemma breakTime_cases_NoDup :
  NoDup (supported_formats b) → NoDup (map fst (breakTime_cases b)).
Proof.
  intros Hnd.
  assert (Hperm : map fst (breakTime_cases b) ≡ₚ supported_formats b).
  { unfold breakTime_cases, supported_formats.
    destruct (has_parity_2stop b), (SERIAL_9BIT_SUPPORT b); simpl;
      solve_Permutation. }
  by rewrite Hperm.
Qed.

Lemma mabTime_cases_NoDup :
  NoDup (supported_formats b) → NoDup (map fst (mabTime_cases b)).
Proof.
  intros Hnd.
  assert (Hperm : map fst (mabTime_cases b) ≡ₚ supported_formats b).
  { unfold mabTime_cases, supported_formats.
    destruct (has_parity_2stop b), (SERIAL_9BIT_SUPPORT b); simpl;
      solve_Permutation. }
  by rewrite Hperm.
Qed.

(** The two times for a format whose bit counts are [t] and [m]. *)
Lemma serial_times_of_bits (s : Sender) (t m : Z) :
  NoDup (supported_formats b) → isBreakUseTimerNotSerial s = false →
  8 <= t <= 11 → 1 <= m <= 3 →
  In (strip_inv_bits (breakSerialFormat s), t) (breakTime_cases b) →
  In (strip_inv_bits (breakSerialFormat s), m) (mabTime_cases b) →
  breakTime b s = t * 1000000 / breakSerialBaud s
  ∧ mabTime b s = m * 1000000 / breakSerialBaud s.
Proof.
  intros Hnd Hmode Ht Hm Hint Hinm. unfold breakTime, mabTime.
  rewrite Hmode.
  rewrite (switch_NoDup _ t _ (breakTime_cases_NoDup Hnd) Hint).
  rewrite (switch_NoDup _ m _ (mabTime_cases_NoDup Hnd) Hinm).
  by rewrite !wrap_uint32_id by range_lia.
Qed.

(** C5: in serial-framing mode [breakTime()] and [mabTime()] are computed
    from the break format and baud rate and not from the stored durations.
    For each supported format, [breakTime()] is the bit count of that format
    times 1,000,000 divided by the break baud rate, and [mabTime()] is the
    smaller bit count of that format times 1,000,000 divided by the baud
    rate: 9 and 1 for 7E1 and 8N1, 9 and 2 for 8O1 and 8N2, 10 and 1 for
    8E1, 8 and 2 for 7O1, 10 and 2 for 8E2 and 9 and 3 for 8O2 where these
    are compiled in, and 10 and 1, 10 and 2, 11 and 1 for 9N1, 9O1 and 9E1
    with 9-bit support; for any other stored format they are 180 and 20.
    The labels of the [switch] are distinct, as C++ demands. *)
Theorem serial_mode_times (s : Sender) :
  NoDup (supported_formats b) →
  isBreakUseTimerNotSerial s = false →
  let f := strip_inv_bits (breakSerialFormat s) in
  let times (t m : Z) :=
    breakTime b s = t * 1000000 / breakSerialBaud s
    ∧ mabTime b s = m * 1000000 / breakSerialBaud s in
  (f = SERIAL_7E1 b → times 9 1)
  ∧ (f = SERIAL_8N1 b → times 9 1)
  ∧ (f = SERIAL_8O1 b → times 9 2)
  ∧ (f = SERIAL_8N2 b → times 9 2)
  ∧ (f = SERIAL_8E1 b → times 10 1)
  ∧ (f = SERIAL_7O1 b → times 8 2)
  ∧ (has_parity_2stop b = true →
     (f = SERIAL_8E2 b → times 10 2) ∧ (f = SERIAL_8O2 b → times 9 3))
  ∧ (SERIAL_9BIT_SUPPORT b = true →
     (f = SERIAL_9N1 b → times 10 1) ∧ (f = SERIAL_9O1 b → times 10 2)
     ∧ (f = SERIAL_9E1 b → times 11 1))
  ∧ (In f (supported_formats b) →
     ∃ t m, 8 <= t <= 11 ∧ 1 <= m <= 3 ∧ m < t ∧ times t m)
  ∧ (¬ In f (supported_formats b) →
     breakTime b s = 180 ∧ mabTime b s = 20)
  ∧ (∀ bt mt,
       breakTime b (with_breakTime_ bt (with_mabTime_ mt s)) = breakTime b s
       ∧ mabTime b (with_breakTime_ bt (with_mabTime_ mt s)) = mabTime b s).
Proof.
  intros Hnd Hmode f times.
  assert (Hrow : ∀ t m, 8 <= t <= 11 → 1 <= m <= 3 →
                        In (f, t) (breakTime_cases b) →
                        In (f, m) (mabTime_cases b) → times t m)
    by (intros t m; by apply serial_times_of_bits).
  assert (Hcore : ∀ l t m, 8 <= t <= 11 → 1 <= m <= 3 →
                           In (l, t) (breakTime_cases b) →
                           In (l, m) (mabTime_cases b) →
                           f = l → times t m)
    by (intros l t m ? ? ? ? ->; by apply Hrow).
  repeat match goal with |- _ ∧ _ => split end.
  1-6: apply Hcore; [lia | lia | |];
    unfold breakTime_cases, mabTime_cases;
    destruct (has_parity_2stop b), (SERIAL_9BIT_SUPPORT b); simpl;
    repeat (first [left; reflexivity | right]).
  - intros H2. split; (apply Hcore; [lia | lia | |]);
      unfold breakTime_cases, mabTime_cases; rewrite H2;
      destruct (SERIAL_9BIT_SUPPORT b); simpl;
      repeat (first [left; reflexivity | right]).
  - intros H9. split; [|split]; (apply Hcore; [lia | lia | |]);
      unfold breakTime_cases, mabTime_cases; rewrite H9;
      destruct (has_parity_2stop b); simpl;
      repeat (first [left; reflexivity | right]).
  - intros Hin.
    destruct (switch_supported _ (breakTime_cases b)
                (proj2 (breakTime_cases_labels _) Hin)) as [t Ht].
    destruct (switch_supported _ (mabTime_cases b)
                (proj2 (mabTime_cases_labels _) Hin)) as [m Hm].
    pose proof (breakTime_cases_bits _ _ (switch_Some _ _ _ Ht)) as Htb.
    pose proof (mabTime_cases_bits _ _ (switch_Some _ _ _ Hm)) as Hmb.
    exists t, m. split; [lia|]. split; [lia|]. split; [lia|].
    apply Hrow; try lia; by apply switch_Some.
  - intros Hout. unfold breakTime, mabTime. rewrite Hmode.
    assert (switch (strip_inv_bits (breakSerialFormat s)) (breakTime_cases b)
            = None) as ->
      by (apply switch_None; by rewrite breakTime_cases_labels).
    assert (switch (strip_inv_bits (breakSerialFormat s)) (mabTime_cases b)
            = None) as ->
      by (apply switch_None; by rewrite mabTime_cases_labels).
    split; reflexivity.
  - intros bt mt. unfold breakTime, mabTime.
    change (isBreakUseTimerNotSerial (with_breakTime_ bt (with_mabTime_ mt s)))
      with (isBreakUseTimerNotSerial s).
    rewrite Hmode. split; reflexivity.
Qed.

End SerialTimes.

Lemma supported_formats_teensy32_NoDup : NoDup (supported_formats teensy32).
Proof. apply (bool_decide_unpack _). vm_compute. exact I. Qed.

Lemma serial_mode_times_witness :
  NoDup (supported_formats teensy32)
  ∧ isBreakUseTimerNotSerial
      (snd (setBreakSerialParams teensy32 100000 (SERIAL_8E1 teensy32)
              (Sender_new teensy32 0))) = false
  ∧ breakTime_
      (snd (setBreakSerialParams teensy32 100000 (SERIAL_8E1 teensy32)
              (Sender_new teensy32 0))) = 180
  ∧ breakTime teensy32
      (snd (setBreakSerialParams teensy32 100000 (SERIAL_8E1 teensy32)
              (Sender_new teensy32 0))) = 100
  ∧ mabTime teensy32
      (snd (setBreakSerialParams teensy32 100000 (SERIAL_8E1 teensy32)
              (Sender_new teensy32 0))) = 10.
Proof.
  split; [exact supported_formats_teensy32_NoDup|].
  split; [reflexivity|]. split; [reflexivity|].
  destruct (serial_mode_times teensy32
              (snd (setBreakSerialParams teensy32 100000 (SERIAL_8E1 teensy32)
                      (Sender_new teensy32 0)))
              supported_formats_teensy32_NoDup eq_refl)
    as (_ & _ & _ & _ & H8E1 & _).
  destruct (H8E1 eq_refl) as [Hbreak Hmab].
  split; [rewrite Hbreak | rewrite Hmab]; reflexivity.
Defined.

(** The times of each format on the Teensy 3.2 build, at the default 50000
    baud: 9 and 1 bits for 8N1 (180 and 20 microseconds), 10 and 1 for 8E1,
    8 and 2 for 7O1, 9 and 2 for 8N2, and the defaults for 8E2, which is not
    a label of the [switch] on that chip. *)
Example serial_times_teensy32 :
  map (fun f =>
         let s := with_breakFormat_ f (Sender_new teensy32 0) in
         (breakTime teensy32 s, mabTime teensy32 s))
      [SERIAL_8N1 teensy32; SERIAL_8E1 teensy32; SERIAL_7O1 teensy32;
       SERIAL_8N2 teensy32; SERIAL_8E2 teensy32]
  = [(180, 20); (200, 20); (160, 40); (180, 40); (180, 20)].
Proof. reflexivity. Qed.

(** ** Break serial parameters *)

Section BreakSerialParams.

Variable b : Build.

(** What the checks of [setBreakSerialParams] come to: the call is rejected
    for a zero baud rate, for a [format] with the TX-invert bit, and when the
    format stored in the object is not a label of the [switch]. *)
Lemma setBreakSerialParams_rejects (baud format : Z) (s : Sender) :
  baud = 0 ∨ Z.land format kSerialFormatTXINVBit ≠ 0
  ∨ ¬ In (strip_inv_bits (breakSerialFormat s)) (supported_formats b) →
  setBreakSerialParams b baud format s = (false, s).
Proof.
  intros Hbad. unfold setBreakSerialParams.
  destruct (Z.eqb_spec baud 0) as [|Hbaud]; [reflexivity|].
  destruct (Z.eqb_spec (Z.land format kSerialFormatTXINVBit) 0) as [Hinv|];
    [|reflexivity].
  cbn [negb]. destruct Hbad as [?|[?|Hfmt]]; [contradiction..|].
  assert (switch (strip_inv_bits (breakSerialFormat s))
            (map (λ l, (l, ())) (supported_formats b)) = None) as ->;
    [|reflexivity].
  apply switch_None. rewrite map_map. simpl. by rewrite map_id.
Qed.

Lemma setBreakSerialParams_stores (baud format : Z) (s : Sender) :
  baud ≠ 0 → Z.land format kSerialFormatTXINVBit = 0 →
  In (strip_inv_bits (breakSerialFormat s)) (supported_formats b) →
  setBreakSerialParams b baud format s
  = (true,
     handler_call HBreakSerialParamsChanged
       (with_breakFormat_ format (with_breakBaud_ baud s))).
Proof.
  intros Hbaud Hinv Hfmt. unfold setBreakSerialParams.
  destruct (Z.eqb_spec baud 0); [contradiction|].
  rewrite Hinv. change (0 =? 0) with true. cbn [negb].
  destruct (switch_supported (strip_inv_bits (breakSerialFormat s))
              (map (λ l, (l, ())) (supported_formats b))) as [[] ->];
    [|reflexivity].
  rewrite map_map. simpl. by rewrite map_id.
Qed.

End BreakSerialParams.

(** C2 at a failing input: on a freshly constructed [Sender] (stored format
    8N1) the call [setBreakSerialParams(50000, 0x01)] names a format that is
    no label of the [switch], yet it returns true, stores 0x01 and notifies
    the send handler; with 0x01 stored, the valid call
    [setBreakSerialParams(50000, SERIAL_8N1)] is then rejected. *)
Example setBreakSerialParams_checks_stored_format :
  ¬ In (strip_inv_bits 0x01) (supported_formats teensy32)
  ∧ Z.land 0x01 kSerialFormatTXINVBit = 0
  ∧ fst (setBreakSerialParams teensy32 50000 0x01 (Sender_new teensy32 0))
    = true
  ∧ breakFormat_
      (snd (setBreakSerialParams teensy32 50000 0x01 (Sender_new teensy32 0)))
    = 0x01
  ∧ sendHandler_
      (snd (setBreakSerialParams teensy32 50000 0x01 (Sender_new teensy32 0)))
    = [HBreakSerialParamsChanged]
  ∧ In (strip_inv_bits (SERIAL_8N1 teensy32)) (supported_formats teensy32)
  ∧ fst (setBreakSerialParams teensy32 50000 (SERIAL_8N1 teensy32)
           (snd (setBreakSerialParams teensy32 50000 0x01
                   (Sender_new teensy32 0))))
    = false.
Proof.
  split.
  { simpl. intros H. repeat (destruct H as [H|H]; [discriminate H|]).
    destruct H. }
  repeat split; try reflexivity. simpl. auto.
Qed.

(** ** Objects in the world *)

Lemma modify_lookup (this : ptr) (f : Sender → Sender) (w : World) (s : Sender) :
  objs w !! this = Some s → objs (modify this f w) !! this = Some (f s).
Proof. intros H. unfold modify. simpl. by rewrite lookup_alter_eq, H. Qed.

Lemma modify_lookup_ne (this p : ptr) (f : Sender → Sender) (w : World) :
  p ≠ this → objs (modify this f w) !! p = objs w !! p.
Proof. intros H. unfold modify. simpl. by rewrite lookup_alter_ne. Qed.

(** ** Packet completion and [isTransmitting] *)

(** C7: [completePacket] increments the packet counter, resets the buffer
    index to 0, clears the transmitting flag and makes the state idle,
    touching nothing else; then, if the object is paused and a completion
    function is set, it calls that function on the object, and in every
    other case, in particular whenever the object is not paused, it calls
    nothing. *)
Theorem completePacket_effects (call : FnPtr → ptr → World → option World)
    (this : ptr) (w : World) (s : Sender) :
  objs w !! this = Some s →
  ∃ w' s',
    objs w' !! this = Some s'
    ∧ (∀ p, p ≠ this → objs w' !! p = objs w !! p)
    ∧ txInstances w' = txInstances w
    ∧ packetCount_ s' = packetCount_ s + 1
    ∧ outputBufIndex_ s' = 0
    ∧ transmitting_ s' = false
    ∧ state_ s' = kIdle
    ∧ (paused_ s', doneTXFunc_ s', began_ s', outputBuf_ s', resumeCounter_ s',
       sendHandler_ s', intervalTimer_ s', refreshRate_ s')
      = (paused_ s, doneTXFunc_ s, began_ s, outputBuf_ s, resumeCounter_ s,
         sendHandler_ s, intervalTimer_ s, refreshRate_ s)
    ∧ completePacket call this w
      = match paused_ s, doneTXFunc_ s with
        | true, Some f => call f this w'
        | _, _ => Some w'
        end.
Proof.
  intros Hs.
  exists
    (modify this
       (λ s, with_state_ kIdle
               (with_transmitting_ false
                  (with_outputBufIndex_ 0 (incPacketCount s)))) w),
    (with_state_ kIdle
       (with_transmitting_ false (with_outputBufIndex_ 0 (incPacketCount s)))).
  split; [exact (modify_lookup this _ w s Hs)|].
  split; [intros p Hp; by apply modify_lookup_ne|].
  split; [reflexivity|].
  repeat (split; [reflexivity|]).
  unfold completePacket. rewrite Hs. simpl.
  destruct (paused_ s), (doneTXFunc_ s); reflexivity.
Qed.

Lemma completePacket_effects_witness :
  objs (modify 0%nat (with_paused_ true)
          (construct teensy32 0%nat 0 (World_new teensy32))) !! 0%nat
  = Some (with_paused_ true (Sender_new teensy32 0))
  ∧ ∃ w',
      completePacket call_nothing 0%nat
        (modify 0%nat (with_paused_ true)
           (construct teensy32 0%nat 0 (World_new teensy32)))
      = Some w'
      ∧ (packetCount_ <$> objs w' !! 0%nat) = Some 1.
Proof.
  split; [reflexivity|].
  destruct
    (completePacket_effects call_nothing 0%nat
       (modify 0%nat (with_paused_ true)
          (construct teensy32 0%nat 0 (World_new teensy32)))
       (with_paused_ true (Sender_new teensy32 0)) eq_refl)
    as (w' & s' & Hs' & _ & _ & Hcount & _ & _ & _ & _ & Hrun).
  exists w'. split; [exact Hrun|].
  rewrite Hs'. simpl. by rewrite Hcount.
Defined.

Lemma isTransmitting_value (s : Sender) :
  fst (isTransmitting s) = negb (paused_ s) || transmitting_ s.
Proof.
  unfold isTransmitting, disableIRQs. simpl.
  by destruct (began_ s).
Qed.

(** C3 (amended): [isTransmitting()] is "not paused, or the transmitting
    flag is set".  While the object is paused it is true exactly when the
    transmitting flag is set.  After [setRefreshRate(0)] and the completion
    of the packet in flight on an object that is not paused, the
    transmitting flag is clear and [isTransmitting()] is true; it is false
    only for a paused object whose transmitting flag is clear. *)
Theorem isTransmitting_meaning (this : ptr) (w : World) (s : Sender) :
  objs w !! this = Some s →
  fst (isTransmitting s) = negb (paused_ s) || transmitting_ s
  ∧ (paused_ s = true → fst (isTransmitting s) = transmitting_ s)
  ∧ (fst (isTransmitting s) = false
     ↔ paused_ s = true ∧ transmitting_ s = false)
  ∧ (paused_ s = false →
     ∀ call, ∃ w1 w2 s2,
       setRefreshRate float_zero this w = Some (true, w1)
       ∧ completePacket call this w1 = Some w2
       ∧ objs w2 !! this = Some s2
       ∧ refreshRate_ s2 = float_zero
       ∧ paused_ s2 = false
       ∧ transmitting_ s2 = false
       ∧ fst (isTransmitting s2) = true).
Proof.
  intros Hs. rewrite isTransmitting_value.
  split; [reflexivity|]. split; [by intros ->|]. split.
  { destruct (paused_ s), (transmitting_ s); simpl; intuition congruence. }
  intros Hp call.
  eexists (modify this _ w), (modify this _ (modify this _ w)), _.
  split.
  { unfold setRefreshRate. rewrite Hs. reflexivity. }
  split.
  { unfold completePacket.
    erewrite modify_lookup by exact Hs. simpl. rewrite Hp. reflexivity. }
  split.
  { apply modify_lookup. by apply modify_lookup. }
  split; [reflexivity|]. split; [exact Hp|]. split; [reflexivity|].
  rewrite isTransmitting_value. simpl. by rewrite Hp.
Qed.

Lemma isTransmitting_meaning_witness :
  objs (modify 0%nat (with_paused_ true)
          (construct teensy32 0%nat 0 (World_new teensy32))) !! 0%nat
  = Some (with_paused_ true (Sender_new teensy32 0))
  ∧ fst (isTransmitting (with_paused_ true (Sender_new teensy32 0))) = false
  ∧ objs (construct teensy32 0%nat 0 (World_new teensy32)) !! 0%nat
    = Some (Sender_new teensy32 0)
  ∧ ∃ w1 w2 s2,
      setRefreshRate float_zero 0%nat
        (construct teensy32 0%nat 0 (World_new teensy32)) = Some (true, w1)
      ∧ completePacket call_nothing 0%nat w1 = Some w2
      ∧ objs w2 !! 0%nat = Some s2
      ∧ fst (isTransmitting s2) = true.
Proof.
  split; [reflexivity|]. split.
  { destruct
      (isTransmitting_meaning 0%nat
         (modify 0%nat (with_paused_ true)
            (construct teensy32 0%nat 0 (World_new teensy32)))
         (with_paused_ true (Sender_new teensy32 0)) eq_refl)
      as (_ & Hpaused & _).
    rewrite Hpaused; reflexivity. }
  split; [reflexivity|].
  destruct
    (isTransmitting_meaning 0%nat
       (construct teensy32 0%nat 0 (World_new teensy32))
       (Sender_new teensy32 0) eq_refl)
    as (_ & _ & _ & Hrunning).
  destruct (Hrunning eq_refl call_nothing)
    as (w1 & w2 & s2 & Hrate & Hdone & Hs2 & _ & _ & _ & Htx).
  exists w1, w2, s2. repeat split; assumption.
Defined.

(** C3 as stated fails on an object that was begun and never paused: after
    [setRefreshRate(0)] has succeeded and [completePacket] has cleared the
    transmitting flag, [isTransmitting()] still answers true. *)
Lemma isTransmitting_after_rate_zero_counterexample :
  (w ← begin 0%nat (construct teensy32 0%nat 0 (World_new teensy32));
   r ← setRefreshRate float_zero 0%nat w;
   w ← completePacket call_nothing 0%nat (snd r);
   s ← objs w !! 0%nat;
   Some (fst r, float_eqb (refreshRate_ s) float_zero, paused_ s,
         transmitting_ s, fst (isTransmitting s)))
  = Some (true, true, false, false, true).
Proof. vm_compute. reflexivity. Qed.

(** ** The instance table *)

Lemma set_txInstance_objs (i : nat) (v : option ptr) (w : World) :
  objs (set_txInstance i v w) = objs w.
Proof. reflexivity. Qed.

Lemma modify_modify (this : ptr) (f g : Sender → Sender) (w : World) :
  modify this g (modify this f w) = modify this (g ∘ f) w.
Proof.
  unfold modify. simpl. f_equal.
  apply map_eq. intros p. destruct (decide (p = this)) as [->|Hne].
  - rewrite !lookup_alter_eq. by destruct (objs w !! this).
  - by rewrite !lookup_alter_ne.
Qed.

(** [end()] on an object that has not begun, or has been ended, returns at
    once. *)
Lemma end_not_begun (this : ptr) (w : World) (s : Sender) :
  objs w !! this = Some s → began_ s = false → end_ this w = Some w.
Proof. intros Hs Hb. unfold end_. rewrite Hs. simpl. by rewrite Hb. Qed.

Lemma end_unknown_port (this : ptr) (w : World) (s : Sender) :
  objs w !! this = Some s → began_ s = true → serialIndex_ s < 0 →
  end_ this w = Some (modify this (with_began_ false) w).
Proof.
  intros Hs Hb Hi. unfold end_. rewrite Hs. simpl. rewrite Hb. simpl.
  by destruct (Z.ltb_spec (serialIndex_ s) 0); [|lia].
Qed.

(** [end()] on a begun object of a known port: the object is marked ended,
    its send handler and timer are stopped, and the slot of its port is
    cleared exactly when it still points to this object. *)
Lemma end_begun (this : ptr) (w : World) (s : Sender) (cur : option ptr) :
  objs w !! this = Some s → began_ s = true → 0 <= serialIndex_ s →
  txInstances w !! Z.to_nat (serialIndex_ s) = Some cur →
  end_ this w
  = Some (if decide (cur = Some this)
          then set_txInstance (Z.to_nat (serialIndex_ s)) None
                 (modify this ended w)
          else modify this ended w).
Proof.
  intros Hs Hb Hi Hcur. unfold end_. rewrite Hs. simpl. rewrite Hb. simpl.
  destruct (Z.ltb_spec (serialIndex_ s) 0); [lia|].
  rewrite modify_modify. rewrite Hcur. simpl.
  destruct (decide (cur = Some this)); reflexivity.
Qed.

Lemma registry_ok_slot (w : World) (p : ptr) (s : Sender) :
  registry_ok w → objs w !! p = Some s → 0 <= serialIndex_ s →
  ∃ cur, txInstances w !! Z.to_nat (serialIndex_ s) = Some cur.
Proof.
  intros (Hidx & _ & _) Hs Hi.
  apply lookup_lt_is_Some. specialize (Hidx p s Hs). lia.
Qed.

(** The table never holds two begun objects of one port. *)
Lemma registry_ok_unique (w : World) (p q : ptr) (sp sq : Sender) :
  registry_ok w →
  objs w !! p = Some sp → objs w !! q = Some sq →
  began_ sp = true → began_ sq = true →
  0 <= serialIndex_ sp → serialIndex_ sp = serialIndex_ sq → p = q.
Proof.
  intros (_ & _ & Hslot) Hp Hq Hbp Hbq Hi Heq.
  pose proof (Hslot p sp Hp Hbp Hi) as H1.
  pose proof (Hslot q sq Hq Hbq ltac:(lia)) as H2.
  rewrite <- Heq in H2. congruence.
Qed.

Lemma end_preserves (this : ptr) (w : World) (s : Sender) :
  registry_ok w → objs w !! this = Some s →
  ∃ w', end_ this w = Some w' ∧ registry_ok w'.
Proof.
  intros Hok Hs. destruct (began_ s) eqn:Hb.
  2: { exists w. split; [by eapply end_not_begun|done]. }
  destruct (Z_lt_ge_dec (serialIndex_ s) 0) as [Hneg|Hpos].
  { exists (modify this (with_began_ false) w).
    split; [by apply (end_unknown_port this w s)|].
    destruct Hok as (Hidx & Hocc & Hslot). split; [|split].
    - intros p sp. destruct (decide (p = this)) as [->|Hne].
      + erewrite modify_lookup by done. intros [= <-]. simpl.
        apply (Hidx this s Hs).
      + rewrite modify_lookup_ne by done. apply Hidx.
    - intros i p Hi. destruct (Hocc i p Hi) as (sp & Hsp & Hbp & Hip).
      assert (p ≠ this) by (intros ->; simplify_eq; lia).
      exists sp. by rewrite modify_lookup_ne.
    - intros p sp. destruct (decide (p = this)) as [->|Hne].
      + erewrite modify_lookup by done. intros [= <-]. discriminate.
      + rewrite modify_lookup_ne by done. apply Hslot. }
  pose proof Hok as (Hidx & Hocc & Hslot).
  pose proof (Hslot this s Hs Hb ltac:(lia)) as Hcur.
  exists (set_txInstance (Z.to_nat (serialIndex_ s)) None (modify this ended w)).
  split.
  { rewrite (end_begun this w s (Some this)) by (done || lia).
    by rewrite decide_True. }
  split; [|split].
  - intros p sp. simpl. rewrite length_insert.
    destruct (decide (p = this)) as [->|Hne].
    + rewrite lookup_alter_eq, Hs. intros [= <-]. simpl. apply (Hidx this s Hs).
    + rewrite lookup_alter_ne by done. apply Hidx.
  - intros i p. simpl.
    destruct (decide (i = Z.to_nat (serialIndex_ s))) as [->|Hne].
    + rewrite list_lookup_insert_eq; [discriminate|].
      apply lookup_lt_is_Some. eauto.
    + rewrite list_lookup_insert_ne by done. intros Hi.
      destruct (Hocc i p Hi) as (sp & Hsp & Hbp & Hip).
      assert (p ≠ this) by (intros ->; simplify_eq; lia).
      exists sp. by rewrite lookup_alter_ne.
  - intros p sp. simpl.
    destruct (decide (p = this)) as [->|Hne].
    + rewrite lookup_alter_eq, Hs. intros [= <-]. discriminate.
    + rewrite lookup_alter_ne by done. intros Hsp Hbp Hip.
      pose proof (Hslot p sp Hsp Hbp Hip) as Hp.
      rewrite list_lookup_insert_ne; [done|].
      intros Heq. rewrite Heq in Hcur. congruence.
Qed.

(** [begin()] on an object that has already begun returns at once. *)
Lemma begin_already_begun (this : ptr) (w : World) (s : Sender) :
  objs w !! this = Some s → began_ s = true → begin this w = Some w.
Proof. intros Hs Hb. unfold begin. rewrite Hs. simpl. by rewrite Hb. Qed.

Lemma begin_unknown_port (this : ptr) (w : World) (s : Sender) :
  objs w !! this = Some s → began_ s = false → serialIndex_ s < 0 →
  begin this w = Some (modify this (with_began_ true) w).
Proof.
  intros Hs Hb Hi. unfold begin. rewrite Hs. simpl. rewrite Hb.
  by destruct (Z.ltb_spec (serialIndex_ s) 0); [|lia].
Qed.

(** [begin()] on an object of a known port that has not begun: the object
    takes the slot of its port, a different object found there is ended (and
    that [end()] leaves the slot alone, since the slot already points to the
    new object), and every other object is untouched. *)
Lemma begin_known_port (this : ptr) (w : World) (s : Sender) :
  registry_ok w → objs w !! this = Some s →
  began_ s = false → 0 <= serialIndex_ s →
  ∃ w',
    begin this w = Some w'
    ∧ txInstances w'
      = <[Z.to_nat (serialIndex_ s) := Some this]> (txInstances w)
    ∧ objs w' !! this = Some (started s)
    ∧ (∀ p, p ≠ this →
            txInstances w !! Z.to_nat (serialIndex_ s) ≠ Some (Some p) →
            objs w' !! p = objs w !! p)
    ∧ (∀ p sp, p ≠ this →
               txInstances w !! Z.to_nat (serialIndex_ s) = Some (Some p) →
               objs w !! p = Some sp → objs w' !! p = Some (ended sp)).
Proof.
  intros Hok Hs Hb Hi.
  destruct (registry_ok_slot w this s Hok Hs Hi) as [prev Hprev].
  pose proof Hok as (Hidx & Hocc & Hslot).
  assert (Hlen : (Z.to_nat (serialIndex_ s) < length (txInstances w))%nat)
    by (apply lookup_lt_is_Some; eauto).
  unfold begin. rewrite Hs. simpl. rewrite Hb.
  destruct (Z.ltb_spec (serialIndex_ s) 0); [lia|].
  rewrite Hprev. simpl.
  set (i := Z.to_nat (serialIndex_ s)) in *.
  set (w3 := set_txInstance i (Some this)
               (modify this resetPacketCount
                  (modify this (with_began_ true) w))).
  assert (Hthis3 : objs w3 !! this
                   = Some (resetPacketCount (with_began_ true s))).
  { unfold w3. rewrite set_txInstance_objs.
    erewrite modify_lookup; [done|]. by apply modify_lookup. }
  assert (Hother3 : ∀ p, p ≠ this → objs w3 !! p = objs w !! p).
  { intros p Hp. unfold w3. rewrite set_txInstance_objs.
    by rewrite !modify_lookup_ne. }
  assert (Hevict : ∀ p, prev = Some p → p ≠ this →
                        ∃ sp, objs w !! p = Some sp
                              ∧ end_ p w3 = Some (modify p ended w3)).
  { intros p -> Hp.
    destruct (Hocc i p Hprev) as (sp & Hsp & Hbp & Hip).
    exists sp. split; [done|].
    rewrite (end_begun p w3 sp (Some this)).
    - rewrite decide_False; [done|]. congruence.
    - by rewrite Hother3.
    - done.
    - lia.
    - rewrite Hip, Nat2Z.id. unfold w3. simpl.
      by apply list_lookup_insert_eq. }
  destruct prev as [p|].
  - destruct (decide (p = this)) as [->|Hp].
    + destruct (Hocc i this Hprev) as (s' & Hs' & Hb' & _).
      congruence.
    + destruct (Hevict p eq_refl Hp) as (sp & Hsp & ->). simpl.
      eexists. split; [reflexivity|]. split; [reflexivity|]. split.
      { erewrite modify_lookup; [reflexivity|].
        by rewrite modify_lookup_ne. }
      split.
      * intros q Hq Hnq. rewrite modify_lookup_ne by done.
        assert (q ≠ p) by congruence.
        rewrite modify_lookup_ne by done. by apply Hother3.
      * intros q sq Hq [= ->] Hsq. rewrite modify_lookup_ne by done.
        erewrite modify_lookup; [reflexivity|]. by rewrite Hother3.
  - simpl. eexists. split; [reflexivity|]. split; [reflexivity|]. split.
    { erewrite modify_lookup; [reflexivity|]. done. }
    split.
    + intros q Hq _. rewrite modify_lookup_ne by done. by apply Hother3.
    + intros q sq _ [=].
Qed.

Lemma begin_preserves (this : ptr) (w : World) (s : Sender) :
  registry_ok w → objs w !! this = Some s →
  ∃ w', begin this w = Some w' ∧ registry_ok w'.
Proof.
  intros Hok Hs. destruct (began_ s) eqn:Hb.
  { exists w. split; [by eapply begin_already_begun|done]. }
  pose proof Hok as (Hidx & Hocc & Hslot).
  destruct (Z_lt_ge_dec (serialIndex_ s) 0) as [Hneg|Hpos].
  { exists (modify this (with_began_ true) w).
    split; [by apply (begin_unknown_port this w s)|].
    split; [|split].
    - intros p sp. destruct (decide (p = this)) as [->|Hne].
      + erewrite modify_lookup by done. intros [= <-]. simpl.
        apply (Hidx this s Hs).
      + rewrite modify_lookup_ne by done. apply Hidx.
    - intros i p Hi. destruct (Hocc i p Hi) as (sp & Hsp & Hbp & Hip).
      assert (p ≠ this) by congruence.
      exists sp. by rewrite modify_lookup_ne.
    - intros p sp. destruct (decide (p = this)) as [->|Hne].
      + erewrite modify_lookup by done. intros [= <-]. simpl. lia.
      + rewrite modify_lookup_ne by done. apply Hslot. }
  destruct (begin_known_port this w s Hok Hs Hb ltac:(lia))
    as (w' & Hrun & Htx & Hthis & Hother & Hevicted).
  exists w'. split; [done|].
  assert (Hlen : (Z.to_nat (serialIndex_ s) < length (txInstances w))%nat).
  { specialize (Hidx this s Hs). lia. }
  assert (Hobj : ∀ p sp', objs w' !! p = Some sp' →
                 ∃ sp, objs w !! p = Some sp
                       ∧ serialIndex_ sp' = serialIndex_ sp
                       ∧ (p ≠ this → began_ sp' = true →
                          began_ sp = true
                          ∧ txInstances w !! Z.to_nat (serialIndex_ s)
                            ≠ Some (Some p))).
  { intros p sp' Hsp'. destruct (decide (p = this)) as [->|Hp].
    { exists s. rewrite Hthis in Hsp'. simplify_eq. by repeat split. }
    destruct (decide (txInstances w !! Z.to_nat (serialIndex_ s)
                      = Some (Some p))) as [Hin|Hout].
    - destruct (Hocc _ _ Hin) as (sp & Hsp & _).
      rewrite (Hevicted p sp Hp Hin Hsp) in Hsp'. simplify_eq.
      exists sp. split; [done|]. split; [done|]. intros _ [=].
    - rewrite (Hother p Hp Hout) in Hsp'. exists sp'. by repeat split. }
  split; [|split].
  - intros p sp' Hsp'. rewrite Htx, length_insert.
    destruct (Hobj p sp' Hsp') as (sp & Hsp & -> & _). by apply (Hidx p sp).
  - intros i p. rewrite Htx.
    destruct (decide (i = Z.to_nat (serialIndex_ s))) as [->|Hne].
    + rewrite list_lookup_insert_eq by done. intros [= <-].
      exists (started s). split; [done|]. split; [done|]. simpl. lia.
    + rewrite list_lookup_insert_ne by done. intros Hi.
      destruct (Hocc i p Hi) as (sp & Hsp & Hbp & Hip).
      assert (p ≠ this) by congruence.
      exists sp. rewrite Hother; [done..|].
      intros Hin. destruct (Hocc _ _ Hin) as (sp2 & Hsp2 & _ & Hip2).
      simplify_eq. lia.
  - intros p sp' Hsp' Hbp' Hip'. rewrite Htx.
    destruct (decide (p = this)) as [->|Hp].
    { rewrite Hthis in Hsp'. simplify_eq. simpl.
      by apply list_lookup_insert_eq. }
    destruct (Hobj p sp' Hsp') as (sp & Hsp & Heq & Hrest).
    destruct (Hrest Hp Hbp') as [Hbp Hout].
    rewrite Heq in *.
    pose proof (Hslot p sp Hsp Hbp Hip') as Hin.
    rewrite list_lookup_insert_ne; [done|].
    intros Hi. rewrite Hi in Hout. contradiction.
Qed.

Lemma registry_ok_new (b : Build) : registry_ok (World_new b).
Proof.
  split; [|split].
  - intros p s. simpl. by rewrite lookup_empty.
  - intros i p. unfold World_new. simpl. intros H.
    apply lookup_replicate in H. destruct H as [[=] _].
  - intros p s. simpl. by rewrite lookup_empty.
Qed.

Lemma Sender_new_fields (b : Build) (serialIndex : Z) :
  serialIndex_ (Sender_new b serialIndex) = serialIndex
  ∧ began_ (Sender_new b serialIndex) = false.
Proof.
  unfold Sender_new, setMABTime. cbv zeta.
  by destruct (kDefaultMABTime <? kMABTimerAdjust (chip b)).
Qed.

Lemma construct_preserves (b : Build) (this : ptr) (serialIndex : Z)
    (w : World) :
  registry_ok w → objs w !! this = None →
  serialIndex < Z.of_nat (length (txInstances w)) →
  registry_ok (construct b this serialIndex w).
Proof.
  intros (Hidx & Hocc & Hslot) Hfree Hi. split; [|split].
  - intros p s. simpl. destruct (decide (p = this)) as [->|Hne].
    + rewrite lookup_insert_eq. intros [= <-].
      by rewrite (proj1 (Sender_new_fields b serialIndex)).
    + rewrite lookup_insert_ne by done. apply Hidx.
  - intros i p Hp. destruct (Hocc i p Hp) as (s & Hs & Hrest).
    exists s. split; [|done]. simpl.
    rewrite lookup_insert_ne; [done|]. congruence.
  - intros p s. simpl. destruct (decide (p = this)) as [->|Hne].
    + rewrite lookup_insert_eq. intros [= <-].
      by rewrite (proj2 (Sender_new_fields b serialIndex)).
    + rewrite lookup_insert_ne by done. apply Hslot.
Qed.

(** Destroying an object ends it first, so no slot is left pointing to the
    freed object. *)
Lemma destruct_preserves (this : ptr) (w : World) (s : Sender) :
  registry_ok w → objs w !! this = Some s →
  ∃ w', destruct_ this w = Some w' ∧ registry_ok w'
        ∧ objs w' !! this = None
        ∧ ∀ i, txInstances w' !! i ≠ Some (Some this).
Proof.
  intros Hok Hs.
  destruct (end_preserves this w s Hok Hs) as (w0 & Hend & Hok0).
  unfold destruct_. rewrite Hend. simpl. eexists. split; [reflexivity|].
  assert (Hnot : ∀ s0, objs w0 !! this = Some s0 → began_ s0 = false).
  { intros s0 Hs0. destruct (began_ s) eqn:Hb.
    2: { rewrite (end_not_begun this w s Hs Hb) in Hend. congruence. }
    destruct (Z_lt_ge_dec (serialIndex_ s) 0) as [Hneg|Hpos].
    { rewrite (end_unknown_port this w s Hs Hb Hneg) in Hend.
      injection Hend as <-.
      rewrite (modify_lookup this _ w s Hs) in Hs0. by injection Hs0 as <-. }
    destruct Hok as (_ & _ & Hslot).
    pose proof (Hslot this s Hs Hb ltac:(lia)) as Hcur.
    rewrite (end_begun this w s (Some this) Hs Hb ltac:(lia) Hcur) in Hend.
    rewrite decide_True in Hend by done. injection Hend as <-.
    rewrite set_txInstance_objs, (modify_lookup this _ w s Hs) in Hs0.
    by injection Hs0 as <-. }
  destruct Hok0 as (Hidx & Hocc & Hslot).
  assert (Hfree : ∀ i, txInstances w0 !! i ≠ Some (Some this)).
  { intros i Hi. destruct (Hocc i this Hi) as (s0 & Hs0 & Hb0 & _).
    rewrite (Hnot s0 Hs0) in Hb0. discriminate. }
  split; [|split; [apply lookup_delete_eq | exact Hfree]].
  split; [|split]; simpl.
  - intros p sp Hsp. apply lookup_delete_Some in Hsp as [_ Hsp].
    by apply (Hidx p sp).
  - intros i p Hi. destruct (Hocc i p Hi) as (sp & Hsp & Hrest).
    exists sp. split; [|done]. rewrite lookup_delete_ne; [done|].
    intros <-. by apply (Hfree i).
  - intros p sp Hsp. apply lookup_delete_Some in Hsp as [_ Hsp].
    by apply (Hslot p sp).
Qed.

(** C8: in a consistent world no two begun objects share a port, and
    [begin()] and [end()] keep the world consistent.  [begin()] on an object
    of a known port that has not begun puts it in the slot of its port and
    marks it begun; a different object found in that slot has [end()] called
    on it (it is marked ended and its send handler is ended), the slot is
    left pointing to the new object, and a later [end()] on the evicted
    object changes nothing.  [end()] on a begun object ends its send
    handler, which masks the interrupts, and clears the slot; in any world
    it clears the slot only if the slot still points to the object; a second
    [end()] changes nothing, nor does [end()] on an object that has not
    begun. *)
Theorem registry_one_instance_per_port (this : ptr) (w : World) (s : Sender) :
  registry_ok w → objs w !! this = Some s →
  (∀ p q sp sq,
     objs w !! p = Some sp → objs w !! q = Some sq →
     began_ sp = true → began_ sq = true →
     0 <= serialIndex_ sp → serialIndex_ sp = serialIndex_ sq → p = q)
  ∧ (∃ w',
       begin this w = Some w' ∧ registry_ok w'
       ∧ (began_ s = false → 0 <= serialIndex_ s →
          txInstances w' !! Z.to_nat (serialIndex_ s) = Some (Some this)
          ∧ (∃ s', objs w' !! this = Some s' ∧ began_ s' = true)
          ∧ ∀ p sp,
              p ≠ this →
              txInstances w !! Z.to_nat (serialIndex_ s) = Some (Some p) →
              objs w !! p = Some sp →
              ∃ sp', objs w' !! p = Some sp' ∧ began_ sp' = false
                     ∧ sendHandler_ sp' = sendHandler_ sp ++ [HEnd]
                     ∧ end_ p w' = Some w'))
  ∧ (∃ w',
       end_ this w = Some w' ∧ registry_ok w'
       ∧ end_ this w' = Some w'
       ∧ (began_ s = false → w' = w)
       ∧ (began_ s = true → 0 <= serialIndex_ s →
          ∃ s', objs w' !! this = Some s' ∧ began_ s' = false
                ∧ sendHandler_ s' = sendHandler_ s ++ [HEnd]
                ∧ txInstances w' !! Z.to_nat (serialIndex_ s) = Some None))
  ∧ (∀ w0 s0 cur,
       objs w0 !! this = Some s0 → began_ s0 = true → 0 <= serialIndex_ s0 →
       txInstances w0 !! Z.to_nat (serialIndex_ s0) = Some cur →
       ∃ w', end_ this w0 = Some w'
             ∧ txInstances w' !! Z.to_nat (serialIndex_ s0)
               = Some (if decide (cur = Some this) then None else cur)).
Proof.
  intros Hok Hs. split; [|split; [|split]].
  - intros p q sp sq. by apply registry_ok_unique.
  - destruct (begin_preserves this w s Hok Hs) as (w' & Hrun & Hok').
    exists w'. split; [done|]. split; [done|]. intros Hb Hi.
    destruct (begin_known_port this w s Hok Hs Hb Hi)
      as (w'' & Hrun' & Htx & Hthis & _ & Hevicted).
    assert (w'' = w') as -> by congruence.
    destruct (registry_ok_slot w this s Hok Hs Hi) as [prev Hprev].
    split.
    { rewrite Htx. apply list_lookup_insert_eq.
      apply lookup_lt_is_Some. eauto. }
    split; [by exists (started s)|].
    intros p sp Hp Hin Hsp. exists (ended sp).
    pose proof (Hevicted p sp Hp Hin Hsp) as Hsp'.
    split; [done|]. split; [done|]. split; [done|].
    by apply (end_not_begun p w' (ended sp)).
  - destruct (end_preserves this w s Hok Hs) as (w' & Hrun & Hok').
    exists w'. split; [done|]. split; [done|].
    destruct (began_ s) eqn:Hb.
    2: { rewrite (end_not_begun this w s Hs Hb) in Hrun.
         injection Hrun as <-.
         split; [by apply (end_not_begun this w s)|]. split; [done|].
         intros [=]. }
    destruct (Z_lt_ge_dec (serialIndex_ s) 0) as [Hneg|Hpos].
    { rewrite (end_unknown_port this w s Hs Hb Hneg) in Hrun.
      injection Hrun as <-. split.
      - apply (end_not_begun this _ (with_began_ false s)); [|done].
        by apply modify_lookup.
      - split; [intros [=]|]. intros _ Hi. lia. }
    destruct Hok as (_ & _ & Hslot).
    pose proof (Hslot this s Hs Hb ltac:(lia)) as Hcur.
    rewrite (end_begun this w s (Some this) Hs Hb ltac:(lia) Hcur) in Hrun.
    rewrite decide_True in Hrun by done. injection Hrun as <-.
    assert (Hthis : objs (set_txInstance (Z.to_nat (serialIndex_ s)) None
                            (modify this ended w)) !! this
                    = Some (ended s))
      by (rewrite set_txInstance_objs; by apply modify_lookup).
    split; [by apply (end_not_begun this _ (ended s))|].
    split; [intros [=]|]. intros _ _. exists (ended s).
    split; [done|]. split; [done|]. split; [done|]. simpl.
    apply list_lookup_insert_eq. apply lookup_lt_is_Some. eauto.
  - intros w0 s0 cur Hs0 Hb0 Hi0 Hcur.
    rewrite (end_begun this w0 s0 cur Hs0 Hb0 Hi0 Hcur).
    eexists. split; [reflexivity|].
    destruct (decide (cur = Some this)); simpl.
    + apply list_lookup_insert_eq. apply lookup_lt_is_Some. eauto.
    + done.
Qed.

Lemma registry_one_instance_per_port_witness :
  registry_ok (construct teensy32 0%nat 0 (World_new teensy32))
  ∧ objs (construct teensy32 0%nat 0 (World_new teensy32)) !! 0%nat
    = Some (Sender_new teensy32 0)
  ∧ ∃ w',
      begin 0%nat (construct teensy32 0%nat 0 (World_new teensy32)) = Some w'
      ∧ txInstances w' !! 0%nat = Some (Some 0%nat).
Proof.
  assert (Hok : registry_ok (construct teensy32 0%nat 0 (World_new teensy32))).
  { apply construct_preserves;
      [apply registry_ok_new | reflexivity | simpl; lia]. }
  split; [exact Hok|]. split; [reflexivity|].
  destruct
    (registry_one_instance_per_port 0%nat
       (construct teensy32 0%nat 0 (World_new teensy32))
       (Sender_new teensy32 0) Hok eq_refl)
    as (_ & (w' & Hrun & _ & Hslot) & _).
  exists w'. split; [exact Hrun|].
  apply Hslot; [reflexivity | simpl; lia].
Defined.

(** Two objects on port 0: beginning the second after the first leaves the
    second in the slot; the first has been ended, and a later [end()] on it
    changes nothing. *)
Example eviction_on_shared_port :
  (w ← begin 0%nat
         (construct teensy32 1%nat 0
            (construct teensy32 0%nat 0 (World_new teensy32)));
   w ← begin 1%nat w;
   w' ← end_ 0%nat w;
   s0 ← objs w !! 0%nat;
   s1 ← objs w !! 1%nat;
   Some (txInstances w !! 0%nat, began_ s0, sendHandler_ s0, began_ s1,
         txInstances w' !! 0%nat))
  = Some (Some (Some 1%nat), false, [HStart; HSetActive; HEnd], true,
          Some (Some 1%nat)).
Proof. vm_compute. reflexivity. Qed.

(** ** Refresh rate *)

(** [rate != rate] holds exactly for NaN. *)
Lemma float_eqb_self (x : float) : float_eqb x x = negb (float_is_nan x).
Proof.
  unfold float_eqb, SFeqb.
  destruct x as [[]|[]| |[] m e]; simpl; try reflexivity;
    rewrite Z.compare_refl, Pos.compare_cont_refl; reflexivity.
Qed.

(** Updates that leave [began_] and [serialIndex_] alone keep the world
    consistent. *)
Lemma modify_preserves (this : ptr) (f : Sender → Sender) (w : World) :
  (∀ s, began_ (f s) = began_ s ∧ serialIndex_ (f s) = serialIndex_ s) →
  registry_ok w → registry_ok (modify this f w).
Proof.
  intros Hf (Hidx & Hocc & Hslot). split; [|split].
  - intros p sp. destruct (decide (p = this)) as [->|Hne].
    + unfold modify. simpl. rewrite lookup_alter_eq.
      destruct (objs w !! this) as [s|] eqn:Hs; simpl; [|done].
      intros [= <-]. rewrite (proj2 (Hf s)). by apply (Hidx this s).
    + rewrite modify_lookup_ne by done. apply Hidx.
  - intros i p Hi. destruct (Hocc i p Hi) as (sp & Hsp & Hbp & Hip).
    destruct (decide (p = this)) as [->|Hne].
    + exists (f sp). split; [by apply modify_lookup|].
      by rewrite (proj1 (Hf sp)), (proj2 (Hf sp)).
    + exists sp. by rewrite modify_lookup_ne.
  - intros p sp. destruct (decide (p = this)) as [->|Hne].
    + unfold modify at 1. simpl. rewrite lookup_alter_eq.
      destruct (objs w !! this) as [s|] eqn:Hs; simpl; [|done].
      intros [= <-]. rewrite (proj1 (Hf s)), (proj2 (Hf s)).
      by apply (Hslot this s).
    + rewrite modify_lookup_ne by done. apply Hslot.
Qed.

(** [end()] followed by [begin()] succeeds in a consistent world and keeps
    the object live. *)
Lemma restart_preserves (this : ptr) (w : World) (s : Sender) :
  registry_ok w → objs w !! this = Some s →
  ∃ w0 w1 s1,
    end_ this w = Some w0 ∧ begin this w0 = Some w1
    ∧ registry_ok w1 ∧ objs w1 !! this = Some s1.
Proof.
  intros Hok Hs.
  destruct (end_preserves this w s Hok Hs) as (w0 & Hend & Hok0).
  assert (∃ s0, objs w0 !! this = Some s0) as [s0 Hs0].
  { unfold end_ in Hend. rewrite Hs in Hend. simpl in Hend.
    destruct (began_ s); simpl in Hend; [|simplify_eq; eauto].
    destruct (serialIndex_ s <? 0).
    { simplify_eq. eexists. by apply modify_lookup. }
    destruct (txInstances _ !! _) as [cur|]; simpl in Hend; [|done].
    destruct (decide (cur = Some this)); simplify_eq;
      eexists; rewrite ?set_txInstance_objs;
      (apply modify_lookup; by apply modify_lookup). }
  destruct (begin_preserves this w0 s0 Hok0 Hs0) as (w1 & Hbegin & Hok1).
  assert (∃ s1, objs w1 !! this = Some s1) as [s1 Hs1].
  { destruct (began_ s0) eqn:Hb0.
    { rewrite (begin_already_begun this w0 s0 Hs0 Hb0) in Hbegin.
      simplify_eq. eauto. }
    destruct (Z_lt_ge_dec (serialIndex_ s0) 0) as [Hneg|Hpos].
    { rewrite (begin_unknown_port this w0 s0 Hs0 Hb0 Hneg) in Hbegin.
      simplify_eq. eexists. by apply modify_lookup. }
    destruct (begin_known_port this w0 s0 Hok0 Hs0 Hb0 ltac:(lia))
      as (w1' & Hrun & _ & Hthis & _).
    assert (w1' = w1) as -> by congruence. eauto. }
  eauto 10.
Qed.

(** The object after [end()], in a consistent world. *)
Lemma end_result (this : ptr) (w : World) (s : Sender) :
  registry_ok w → objs w !! this = Some s →
  ∃ w',
    end_ this w = Some w' ∧ registry_ok w'
    ∧ objs w' !! this
      = Some (if began_ s
              then if serialIndex_ s <? 0 then with_began_ false s
                   else ended s
              else s)
    ∧ (∀ p, p ≠ this → objs w' !! p = objs w !! p)
    ∧ (∀ i, txInstances w' !! i ≠ Some (Some this))
    ∧ (∀ i p, p ≠ this →
              txInstances w' !! i = Some (Some p)
              ↔ txInstances w !! i = Some (Some p)).
Proof.
  intros Hok Hs.
  destruct (end_preserves this w s Hok Hs) as (w' & Hend & Hok').
  exists w'. split; [done|]. split; [done|].
  assert (Hfree : ∀ s', objs w' !! this = Some s' → began_ s' = false →
                        ∀ i, txInstances w' !! i ≠ Some (Some this)).
  { intros s' Hs' Hb' i Hi. destruct Hok' as (_ & Hocc & _).
    destruct (Hocc i this Hi) as (s0 & Hs0 & Hb0 & _). congruence. }
  destruct (began_ s) eqn:Hb.
  2: { rewrite (end_not_begun this w s Hs Hb) in Hend. injection Hend as <-.
       split; [done|]. split; [done|]. split; [by apply (Hfree s)|done]. }
  destruct (Z.ltb_spec (serialIndex_ s) 0) as [Hneg|Hpos].
  { rewrite (end_unknown_port this w s Hs Hb Hneg) in Hend.
    injection Hend as <-.
    pose proof (modify_lookup this (with_began_ false) w s Hs) as Hthis.
    split; [done|]. split; [intros p Hp; by apply modify_lookup_ne|].
    split; [by apply (Hfree (with_began_ false s))|done]. }
  destruct Hok as (_ & _ & Hslot).
  pose proof (Hslot this s Hs Hb Hpos) as Hcur.
  rewrite (end_begun this w s (Some this) Hs Hb Hpos Hcur) in Hend.
  rewrite decide_True in Hend by done. injection Hend as <-.
  assert (Hthis : objs (set_txInstance (Z.to_nat (serialIndex_ s)) None
                          (modify this ended w)) !! this = Some (ended s))
    by (rewrite set_txInstance_objs; by apply modify_lookup).
  split; [done|].
  split; [intros p Hp; rewrite set_txInstance_objs;
          by apply modify_lookup_ne|].
  split; [by apply (Hfree (ended s))|].
  intros i p Hp. simpl.
  destruct (decide (i = Z.to_nat (serialIndex_ s))) as [->|Hne].
  - rewrite list_lookup_insert_eq by (apply lookup_lt_is_Some; eauto).
    rewrite Hcur. split; intros [=]. congruence.
  - by rewrite list_lookup_insert_ne.
Qed.

(** The object after [begin()] on an object that has not begun, in a
    consistent world. *)
Lemma begin_result (this : ptr) (w : World) (s : Sender) :
  registry_ok w → objs w !! this = Some s → began_ s = false →
  ∃ w',
    begin this w = Some w' ∧ registry_ok w'
    ∧ objs w' !! this
      = Some (if serialIndex_ s <? 0 then with_began_ true s else started s)
    ∧ (0 <= serialIndex_ s →
       txInstances w' !! Z.to_nat (serialIndex_ s) = Some (Some this)).
Proof.
  intros Hok Hs Hb.
  destruct (begin_preserves this w s Hok Hs) as (w' & Hrun & Hok').
  exists w'. split; [done|]. split; [done|].
  destruct (Z.ltb_spec (serialIndex_ s) 0) as [Hneg|Hpos].
  { rewrite (begin_unknown_port this w s Hs Hb Hneg) in Hrun.
    injection Hrun as <-. split; [by apply modify_lookup | lia]. }
  destruct (begin_known_port this w s Hok Hs Hb Hpos)
    as (w'' & Hrun' & Htx & Hthis & _).
  assert (w'' = w') as -> by congruence.
  split; [done|]. intros _. rewrite Htx.
  apply list_lookup_insert_eq.
  destruct (registry_ok_slot w this s Hok Hs Hpos) as [cur Hcur].
  apply lookup_lt_is_Some. eauto.
Qed.

Lemma float_eqb_zero_inv (rate : float) :
  float_eqb rate float_zero = true →
  float_eqb rate rate = true ∧ float_ltb rate float_zero = false.
Proof. by destruct rate as [[]|[]| |[] m e]. Qed.

(** For a whole number of packets per second up to 100000, the interval
    that [1000000 / rate] gives in [float] arithmetic, converted to
    [uint32_t], is the integer quotient. *)
Lemma forall_from_spec (p : Z → bool) (n : nat) (k : Z) :
  forall_from p n k = true → ∀ i, k <= i < k + Z.of_nat n → p i = true.
Proof.
  revert k. induction n as [|n IH]; intros k Hall i Hi; [lia|].
  simpl in Hall. destruct (p k) eqn:Hk; [|discriminate].
  destruct (decide (i = k)) as [-> | Hne]; [exact Hk|].
  apply (IH (k + 1) Hall). lia.
Qed.

Lemma interval_of_integer_rate (k : Z) :
  1 <= k <= 100000 →
  float_to_uint32 (float_div (float_of_int 1000000) (float_of_int k))
  = 1000000 / k.
Proof.
  intros Hk.
  assert (Hall :
            forall_from
              (λ k, float_to_uint32
                      (float_div (float_of_int 1000000) (float_of_int k))
                    =? 1000000 / k)
              (Z.to_nat 100000) 1 = true)
    by (vm_compute; reflexivity).
  apply Z.eqb_eq, (forall_from_spec _ _ _ Hall). lia.
Qed.

(** C6: [setRefreshRate(rate)] returns false and changes nothing, stored
    rate and break-to-break interval included, when [rate] is NaN or below
    zero.  For every other nonzero rate it returns true, and the world it
    leaves is fixed: when the stored rate was not zero, the world as it was
    with the rate stored in the object and the interval set to
    [1000000 / rate], computed in [float] and converted to [uint32_t]; when
    the stored rate was zero, the world after [end()] and then [begin()] on
    the object, with the same two fields set.  After that restart the object
    has begun, and on a known port it is the started object (packet count 0,
    send handler ended if it had begun, then started and activated) in the
    slot of its port.  For a whole number of packets per second up to
    100000 the interval is the integer quotient 1000000 / rate. *)
Theorem setRefreshRate_effects (rate : float) (this : ptr) (w : World)
    (s : Sender) :
  registry_ok w → objs w !! this = Some s →
  let stored (s0 : Sender) :=
    with_refreshRate_ rate
      (with_breakToBreakTime_
         (float_to_uint32 (float_div (float_of_int 1000000) rate)) s0) in
  (float_is_nan rate = true ∨ float_ltb rate float_zero = true →
     setRefreshRate rate this w = Some (false, w))
  ∧ (float_is_nan rate = false → float_ltb rate float_zero = false →
     float_eqb rate float_zero = false →
     (float_eqb (refreshRate_ s) float_zero = false →
        setRefreshRate rate this w = Some (true, modify this stored w)
        ∧ objs (modify this stored w) !! this = Some (stored s)
        ∧ registry_ok (modify this stored w))
     ∧ (float_eqb (refreshRate_ s) float_zero = true →
        ∃ w0 w1 s1,
          end_ this w = Some w0 ∧ begin this w0 = Some w1
          ∧ setRefreshRate rate this w = Some (true, modify this stored w1)
          ∧ objs w1 !! this = Some s1
          ∧ objs (modify this stored w1) !! this = Some (stored s1)
          ∧ registry_ok (modify this stored w1)
          ∧ began_ s1 = true
          ∧ (0 <= serialIndex_ s →
             s1 = started (if began_ s then ended s else s)
             ∧ txInstances w1 !! Z.to_nat (serialIndex_ s)
               = Some (Some this))))
  ∧ (∀ k, 1 <= k <= 100000 →
          float_to_uint32 (float_div (float_of_int 1000000) (float_of_int k))
          = 1000000 / k).
Proof.
  intros Hok Hs stored.
  assert (Hkeeps : ∀ s0, began_ (stored s0) = began_ s0
                         ∧ serialIndex_ (stored s0) = serialIndex_ s0)
    by (intros s0; by split).
  split; [|split; [|exact interval_of_integer_rate]].
  - intros Hbad. unfold setRefreshRate. rewrite Hs. simpl.
    rewrite float_eqb_self, negb_involutive.
    destruct Hbad as [-> | ->]; [reflexivity | by rewrite orb_true_r].
  - intros Hnan Hneg Hzero. split.
    + intros Hstored. split; [|split].
      * unfold setRefreshRate. rewrite Hs. cbn [mbind option_bind].
        rewrite float_eqb_self, Hnan, Hneg, Hzero, Hstored. reflexivity.
      * exact (modify_lookup this stored w s Hs).
      * by apply modify_preserves.
    + intros Hstored.
      destruct (end_result this w s Hok Hs)
        as (w0 & Hend & Hok0 & Hs0 & _).
      set (s0 := if began_ s
                 then if serialIndex_ s <? 0 then with_began_ false s
                      else ended s
                 else s) in *.
      assert (Hb0 : began_ s0 = false).
      { unfold s0. destruct (began_ s) eqn:Hb; [|done].
        by destruct (serialIndex_ s <? 0). }
      assert (Hi0 : serialIndex_ s0 = serialIndex_ s).
      { unfold s0. destruct (began_ s); [|done].
        by destruct (serialIndex_ s <? 0). }
      destruct (begin_result this w0 s0 Hok0 Hs0 Hb0)
        as (w1 & Hbegin & Hok1 & Hs1 & Hslot).
      rewrite Hi0 in Hs1, Hslot.
      exists w0, w1, (if serialIndex_ s <? 0 then with_began_ true s0
                      else started s0).
      split; [exact Hend|]. split; [exact Hbegin|]. split.
      { unfold setRefreshRate. rewrite Hs. cbn [mbind option_bind].
        rewrite float_eqb_self, Hnan, Hneg, Hzero, Hstored. cbn [negb orb].
        rewrite Hend. cbn [mbind option_bind]. rewrite Hbegin. reflexivity. }
      split; [exact Hs1|].
      split; [exact (modify_lookup this stored w1 _ Hs1)|].
      split; [by apply modify_preserves|].
      split; [by destruct (serialIndex_ s <? 0)|].
      intros Hpos. destruct (Z.ltb_spec (serialIndex_ s) 0); [lia|].
      split; [|by apply Hslot].
      unfold s0. destruct (began_ s); [|reflexivity].
      by destruct (Z.ltb_spec (serialIndex_ s) 0); [lia|].
Qed.

Lemma setRefreshRate_effects_witness :
  ∃ w s,
    (w ← begin 0%nat (construct teensy32 0%nat 0 (World_new teensy32));
     r ← setRefreshRate float_zero 0%nat w;
     Some (snd r)) = Some w
    ∧ registry_ok w
    ∧ objs w !! 0%nat = Some s
    ∧ began_ s = true
    ∧ float_eqb (refreshRate_ s) float_zero = true
    ∧ sendHandler_ s = [HStart; HSetActive]
    ∧ ∃ w' s',
        setRefreshRate (float_of_int 44) 0%nat w = Some (true, w')
        ∧ objs w' !! 0%nat = Some s'
        ∧ sendHandler_ s' = [HStart; HSetActive; HEnd; HStart; HSetActive]
        ∧ packetCount_ s' = 0
        ∧ breakToBreakTime_ s' = 22727.
Proof.
  assert (Hok0 : registry_ok
                   (construct teensy32 0%nat 0 (World_new teensy32))).
  { apply construct_preserves;
      [apply registry_ok_new | reflexivity | simpl; lia]. }
  destruct (begin_preserves 0%nat _ _ Hok0 eq_refl) as (w1 & Hbegin & Hok1).
  assert (Hw1 : Some w1
                = begin 0%nat
                    (construct teensy32 0%nat 0 (World_new teensy32)))
    by (by rewrite Hbegin).
  vm_compute in Hw1. injection Hw1 as Hw1.
  set (zeroed := λ s0 : Sender,
         with_refreshRate_ float_zero
           (with_breakToBreakTime_ UINT32_MAX s0)).
  assert (Hok : registry_ok (modify 0%nat zeroed w1))
    by (by apply modify_preserves).
  assert (Hs1 : objs w1 !! 0%nat = Some (started (Sender_new teensy32 0)))
    by (rewrite Hw1; reflexivity).
  pose proof (modify_lookup 0%nat zeroed w1 _ Hs1) as Hs.
  exists (modify 0%nat zeroed w1), (zeroed (started (Sender_new teensy32 0))).
  split.
  { rewrite Hbegin. cbn [mbind option_bind]. unfold setRefreshRate.
    rewrite Hs1. reflexivity. }
  split; [exact Hok|]. split; [exact Hs|]. split; [reflexivity|].
  split; [reflexivity|]. split; [reflexivity|].
  destruct (setRefreshRate_effects (float_of_int 44) 0%nat
              (modify 0%nat zeroed w1)
              (zeroed (started (Sender_new teensy32 0))) Hok Hs)
    as (_ & Haccept & _).
  destruct (Haccept eq_refl eq_refl eq_refl) as [_ Hrestart].
  destruct (Hrestart eq_refl)
    as (w0 & w2 & s2 & _ & _ & Hrun & _ & Hs' & _ & _ & Hpin).
  destruct (Hpin ltac:(simpl; lia)) as [-> _].
  eexists _, _. split; [exact Hrun|]. split; [exact Hs'|].
  repeat split.
Defined.

(** NaN and -1 are rejected; 44 Hz gives an interval of 22727 microseconds,
    an infinite rate gives 0, and after a rate of 0 (interval [UINT32_MAX])
    a new rate of 44 Hz restarts the object. *)
Example setRefreshRate_examples :
  let w := construct teensy32 0%nat 0 (World_new teensy32) in
  setRefreshRate S754_nan 0%nat w = Some (false, w)
  ∧ setRefreshRate (float_of_int (-1)) 0%nat w = Some (false, w)
  ∧ (r ← setRefreshRate (float_of_int 44) 0%nat w;
     s ← objs (snd r) !! 0%nat;
     Some (fst r, breakToBreakTime_ s, began_ s))
    = Some (true, 22727, false)
  ∧ (r ← setRefreshRate float_infinity 0%nat w;
     s ← objs (snd r) !! 0%nat;
     Some (fst r, breakToBreakTime_ s))
    = Some (true, 0)
  ∧ (r ← setRefreshRate float_zero 0%nat w;
     s ← objs (snd r) !! 0%nat;
     r' ← setRefreshRate (float_of_int 44) 0%nat (snd r);
     s' ← objs (snd r') !! 0%nat;
     Some (fst r, breakToBreakTime_ s, fst r', breakToBreakTime_ s',
           began_ s', sendHandler_ s'))
    = Some (true, UINT32_MAX, true, 22727, true, [HStart; HSetActive]).
Proof. repeat split; vm_compute; reflexivity. Qed.

(** * Further properties of the output buffer *)

Lemma wrap_uint8_range (x : Z) : 0 <= wrap_uint8 x < 256.
Proof. unfold wrap_uint8. apply Z.mod_pos_bound. lia. Qed.

Lemma uint16_bytes (v : Z) :
  0 <= v < 2 ^ 16 →
  256 * wrap_uint8 (Z.shiftr v 8) + wrap_uint8 v = v.
Proof.
  intros Hv. unfold wrap_uint8. rewrite Z.shiftr_div_pow2 by lia.
  change (2 ^ 8) with 256.
  rewrite (Z.mod_small (v / 256)).
  - symmetry. apply Z.div_mod. lia.
  - split; [apply Z.div_pos; lia|].
    apply Z.div_lt_upper_bound; lia.
Qed.

(** The buffer after each write, in terms of its answer. *)
Lemma set_outputBuf (channel value : Z) (s : Sender) :
  outputBuf_ (snd (set channel value s))
  = if fst (set channel value s)
    then store channel value (outputBuf_ s) else outputBuf_ s.
Proof. unfold set. by destruct (_ || _). Qed.

Lemma set16Bit_outputBuf (channel value : Z) (s : Sender) :
  outputBuf_ (snd (set16Bit channel value s))
  = if fst (set16Bit channel value s)
    then store (channel + 1) (wrap_uint8 value)
           (store channel (wrap_uint8 (Z.shiftr value 8)) (outputBuf_ s))
    else outputBuf_ s.
Proof.
  unfold set16Bit. destruct (_ || _); [reflexivity|]. cbn [fst snd].
  apply (locked_outputBuf
           (λ buf, store (channel + 1) (wrap_uint8 value)
                     (store channel (wrap_uint8 (Z.shiftr value 8)) buf))).
Qed.

Lemma set_values_outputBuf (startChannel len : Z) (values : list Z)
    (s : Sender) :
  outputBuf_ (snd (set_values startChannel values len s))
  = if fst (set_values startChannel values len s)
    then copy_n values (Z.to_nat len) startChannel (outputBuf_ s)
    else outputBuf_ s.
Proof.
  unfold set_values. destruct (_ || _); [reflexivity|].
  destruct (Z.eqb_spec len 0) as [->|_]; [reflexivity|].
  destruct (_ || _); [reflexivity|]. cbn [fst snd].
  apply (locked_outputBuf (copy_n values (Z.to_nat len) startChannel)).
Qed.

Lemma set16Bit_values_outputBuf (startChannel len : Z) (values : list Z)
    (s : Sender) :
  outputBuf_ (snd (set16Bit_values startChannel values len s))
  = if fst (set16Bit_values startChannel values len s)
    then store16_n values (Z.to_nat len) startChannel (outputBuf_ s)
    else outputBuf_ s.
Proof.
  unfold set16Bit_values. cbv zeta. destruct (_ || _); [reflexivity|].
  destruct (Z.eqb_spec len 0) as [->|_]; [reflexivity|].
  destruct (_ || _); [reflexivity|]. cbn [fst snd].
  apply (locked_outputBuf (store16_n values (Z.to_nat len) startChannel)).
Qed.

Lemma clear_outputBuf (s : Sender) :
  outputBuf_ (clear s)
  = fill_n (Z.to_nat kMaxDMXPacketSize) 0 0 (outputBuf_ s).
Proof.
  unfold clear.
  apply (locked_outputBuf (fill_n (Z.to_nat kMaxDMXPacketSize) 0 0)).
Qed.

(** *** The loops *)

Lemma store16_n_length (values : list Z) (n : nat) (dst : Z) (buf : list Z) :
  length (store16_n values n dst buf) = length buf.
Proof.
  revert values dst buf. induction n as [|n IH]; intros values dst buf; simpl.
  - reflexivity.
  - by rewrite IH, !store_length.
Qed.

Lemma store16_n_outside (values : list Z) (n : nat) (dst : Z) (buf : list Z)
    (j : nat) :
  0 <= dst → Z.of_nat j < dst ∨ dst + 2 * Z.of_nat n <= Z.of_nat j →
  store16_n values n dst buf !! j = buf !! j.
Proof.
  revert values dst buf. induction n as [|n IH]; intros values dst buf Hd Hj;
    simpl; [reflexivity|].
  rewrite IH by lia. rewrite !store_lookup_ne by lia. reflexivity.
Qed.

Lemma store16_n_inside (values : list Z) (n : nat) (dst : Z) (buf : list Z)
    (k : nat) :
  0 <= dst → dst + 2 * Z.of_nat n <= Z.of_nat (length buf) → (k < n)%nat →
  store16_n values n dst buf !! (Z.to_nat dst + 2 * k)%nat
  = Some (wrap_uint8 (Z.shiftr (nth k values 0) 8))
  ∧ store16_n values n dst buf !! (Z.to_nat dst + 2 * k + 1)%nat
    = Some (wrap_uint8 (nth k values 0)).
Proof.
  revert values dst buf k.
  induction n as [|n IH]; intros values dst buf k Hd Hfit Hk; [lia|].
  cbn [store16_n]. destruct k as [|k].
  - rewrite !store16_n_outside by lia.
    replace (Z.to_nat dst + 2 * 0)%nat with (Z.to_nat dst) by lia.
    replace (Z.to_nat dst + 1)%nat with (Z.to_nat (dst + 1)) by lia.
    rewrite store_lookup_ne by lia.
    rewrite !store_lookup_eq by (rewrite ?store_length; lia).
    by destruct values.
  - replace (Z.to_nat dst + 2 * S k)%nat
      with (Z.to_nat (dst + 2) + 2 * k)%nat by lia.
    destruct (IH (tl values) (dst + 2)
                (store (dst + 1) (wrap_uint8 (hd 0 values))
                   (store dst (wrap_uint8 (Z.shiftr (hd 0 values) 8)) buf))
                k) as [Hhi Hlo]; [lia | rewrite !store_length; lia | lia |].
    rewrite Hhi, Hlo. destruct values; [by destruct k | done].
Qed.

Lemma fill_n_length (n : nat) (dst v : Z) (buf : list Z) :
  length (fill_n n dst v buf) = length buf.
Proof.
  revert dst buf. induction n as [|n IH]; intros dst buf; simpl.
  - reflexivity.
  - by rewrite IH, store_length.
Qed.

Lemma fill_n_outside (n : nat) (dst v : Z) (buf : list Z) (j : nat) :
  0 <= dst → Z.of_nat j < dst ∨ dst + Z.of_nat n <= Z.of_nat j →
  fill_n n dst v buf !! j = buf !! j.
Proof.
  revert dst buf. induction n as [|n IH]; intros dst buf Hd Hj; simpl;
    [reflexivity|].
  rewrite IH by lia. apply store_lookup_ne. lia.
Qed.

Lemma fill_n_inside (n : nat) (dst v : Z) (buf : list Z) (j : nat) :
  0 <= dst → dst + Z.of_nat n <= Z.of_nat (length buf) →
  dst <= Z.of_nat j < dst + Z.of_nat n →
  fill_n n dst v buf !! j = Some v.
Proof.
  revert dst buf. induction n as [|n IH]; intros dst buf Hd Hfit Hj; [lia|].
  simpl. destruct (decide (Z.of_nat j = dst)) as [Heq|Hne].
  - rewrite fill_n_outside by lia.
    replace j with (Z.to_nat dst) by lia. apply store_lookup_eq. lia.
  - apply IH; [lia | rewrite store_length; lia | lia].
Qed.

Lemma clear_zeroes (s : Sender) :
  buffer_ok s →
  outputBuf_ (clear s) = replicate (Z.to_nat kMaxDMXPacketSize) 0.
Proof.
  intros Hbuf. unfold buffer_ok in Hbuf. rewrite clear_outputBuf.
  apply list_eq. intros j.
  destruct (decide (j < Z.to_nat kMaxDMXPacketSize)%nat) as [Hj|Hj].
  - rewrite lookup_replicate_2 by done.
    apply fill_n_inside; [lia | rewrite Hbuf; lia | lia].
  - rewrite (proj1 (lookup_replicate_None _ _ _)) by lia.
    apply lookup_ge_None. rewrite fill_n_length, Hbuf. lia.
Qed.

(** X1: [set16Bit(channel, value)] succeeds exactly for the channels 0 to
    511.  It then stores the 16-bit value big-endian: the high byte in slot
    [channel], the low byte in slot [channel + 1], so that the two slots
    read back as [value]; no other slot changes.  For any other channel it
    returns false and changes nothing. *)
Theorem set16Bit_big_endian (channel value : Z) (s : Sender) :
  buffer_ok s → 0 <= value < 2 ^ 16 →
  (fst (set16Bit channel value s) = true ↔ 0 <= channel < 512)
  ∧ (0 <= channel < 512 →
     ∃ hi lo,
       outputBuf_ (snd (set16Bit channel value s)) !! Z.to_nat channel
       = Some hi
       ∧ outputBuf_ (snd (set16Bit channel value s))
           !! Z.to_nat (channel + 1) = Some lo
       ∧ 0 <= hi < 256 ∧ 0 <= lo < 256 ∧ 256 * hi + lo = value
       ∧ ∀ j, j ≠ Z.to_nat channel → j ≠ Z.to_nat (channel + 1) →
              outputBuf_ (snd (set16Bit channel value s)) !! j
              = outputBuf_ s !! j)
  ∧ (channel < 0 ∨ 512 <= channel → set16Bit channel value s = (false, s)).
Proof.
  intros Hbuf Hv. unfold buffer_ok, kMaxDMXPacketSize in Hbuf.
  assert (Hacc : fst (set16Bit channel value s) = true ↔ 0 <= channel < 512).
  { unfold set16Bit, kMaxDMXPacketSize.
    destruct (Z.ltb_spec channel 0), (Z.leb_spec (513 - 1) channel);
      simpl; split; intros; try discriminate; try lia; reflexivity. }
  split; [exact Hacc|]. split.
  - intros Hc. rewrite set16Bit_outputBuf, (proj2 Hacc Hc).
    exists (wrap_uint8 (Z.shiftr value 8)), (wrap_uint8 value).
    split.
    { rewrite store_lookup_ne by lia. apply store_lookup_eq. lia. }
    split; [apply store_lookup_eq; rewrite store_length; lia|].
    split; [apply wrap_uint8_range|]. split; [apply wrap_uint8_range|].
    split; [by apply uint16_bytes|].
    intros j Hj Hj'. by rewrite !store_lookup_ne.
  - intros Hc. unfold set16Bit, kMaxDMXPacketSize.
    destruct (Z.ltb_spec channel 0); [reflexivity|].
    destruct (Z.leb_spec (513 - 1) channel); [reflexivity|]. lia.
Qed.

Lemma set16Bit_big_endian_witness :
  buffer_ok (Sender_new teensy32 0) ∧ 0 <= 0xABCD < 2 ^ 16
  ∧ ∃ hi lo,
      outputBuf_ (snd (set16Bit 511 0xABCD (Sender_new teensy32 0)))
        !! 511%nat = Some hi
      ∧ outputBuf_ (snd (set16Bit 511 0xABCD (Sender_new teensy32 0)))
          !! 512%nat = Some lo
      ∧ 256 * hi + lo = 0xABCD.
Proof.
  assert (Hv : 0 <= 0xABCD < 2 ^ 16) by lia.
  split; [reflexivity|]. split; [exact Hv|].
  destruct (set16Bit_big_endian 511 0xABCD (Sender_new teensy32 0)
              eq_refl Hv) as (_ & Hstore & _).
  destruct Hstore as (hi & lo & Hhi & Hlo & _ & _ & Hval & _); [lia|].
  exists hi, lo. repeat split; assumption.
Defined.

(** X2: an accepted byte range write [set(startChannel, values, len)] puts
    [values[k]] in slot [startChannel + k] for every [k < len], leaves every
    slot outside the range as it was, and keeps the buffer at 513 bytes; a
    rejected one leaves the buffer as it was. *)
Theorem set_values_stores (startChannel len : Z) (values : list Z)
    (s : Sender) :
  buffer_ok s → is_int startChannel → is_int len →
  buffer_ok (snd (set_values startChannel values len s))
  ∧ (fst (set_values startChannel values len s) = true →
     (∀ k, (k < Z.to_nat len)%nat →
           outputBuf_ (snd (set_values startChannel values len s))
             !! (Z.to_nat startChannel + k)%nat = Some (nth k values 0))
     ∧ (∀ j, Z.of_nat j < startChannel ∨ startChannel + len <= Z.of_nat j →
             outputBuf_ (snd (set_values startChannel values len s)) !! j
             = outputBuf_ s !! j))
  ∧ (fst (set_values startChannel values len s) = false →
     outputBuf_ (snd (set_values startChannel values len s)) = outputBuf_ s).
Proof.
  intros Hbuf Hs Hl. split; [|split].
  - unfold buffer_ok in *. rewrite set_values_outputBuf.
    destruct (fst _); [by rewrite copy_n_length | done].
  - intros Hacc. by apply set_values_writes.
  - intros Hrej. by rewrite set_values_outputBuf, Hrej.
Qed.

Lemma set_values_stores_witness :
  buffer_ok (Sender_new teensy32 0) ∧ is_int 510 ∧ is_int 3
  ∧ outputBuf_ (snd (set_values 510 [7; 8; 9] 3 (Sender_new teensy32 0)))
      !! 512%nat = Some 9.
Proof.
  assert (H1 : is_int 510) by range_lia.
  assert (H2 : is_int 3) by range_lia.
  split; [reflexivity|]. split; [exact H1|]. split; [exact H2|].
  destruct (set_values_stores 510 3 [7; 8; 9] (Sender_new teensy32 0)
              eq_refl H1 H2) as (_ & Hstore & _).
  destruct (Hstore eq_refl) as [Hin _].
  apply (Hin 2%nat). simpl. lia.
Defined.

(** X3: a 16-bit range write [set16Bit(startChannel, values, len)] that
    lies inside the buffer returns true and stores each value big-endian:
    the high byte of [values[k]] in slot [startChannel + 2k] and its low
    byte in the next slot, which for a 16-bit value read back as the value;
    every slot outside the [2 * len] bytes keeps its content. *)
Theorem set16Bit_values_stores (startChannel len : Z) (values : list Z)
    (s : Sender) :
  buffer_ok s → 0 <= startChannel < 513 → 0 <= len →
  startChannel + 2 * len <= 513 →
  fst (set16Bit_values startChannel values len s) = true
  ∧ (∀ k, (k < Z.to_nat len)%nat →
       ∃ hi lo,
         outputBuf_ (snd (set16Bit_values startChannel values len s))
           !! (Z.to_nat startChannel + 2 * k)%nat = Some hi
         ∧ outputBuf_ (snd (set16Bit_values startChannel values len s))
             !! (Z.to_nat startChannel + 2 * k + 1)%nat = Some lo
         ∧ hi = (nth k values 0 / 256) mod 256
         ∧ lo = nth k values 0 mod 256
         ∧ (0 <= nth k values 0 < 2 ^ 16 → 256 * hi + lo = nth k values 0))
  ∧ (∀ j, Z.of_nat j < startChannel
          ∨ startChannel + 2 * len <= Z.of_nat j →
          outputBuf_ (snd (set16Bit_values startChannel values len s)) !! j
          = outputBuf_ s !! j).
Proof.
  intros Hbuf Hs Hl Hfit. unfold buffer_ok, kMaxDMXPacketSize in Hbuf.
  assert (Hacc : fst (set16Bit_values startChannel values len s) = true).
  { apply set16Bit_values_accepts;
      unfold kMaxDMXPacketSize; range_lia. }
  split; [exact Hacc|].
  rewrite set16Bit_values_outputBuf, Hacc. split.
  - intros k Hk.
    destruct (store16_n_inside values (Z.to_nat len) startChannel
                (outputBuf_ s) k) as [Hhi Hlo]; [lia | lia | lia |].
    eexists _, _. split; [exact Hhi|]. split; [exact Hlo|].
    split.
    { unfold wrap_uint8. rewrite Z.shiftr_div_pow2 by lia. reflexivity. }
    split; [reflexivity|]. apply uint16_bytes.
  - intros j Hj. apply store16_n_outside; lia.
Qed.

Lemma set16Bit_values_stores_witness :
  buffer_ok (Sender_new teensy32 0) ∧ 0 <= 1 < 513 ∧ 0 <= 2
  ∧ 1 + 2 * 2 <= 513
  ∧ fst (set16Bit_values 1 [0x1234; 0xABCD] 2 (Sender_new teensy32 0)) = true.
Proof.
  split; [reflexivity|]. split; [lia|]. split; [lia|]. split; [lia|].
  apply (set16Bit_values_stores 1 2 [0x1234; 0xABCD] (Sender_new teensy32 0));
    [reflexivity | lia | lia | lia].
Defined.

(** X4: [clear()] sets all 513 slots of the output buffer to 0, the start
    code in slot 0 included, and changes nothing else in the object apart
    from the calls the lock makes on the send handler. *)
Theorem clear_zeroes_buffer (s : Sender) :
  buffer_ok s →
  outputBuf_ (clear s) = replicate 513 0
  ∧ (∀ j, (j < 513)%nat → outputBuf_ (clear s) !! j = Some 0)
  ∧ buffer_ok (clear s)
  ∧ same_but_buffer s (clear s).
Proof.
  intros Hbuf. pose proof (clear_zeroes s Hbuf) as Hz.
  change (Z.to_nat kMaxDMXPacketSize) with 513%nat in Hz.
  split; [exact Hz|]. split.
  { intros j Hj. rewrite Hz. by apply lookup_replicate_2. }
  split.
  { unfold buffer_ok. rewrite Hz. by rewrite length_replicate. }
  unfold same_but_buffer, clear, locked, enableIRQs, disableIRQs.
  destruct s. simpl. destruct began_0; reflexivity.
Qed.

Lemma clear_zeroes_buffer_witness :
  buffer_ok (snd (set 0 255 (Sender_new teensy32 0)))
  ∧ outputBuf_ (snd (set 0 255 (Sender_new teensy32 0))) !! 0%nat = Some 255
  ∧ outputBuf_ (clear (snd (set 0 255 (Sender_new teensy32 0)))) !! 0%nat
    = Some 0.
Proof.
  split; [reflexivity|]. split; [reflexivity|].
  destruct (clear_zeroes_buffer (snd (set 0 255 (Sender_new teensy32 0)))
              eq_refl) as (_ & Hall & _).
  apply Hall. lia.
Defined.

(** X5: after [clear()], an accepted byte range write leaves a buffer whose
    slot [j] holds [values[j - startChannel]] inside the written range and 0
    everywhere else: the only nonzero bytes are bytes that were written. *)
Theorem clear_then_set_values (startChannel len : Z) (values : list Z)
    (s : Sender) (j : nat) :
  buffer_ok s → is_int startChannel → is_int len → (j < 513)%nat →
  fst (set_values startChannel values len (clear s)) = true →
  outputBuf_ (snd (set_values startChannel values len (clear s))) !! j
  = Some (if decide (startChannel <= Z.of_nat j < startChannel + len)
          then nth (j - Z.to_nat startChannel) values 0
          else 0).
Proof.
  intros Hbuf Hs Hl Hj Hacc.
  pose proof (proj1 (set_values_accepts _ _ values (clear s) Hs Hl) Hacc)
    as (Hstart & Hlen & Hend).
  unfold kMaxDMXPacketSize in *.
  rewrite set_values_outputBuf, Hacc.
  pose proof (clear_zeroes s Hbuf) as Hz.
  change (Z.to_nat kMaxDMXPacketSize) with 513%nat in Hz.
  destruct (decide (startChannel <= Z.of_nat j < startChannel + len))
    as [Hin|Hout].
  - replace j with (Z.to_nat startChannel + (j - Z.to_nat startChannel))%nat
      at 1 by lia.
    apply copy_n_inside; [lia | rewrite Hz, length_replicate; lia | lia].
  - rewrite copy_n_outside by lia. rewrite Hz. by apply lookup_replicate_2.
Qed.

Lemma clear_then_set_values_witness :
  buffer_ok (snd (set 5 9 (Sender_new teensy32 0)))
  ∧ is_int 10 ∧ is_int 2 ∧ (5 < 513)%nat
  ∧ map
      (λ j, outputBuf_
              (snd (set_values 10 [1; 2] 2
                      (clear (snd (set 5 9 (Sender_new teensy32 0))))))
              !! j)
      [5; 10; 11; 12]%nat
    = [Some 0; Some 1; Some 2; Some 0].
Proof.
  assert (H1 : is_int 10) by range_lia.
  assert (H2 : is_int 2) by range_lia.
  split; [reflexivity|]. split; [exact H1|]. split; [exact H2|].
  split; [lia|].
  cbn [map].
  rewrite !(λ j Hj, clear_then_set_values 10 2 [1; 2]
                      (snd (set 5 9 (Sender_new teensy32 0))) j
                      eq_refl H1 H2 Hj eq_refl) by lia.
  reflexivity.
Defined.

Lemma Sender_new_outputBuf (b : Build) (serialIndex : Z) :
  outputBuf_ (Sender_new b serialIndex)
  = replicate (Z.to_nat kMaxDMXPacketSize) 0.
Proof.
  unfold Sender_new, setMABTime. cbv zeta.
  by destruct (kDefaultMABTime <? kMABTimerAdjust (chip b)).
Qed.

(** *** Stores inside the array *)

Lemma store_checked_inside (i v : Z) (buf : list Z) :
  0 <= i < Z.of_nat (length buf) →
  store_checked i v buf = Some (store i v buf).
Proof.
  intros Hi. unfold store_checked.
  destruct (Z.leb_spec 0 i); [|lia].
  destruct (Z.ltb_spec i (Z.of_nat (length buf))); [reflexivity | lia].
Qed.

Lemma store_checked_outside (i v : Z) (buf : list Z) :
  i < 0 ∨ Z.of_nat (length buf) <= i → store_checked i v buf = None.
Proof.
  intros Hi. unfold store_checked.
  destruct (Z.leb_spec 0 i); [|reflexivity].
  destruct (Z.ltb_spec i (Z.of_nat (length buf))); [lia | reflexivity].
Qed.

Lemma copy_n_checked_inside (values : list Z) (n : nat) (dst : Z)
    (buf : list Z) :
  0 <= dst → dst + Z.of_nat n <= Z.of_nat (length buf) →
  copy_n_checked values n dst buf = Some (copy_n values n dst buf).
Proof.
  revert values dst buf.
  induction n as [|n IH]; intros values dst buf Hd Hfit; [reflexivity|].
  cbn [copy_n_checked copy_n].
  rewrite store_checked_inside by lia. cbn [mbind option_bind].
  apply IH; [lia | rewrite store_length; lia].
Qed.

Lemma store16_n_checked_inside (values : list Z) (n : nat) (dst : Z)
    (buf : list Z) :
  0 <= dst → dst + 2 * Z.of_nat n <= Z.of_nat (length buf) →
  store16_n_checked values n dst buf = Some (store16_n values n dst buf).
Proof.
  revert values dst buf.
  induction n as [|n IH]; intros values dst buf Hd Hfit; [reflexivity|].
  cbn [store16_n_checked store16_n]. unfold store16_checked.
  rewrite store_checked_inside by lia. cbn [mbind option_bind].
  rewrite store_checked_inside by (rewrite store_length; lia).
  cbn [mbind option_bind].
  apply IH; [lia | rewrite !store_length; lia].
Qed.

(** A loop that runs past the end of the array does store outside it. *)
Lemma store16_n_checked_overrun (values : list Z) (n : nat) (dst : Z)
    (buf : list Z) :
  0 <= dst <= Z.of_nat (length buf) →
  Z.of_nat (length buf) < dst + 2 * Z.of_nat n →
  store16_n_checked values n dst buf = None.
Proof.
  revert values dst buf.
  induction n as [|n IH]; intros values dst buf Hd Hover; [lia|].
  cbn [store16_n_checked]. unfold store16_checked.
  destruct (decide (dst = Z.of_nat (length buf))) as [Hend|Hin].
  { rewrite store_checked_outside by lia. reflexivity. }
  rewrite store_checked_inside by lia. cbn [mbind option_bind].
  destruct (decide (dst + 1 = Z.of_nat (length buf))) as [Hend|Hin'].
  { rewrite store_checked_outside by (rewrite store_length; lia).
    reflexivity. }
  rewrite store_checked_inside by (rewrite store_length; lia).
  cbn [mbind option_bind].
  apply IH; rewrite !store_length; lia.
Qed.

Lemma fill_n_checked_inside (n : nat) (dst v : Z) (buf : list Z) :
  0 <= dst → dst + Z.of_nat n <= Z.of_nat (length buf) →
  fill_n_checked n dst v buf = Some (fill_n n dst v buf).
Proof.
  revert dst buf.
  induction n as [|n IH]; intros dst buf Hd Hfit; [reflexivity|].
  cbn [fill_n_checked fill_n].
  rewrite store_checked_inside by lia. cbn [mbind option_bind].
  apply IH; [lia | rewrite store_length; lia].
Qed.

Lemma set16Bit_accepts (channel value : Z) (s : Sender) :
  fst (set16Bit channel value s) = true
  ↔ 0 <= channel < kMaxDMXPacketSize - 1.
Proof.
  unfold set16Bit.
  destruct (Z.ltb_spec channel 0),
    (Z.leb_spec (kMaxDMXPacketSize - 1) channel);
    simpl; split; intros; try discriminate; try lia; reflexivity.
Qed.

(** The first guard of the 16-bit range write. *)
Lemma set16Bit_values_accepted_start (startChannel len : Z) (values : list Z)
    (s : Sender) :
  fst (set16Bit_values startChannel values len s) = true →
  0 <= startChannel < kMaxDMXPacketSize ∧ 0 <= len.
Proof.
  unfold set16Bit_values. cbv zeta.
  destruct (Z.ltb_spec len 0); cbn [fst orb]; [discriminate|].
  destruct (Z.ltb_spec startChannel 0); cbn [fst orb]; [discriminate|].
  destruct (Z.leb_spec kMaxDMXPacketSize startChannel); cbn [fst orb];
    [discriminate|].
  intros _. lia.
Qed.

(** X6: the guards keep the writes inside the array.  With every store
    checked against the 513 bytes of the buffer, an accepted [set], an
    accepted [set16Bit], an accepted byte range write and [clear()] store
    inside the array only, and leave the buffer the unchecked stores
    leave.  So does an accepted 16-bit range write whose end
    [startChannel + 2 * len] does not wrap around; an accepted one whose
    end lies beyond the buffer stores outside the array. *)
Theorem accepted_writes_stay_inside (s : Sender) (channel value len : Z)
    (values : list Z) :
  buffer_ok s → is_int channel → is_int len →
  (fst (set channel value s) = true →
   store_checked channel value (outputBuf_ s)
   = Some (outputBuf_ (snd (set channel value s))))
  ∧ (fst (set16Bit channel value s) = true →
     store16_checked channel value (outputBuf_ s)
     = Some (outputBuf_ (snd (set16Bit channel value s))))
  ∧ (fst (set_values channel values len s) = true →
     copy_n_checked values (Z.to_nat len) channel (outputBuf_ s)
     = Some (outputBuf_ (snd (set_values channel values len s))))
  ∧ (fst (set16Bit_values channel values len s) = true →
     (channel + 2 * len <= 2 ^ 32 →
      store16_n_checked values (Z.to_nat len) channel (outputBuf_ s)
      = Some (outputBuf_ (snd (set16Bit_values channel values len s))))
     ∧ (kMaxDMXPacketSize < channel + 2 * len →
        store16_n_checked values (Z.to_nat len) channel (outputBuf_ s)
        = None))
  ∧ fill_n_checked (Z.to_nat kMaxDMXPacketSize) 0 0 (outputBuf_ s)
    = Some (outputBuf_ (clear s)).
Proof.
  intros Hbuf Hc Hl. unfold buffer_ok in Hbuf.
  split; [|split; [|split; [|split]]].
  - intros Hacc. rewrite set_outputBuf, Hacc.
    apply set_accepts in Hacc.
    apply store_checked_inside. rewrite Hbuf. lia.
  - intros Hacc. rewrite set16Bit_outputBuf, Hacc.
    apply set16Bit_accepts in Hacc. unfold kMaxDMXPacketSize in *.
    unfold store16_checked.
    rewrite store_checked_inside by lia. cbn [mbind option_bind].
    apply store_checked_inside. rewrite store_length. lia.
  - intros Hacc. rewrite set_values_outputBuf, Hacc.
    apply (set_values_accepts _ _ values s Hc Hl) in Hacc.
    apply copy_n_checked_inside; lia.
  - intros Hacc. split.
    + intros Hno. rewrite set16Bit_values_outputBuf, Hacc.
      apply (set16Bit_values_accepts _ _ values s Hc Hl Hno) in Hacc.
      apply store16_n_checked_inside; lia.
    + intros Hover.
      apply set16Bit_values_accepted_start in Hacc.
      apply store16_n_checked_overrun; lia.
  - rewrite clear_outputBuf. apply fill_n_checked_inside; lia.
Qed.

Lemma accepted_writes_stay_inside_witness :
  buffer_ok (Sender_new teensy32 0) ∧ is_int 3 ∧ is_int int_max
  ∧ store_checked 3 7 (outputBuf_ (Sender_new teensy32 0))
    = Some (outputBuf_ (snd (set 3 7 (Sender_new teensy32 0))))
  ∧ fst (set16Bit_values 3 [] int_max (Sender_new teensy32 0)) = true
  ∧ store16_n_checked [] (Z.to_nat int_max) 3
      (outputBuf_ (Sender_new teensy32 0)) = None.
Proof.
  assert (H1 : is_int 3) by range_lia.
  assert (H2 : is_int int_max) by range_lia.
  assert (Hacc : fst (set16Bit_values 3 [] int_max (Sender_new teensy32 0))
                 = true)
    by apply set16Bit_values_wrapped_guard.
  split; [reflexivity|]. split; [exact H1|]. split; [exact H2|].
  destruct (accepted_writes_stay_inside (Sender_new teensy32 0) 3 7 int_max
              [] eq_refl H1 H2) as (Hset & _ & _ & Hrange & _).
  split; [exact (Hset eq_refl)|]. split; [exact Hacc|].
  destruct (Hrange Hacc) as [_ Hover]. apply Hover.
  unfold kMaxDMXPacketSize, int_max. lia.
Defined.

Lemma locked_frame (g : list Z → list Z) (s : Sender) :
  same_but_buffer s (locked (λ s, with_outputBuf_ (g (outputBuf_ s)) s) s)
  ∧ sendHandler_ (locked (λ s, with_outputBuf_ (g (outputBuf_ s)) s) s)
    = sendHandler_ s ++ lock_calls s true.
Proof.
  unfold same_but_buffer, locked, enableIRQs, disableIRQs, lock_calls.
  destruct s. simpl. destruct began_0; simpl.
  - split; [reflexivity|]. by rewrite <- app_assoc.
  - split; [reflexivity|]. by rewrite app_nil_r.
Qed.

Lemma same_but_buffer_refl (s : Sender) :
  same_but_buffer s s ∧ sendHandler_ s = sendHandler_ s ++ lock_calls s false.
Proof.
  unfold same_but_buffer, lock_calls. rewrite andb_false_r.
  destruct s. simpl. by rewrite app_nil_r.
Qed.

(** X7: a write to the output buffer touches nothing but the buffer and the
    send handler's interrupt switch.  After [set], [set16Bit], the byte
    range write, the 16-bit range write whose end does not wrap around, or
    [clear()], every other field of the object is as before.  [set] makes
    no call on the send handler; each of the others, on an object that has
    begun, makes exactly the two calls "interrupts off" and "interrupts on"
    when it reaches its stores, and no call when a guard returns early or
    the object has not begun: the interrupts are never left disabled. *)
Theorem buffer_writes_frame (s : Sender) (channel value len : Z)
    (values : list Z) :
  is_int channel → is_int len →
  (same_but_buffer s (snd (set channel value s))
   ∧ sendHandler_ (snd (set channel value s)) = sendHandler_ s)
  ∧ (same_but_buffer s (snd (set16Bit channel value s))
     ∧ sendHandler_ (snd (set16Bit channel value s))
       = sendHandler_ s ++ lock_calls s (fst (set16Bit channel value s)))
  ∧ (same_but_buffer s (snd (set_values channel values len s))
     ∧ sendHandler_ (snd (set_values channel values len s))
       = sendHandler_ s
         ++ lock_calls s
              (fst (set_values channel values len s) && negb (len =? 0)))
  ∧ (channel + 2 * len <= 2 ^ 32 →
     same_but_buffer s (snd (set16Bit_values channel values len s))
     ∧ sendHandler_ (snd (set16Bit_values channel values len s))
       = sendHandler_ s
         ++ lock_calls s
              (fst (set16Bit_values channel values len s)
               && negb (len =? 0)))
  ∧ (same_but_buffer s (clear s)
     ∧ sendHandler_ (clear s) = sendHandler_ s ++ lock_calls s true).
Proof.
  intros Hc Hl.
  pose proof (same_but_buffer_refl s) as Hidle.
  split; [|split; [|split; [|split]]].
  - unfold set. destruct (_ || _); cbn [snd].
    + split; [apply Hidle | reflexivity].
    + split; [|reflexivity]. unfold same_but_buffer. by destruct s.
  - unfold set16Bit. destruct (_ || _); cbn [fst snd]; [exact Hidle|].
    apply (locked_frame
             (λ buf, store (channel + 1) (wrap_uint8 value)
                       (store channel (wrap_uint8 (Z.shiftr value 8)) buf))).
  - unfold set_values. destruct (_ || _); cbn [fst snd andb]; [exact Hidle|].
    destruct (len =? 0); cbn [fst snd andb negb]; [exact Hidle|].
    destruct (_ || _); cbn [fst snd andb]; [exact Hidle|].
    apply (locked_frame (copy_n values (Z.to_nat len) channel)).
  - intros _. unfold set16Bit_values. cbv zeta.
    destruct (_ || _); cbn [fst snd andb]; [exact Hidle|].
    destruct (len =? 0); cbn [fst snd andb negb]; [exact Hidle|].
    destruct (_ || _); cbn [fst snd andb]; [exact Hidle|].
    apply (locked_frame (store16_n values (Z.to_nat len) channel)).
  - unfold clear.
    apply (locked_frame (fill_n (Z.to_nat kMaxDMXPacketSize) 0 0)).
Qed.

Lemma buffer_writes_frame_witness :
  is_int 1 ∧ is_int 0
  ∧ began_ (started (Sender_new teensy32 0)) = true
  ∧ sendHandler_ (started (Sender_new teensy32 0)) = [HStart; HSetActive]
  ∧ same_but_buffer (started (Sender_new teensy32 0))
      (snd (set16Bit 1 0x1234 (started (Sender_new teensy32 0))))
  ∧ sendHandler_ (snd (set16Bit 1 0x1234 (started (Sender_new teensy32 0))))
    = [HStart; HSetActive; HSetIRQsEnabled false; HSetIRQsEnabled true]
  ∧ sendHandler_ (snd (set16Bit 512 0x1234 (started (Sender_new teensy32 0))))
    = [HStart; HSetActive].
Proof.
  assert (H1 : is_int 1) by range_lia.
  assert (H0 : is_int 0) by range_lia.
  assert (H512 : is_int 512) by range_lia.
  split; [exact H1|]. split; [exact H0|]. split; [reflexivity|].
  split; [reflexivity|].
  destruct (buffer_writes_frame (started (Sender_new teensy32 0)) 1 0x1234 0
              [] H1 H0) as (_ & [Hsame Hlog] & _).
  destruct (buffer_writes_frame (started (Sender_new teensy32 0)) 512 0x1234
              0 [] H512 H0) as (_ & [_ Hlog'] & _).
  split; [exact Hsame|]. split.
  - rewrite Hlog. reflexivity.
  - rewrite Hlog'. reflexivity.
Defined.

(** X8: a range write of a single element agrees with the single write.
    For every [int] start channel, [set16Bit(startChannel, values, 1)] is
    [set16Bit(startChannel, values[0])], result and object alike, and
    [set(startChannel, values, 1)] gives the answer and the buffer of
    [set(startChannel, values[0])] (only the latter takes no lock). *)
Theorem single_element_range_write (startChannel v : Z) (s : Sender) :
  is_int startChannel →
  set16Bit_values startChannel [v] 1 s = set16Bit startChannel v s
  ∧ fst (set_values startChannel [v] 1 s) = fst (set startChannel v s)
  ∧ outputBuf_ (snd (set_values startChannel [v] 1 s))
    = outputBuf_ (snd (set startChannel v s)).
Proof.
  intros Hs. split; [|split].
  - unfold set16Bit_values, set16Bit, kMaxDMXPacketSize. cbv zeta.
    change (1 <? 0) with false. change (1 =? 0) with false.
    change (wrap_int (1 * 2)) with 2. cbn [orb].
    destruct (Z.ltb_spec startChannel 0); cbn [orb]; [reflexivity|].
    destruct (Z.leb_spec 513 startChannel); cbn [orb].
    { by destruct (Z.leb_spec (513 - 1) startChannel); [|lia]. }
    rewrite wrap_int_id by range_lia.
    destruct (Z.leb_spec (startChannel + 2) 0); [lia|]. cbn [orb].
    destruct (Z.ltb_spec 513 (startChannel + 2)),
      (Z.leb_spec (513 - 1) startChannel); try lia; reflexivity.
  - unfold set_values, set, kMaxDMXPacketSize.
    change (1 <? 0) with false. change (1 =? 0) with false. cbn [orb].
    destruct (Z.ltb_spec startChannel 0); cbn [orb]; [reflexivity|].
    destruct (Z.leb_spec 513 startChannel); cbn [orb]; [reflexivity|].
    rewrite wrap_int_id by range_lia.
    destruct (Z.leb_spec (startChannel + 1) 0); [lia|]. cbn [orb].
    by destruct (Z.ltb_spec 513 (startChannel + 1)); [lia|].
  - rewrite set_values_outputBuf, set_outputBuf.
    assert (fst (set_values startChannel [v] 1 s)
            = fst (set startChannel v s)) as ->.
    { unfold set_values, set, kMaxDMXPacketSize.
      change (1 <? 0) with false. change (1 =? 0) with false. cbn [orb].
      destruct (Z.ltb_spec startChannel 0); cbn [orb]; [reflexivity|].
      destruct (Z.leb_spec 513 startChannel); cbn [orb]; [reflexivity|].
      rewrite wrap_int_id by range_lia.
      destruct (Z.leb_spec (startChannel + 1) 0); [lia|]. cbn [orb].
      by destruct (Z.ltb_spec 513 (startChannel + 1)); [lia|]. }
    reflexivity.
Qed.

Lemma single_element_range_write_witness :
  is_int 511
  ∧ set16Bit_values 511 [0xBEEF] 1 (Sender_new teensy32 0)
    = set16Bit 511 0xBEEF (Sender_new teensy32 0).
Proof.
  assert (H : is_int 511) by range_lia.
  split; [exact H|].
  destruct (single_element_range_write 511 0xBEEF (Sender_new teensy32 0) H)
    as [Heq _].
  exact Heq.
Defined.

(** * Further properties of the BREAK and MAB times *)

(** X9: [setBreakTime] and [setMABTime] are independent of each other and
    of the order they are called in: they commute, a later call of either
    overrides an earlier call of the same one, and with the break timer in
    use [breakTime()] and [mabTime()] read back the last requested values. *)
Theorem break_and_mab_setters (b : Build) (t u : Z) (s : Sender) :
  setBreakTime b t (setMABTime b u s) = setMABTime b u (setBreakTime b t s)
  ∧ setBreakTime b t (setBreakTime b u s) = setBreakTime b t s
  ∧ setMABTime b t (setMABTime b u s) = setMABTime b t s
  ∧ (isBreakUseTimerNotSerial s = true →
     breakTime b (setMABTime b u (setBreakTime b t s)) = t
     ∧ mabTime b (setMABTime b u (setBreakTime b t s)) = u).
Proof.
  unfold setBreakTime, setMABTime, breakTime, mabTime,
    isBreakUseTimerNotSerial.
  cbv zeta.
  destruct (u <? kMABTimerAdjust (chip b)), (t <? kMABTimerAdjust (chip b));
    (split; [reflexivity|]); (split; [reflexivity|]);
    (split; [reflexivity|]); simpl; intros ->; split; reflexivity.
Qed.

Lemma break_and_mab_setters_witness :
  isBreakUseTimerNotSerial
    (mkSender 0 0 [] [] false kIdle [] 0 0 0 0 0 50000 0 true 513
       float_infinity 0 0 false 0 false None) = true
  ∧ breakTime teensy32
      (setMABTime teensy32 12
         (setBreakTime teensy32 100
            (mkSender 0 0 [] [] false kIdle [] 0 0 0 0 0 50000 0 true 513
               float_infinity 0 0 false 0 false None))) = 100.
Proof.
  split; [reflexivity|].
  destruct (break_and_mab_setters teensy32 100 12
              (mkSender 0 0 [] [] false kIdle [] 0 0 0 0 0 50000 0 true 513
                 float_infinity 0 0 false 0 false None))
    as (_ & _ & _ & Hread).
  destruct (Hread eq_refl) as [Hbreak _]. exact Hbreak.
Defined.

(** X10: the notes at the head of [Sender.cpp] give 92 and 12 microseconds
    as the minimum BREAK and MAB times and 83333 baud as the rate whose bit
    lasts 12 microseconds.  In serial mode, for every supported break format
    and every break baud rate from 1 to 83333, [breakTime()] is at least 92,
    [mabTime()] is at least 12, and the MAB is shorter than the BREAK. *)
Theorem serial_mode_meets_minimums (b : Build) (s : Sender) :
  isBreakUseTimerNotSerial s = false →
  In (strip_inv_bits (breakSerialFormat s)) (supported_formats b) →
  0 < breakSerialBaud s <= 83333 →
  92 <= breakTime b s ∧ 12 <= mabTime b s ∧ mabTime b s < breakTime b s.
Proof.
  intros Hmode Hin Hbaud.
  destruct (switch_supported _ (breakTime_cases b)
              (proj2 (breakTime_cases_labels b _) Hin)) as [t Ht].
  destruct (switch_supported _ (mabTime_cases b)
              (proj2 (mabTime_cases_labels b _) Hin)) as [m Hm].
  pose proof (breakTime_cases_bits b _ _ (switch_Some _ _ _ Ht)) as Htb.
  pose proof (mabTime_cases_bits b _ _ (switch_Some _ _ _ Hm)) as Hmb.
  unfold breakTime, mabTime. rewrite Hmode, Ht, Hm.
  rewrite !wrap_uint32_id by range_lia.
  set (baud := breakSerialBaud s) in *.
  pose proof (Z.mul_div_le (m * 1000000) baud ltac:(lia)) as Hq.
  split; [apply Z.div_le_lower_bound; lia|].
  split; [apply Z.div_le_lower_bound; lia|].
  assert ((m * 1000000) / baud + 1 <= (t * 1000000) / baud)
    by (apply Z.div_le_lower_bound; lia).
  lia.
Qed.

Lemma serial_mode_meets_minimums_witness :
  isBreakUseTimerNotSerial
    (snd (setBreakSerialParams teensy32 83333 (SERIAL_8N1 teensy32)
            (Sender_new teensy32 0))) = false
  ∧ 0 < 83333 <= 83333
  ∧ 92 <= breakTime teensy32
            (snd (setBreakSerialParams teensy32 83333 (SERIAL_8N1 teensy32)
                    (Sender_new teensy32 0))).
Proof.
  split; [reflexivity|]. split; [lia|].
  destruct (serial_mode_meets_minimums teensy32
              (snd (setBreakSerialParams teensy32 83333 (SERIAL_8N1 teensy32)
                      (Sender_new teensy32 0))))
    as [Hbreak _]; [reflexivity | simpl; auto | simpl; lia | exact Hbreak].
Defined.

(** X11: the break parameters stay usable.  A constructed object has a
    nonzero break baud rate, and whatever [setBreakSerialParams] is called
    with, the stored baud rate stays nonzero, so that [breakTime()] and
    [mabTime()] never divide by zero, and the stored format never gains the
    TX-invert bit. *)
Theorem break_params_stay_usable (b : Build) (baud format : Z) (s : Sender)
    (serialIndex : Z) :
  is_uint32 baud → break_params_ok s →
  break_params_ok (snd (setBreakSerialParams b baud format s))
  ∧ breakSerialBaud (snd (setBreakSerialParams b baud format s)) ≠ 0
  ∧ 0 < breakBaud_ (Sender_new b serialIndex)
  ∧ (Z.land (SERIAL_8N1 b) kSerialFormatTXINVBit = 0 →
     break_params_ok (Sender_new b serialIndex)).
Proof.
  intros Hbaud [Hpos Hinv].
  assert (Hnew : 0 < breakBaud_ (Sender_new b serialIndex)).
  { unfold Sender_new, setMABTime. cbv zeta.
    by destruct (kDefaultMABTime <? kMABTimerAdjust (chip b)). }
  assert (Hok : break_params_ok (snd (setBreakSerialParams b baud format s))).
  { unfold setBreakSerialParams.
    destruct (Z.eqb_spec baud 0); [by split|].
    destruct (Z.eqb_spec (Z.land format kSerialFormatTXINVBit) 0) as [Hf|];
      cbn [negb]; [|by split].
    destruct (switch _ _); [|by split].
    split; [|exact Hf]. simpl. unfold is_uint32 in Hbaud. lia. }
  split; [exact Hok|]. split.
  { destruct Hok as [Hok _]. unfold breakSerialBaud. lia. }
  split; [exact Hnew|].
  intros H8n1. split; [exact Hnew|].
  unfold Sender_new, setMABTime. cbv zeta.
  by destruct (kDefaultMABTime <? kMABTimerAdjust (chip b)).
Qed.

Lemma break_params_stay_usable_witness :
  is_uint32 0 ∧ break_params_ok (Sender_new teensy32 0)
  ∧ break_params_ok
      (snd (setBreakSerialParams teensy32 0 0x20 (Sender_new teensy32 0))).
Proof.
  assert (H0 : is_uint32 0) by range_lia.
  assert (Hok : break_params_ok (Sender_new teensy32 0))
    by (split; [reflexivity | reflexivity]).
  split; [exact H0|]. split; [exact Hok|].
  destruct (break_params_stay_usable teensy32 0 0x20 (Sender_new teensy32 0)
              0 H0 Hok) as [Hkeep _].
  exact Hkeep.
Defined.

(** * Resuming *)

(** The fields of the object after an accepted [resumeFor]. *)
Lemma resumeFor_callback_accepted (n : Z) (doneTXFunc : option FnPtr)
    (s : Sender) :
  0 <= n →
  fst (resumeFor_callback n doneTXFunc s) = true
  ∧ paused_ (snd (resumeFor_callback n doneTXFunc s)) = false
  ∧ resumeCounter_ (snd (resumeFor_callback n doneTXFunc s)) = n
  ∧ doneTXFunc_ (snd (resumeFor_callback n doneTXFunc s)) = doneTXFunc
  ∧ sendHandler_ (snd (resumeFor_callback n doneTXFunc s))
    = sendHandler_ s
      ++ (if began_ s
          then [HSetIRQsEnabled false]
               ++ (if paused_ s && negb (transmitting_ s)
                   then [HSetActive] else [])
               ++ [HSetIRQsEnabled true]
          else [])
  ∧ (outputBuf_ (snd (resumeFor_callback n doneTXFunc s)),
     began_ (snd (resumeFor_callback n doneTXFunc s)),
     transmitting_ (snd (resumeFor_callback n doneTXFunc s)),
     packetCount_ (snd (resumeFor_callback n doneTXFunc s)),
     refreshRate_ (snd (resumeFor_callback n doneTXFunc s)))
    = (outputBuf_ s, began_ s, transmitting_ s, packetCount_ s,
       refreshRate_ s).
Proof.
  intros Hn. unfold resumeFor_callback.
  destruct (Z.ltb_spec n 0); [lia|]. cbn [fst snd].
  unfold locked, enableIRQs, disableIRQs. cbv zeta.
  destruct s. simpl.
  destruct began_0, paused_0, transmitting_0; simpl;
    rewrite <- ?app_assoc, ?app_nil_r; repeat split; reflexivity.
Qed.

(** X12: [resumeFor(n, doneTXFunc)] refuses a negative [n] and changes
    nothing.  For [n >= 0] it returns true, leaves the object not paused
    with [n] as resume counter and [doneTXFunc] as completion function, so
    that [isTransmitting()] is true afterwards; it activates the send
    handler only if the object was paused, had begun and was not in the
    middle of a packet, and that inside the lock; the output buffer and the
    begun and transmitting flags are not touched. *)
Theorem resumeFor_effects (n : Z) (doneTXFunc : option FnPtr) (s : Sender) :
  (n < 0 → resumeFor_callback n doneTXFunc s = (false, s))
  ∧ (0 <= n →
     fst (resumeFor_callback n doneTXFunc s) = true
     ∧ paused_ (snd (resumeFor_callback n doneTXFunc s)) = false
     ∧ resumeCounter_ (snd (resumeFor_callback n doneTXFunc s)) = n
     ∧ doneTXFunc_ (snd (resumeFor_callback n doneTXFunc s)) = doneTXFunc
     ∧ fst (isTransmitting (snd (resumeFor_callback n doneTXFunc s))) = true
     ∧ sendHandler_ (snd (resumeFor_callback n doneTXFunc s))
       = sendHandler_ s
         ++ (if began_ s
             then [HSetIRQsEnabled false]
                  ++ (if paused_ s && negb (transmitting_ s)
                      then [HSetActive] else [])
                  ++ [HSetIRQsEnabled true]
             else [])
     ∧ (outputBuf_ (snd (resumeFor_callback n doneTXFunc s)),
        began_ (snd (resumeFor_callback n doneTXFunc s)),
        transmitting_ (snd (resumeFor_callback n doneTXFunc s)),
        packetCount_ (snd (resumeFor_callback n doneTXFunc s)),
        refreshRate_ (snd (resumeFor_callback n doneTXFunc s)))
       = (outputBuf_ s, began_ s, transmitting_ s, packetCount_ s,
          refreshRate_ s)).
Proof.
  split.
  - intros Hn. unfold resumeFor_callback.
    by destruct (Z.ltb_spec n 0); [|lia].
  - intros Hn.
    destruct (resumeFor_callback_accepted n doneTXFunc s Hn)
      as (Hret & Hpaused & Hcounter & Hfn & Hlog & Hrest).
    split; [exact Hret|]. split; [exact Hpaused|]. split; [exact Hcounter|].
    split; [exact Hfn|]. split; [|split; [exact Hlog | exact Hrest]].
    by rewrite isTransmitting_value, Hpaused.
Qed.

Lemma resumeFor_effects_witness :
  0 <= 3
  ∧ paused_ (with_paused_ true (Sender_new teensy32 0)) = true
  ∧ paused_
      (snd (resumeFor_callback 3 (Some 7%nat)
              (with_paused_ true (Sender_new teensy32 0)))) = false
  ∧ resumeFor_callback (-1) (Some 7%nat)
      (with_paused_ true (Sender_new teensy32 0))
    = (false, with_paused_ true (Sender_new teensy32 0)).
Proof.
  split; [lia|]. split; [reflexivity|].
  destruct (resumeFor_effects 3 (Some 7%nat)
              (with_paused_ true (Sender_new teensy32 0)))
    as [_ Hok].
  destruct (resumeFor_effects (-1) (Some 7%nat)
              (with_paused_ true (Sender_new teensy32 0)))
    as [Hbad _].
  split; [apply Hok; lia | apply Hbad; lia].
Defined.

(** X13: [resume()] and [resumeFor(n)] keep the completion function that is
    set.  Resuming twice activates the send handler at most once: the second
    call finds the object not paused and makes only the two calls of its
    lock.  And once resumed, a completed packet does not call the completion
    function. *)
Theorem resume_then (call : FnPtr → ptr → World → option World)
    (n : Z) (this : ptr) (w : World) (s : Sender) :
  0 <= n → objs w !! this = Some s →
  doneTXFunc_ (snd (resumeFor n s)) = doneTXFunc_ s
  ∧ doneTXFunc_ (resume s) = doneTXFunc_ s
  ∧ resumeCounter_ (resume s) = 0
  ∧ sendHandler_ (resume (snd (resumeFor n s)))
    = sendHandler_ (snd (resumeFor n s))
      ++ (if began_ s
          then [HSetIRQsEnabled false; HSetIRQsEnabled true] else [])
  ∧ ∃ w',
      completePacket call this (modify this (λ s, snd (resumeFor n s)) w)
      = Some w'
      ∧ (packetCount_ <$> objs w' !! this) = Some (packetCount_ s + 1).
Proof.
  intros Hn Hs.
  destruct (resumeFor_callback_accepted n (doneTXFunc_ s) s Hn)
    as (_ & Hpaused & _ & Hfn & _ & Hrest).
  fold (resumeFor n s) in Hpaused, Hfn, Hrest.
  injection Hrest as _ Hbegan _ Hcount _.
  split; [exact Hfn|].
  destruct (resumeFor_callback_accepted 0 (doneTXFunc_ s) s (Z.le_refl 0))
    as (_ & _ & Hcounter0 & Hfn0 & _).
  split; [exact Hfn0|]. split; [exact Hcounter0|]. split.
  - unfold resume.
    destruct (resumeFor_callback_accepted 0
                (doneTXFunc_ (snd (resumeFor n s))) (snd (resumeFor n s))
                (Z.le_refl 0)) as (_ & _ & _ & _ & Hlog & _).
    fold (resumeFor 0 (snd (resumeFor n s))) in Hlog.
    rewrite Hlog, Hpaused, Hbegan. reflexivity.
  - eexists. split.
    + unfold completePacket.
      rewrite (modify_lookup this _ w s Hs). cbn [mbind option_bind].
      rewrite Hpaused. reflexivity.
    + rewrite (modify_lookup this _ _ (snd (resumeFor n s))
                 (modify_lookup this (λ s, snd (resumeFor n s)) w s Hs)).
      change (Some (packetCount_ (snd (resumeFor n s)) + 1)
              = Some (packetCount_ s + 1)).
      by rewrite Hcount.
Qed.

Lemma resume_then_witness :
  0 <= 0
  ∧ objs (modify 0%nat
            (λ s, with_doneTXFunc_ (Some 7%nat) (with_paused_ true s))
            (construct teensy32 0%nat 0 (World_new teensy32))) !! 0%nat
    = Some (with_doneTXFunc_ (Some 7%nat)
              (with_paused_ true (Sender_new teensy32 0)))
  ∧ doneTXFunc_
      (resume
         (with_doneTXFunc_ (Some 7%nat)
            (with_paused_ true (Sender_new teensy32 0)))) = Some 7%nat.
Proof.
  split; [lia|]. split; [reflexivity|].
  destruct (resume_then call_nothing 0 0%nat
              (modify 0%nat
                 (λ s, with_doneTXFunc_ (Some 7%nat) (with_paused_ true s))
                 (construct teensy32 0%nat 0 (World_new teensy32)))
              (with_doneTXFunc_ (Some 7%nat)
                 (with_paused_ true (Sender_new teensy32 0)))
              ltac:(lia) eq_refl)
    as (_ & Hkeep & _).
  exact Hkeep.
Defined.

(** * Further properties of the refresh rate and the instance table *)

(** X14: [setRefreshRate] with a rate of zero (of either sign) succeeds,
    stores the rate and sets the break-to-break interval to [UINT32_MAX];
    it never stops or restarts the object: no other field of the object, no
    other object and no slot of the instance table changes. *)
Theorem setRefreshRate_zero (rate : float) (this : ptr) (w : World)
    (s : Sender) :
  objs w !! this = Some s → float_eqb rate float_zero = true →
  ∃ w' s',
    setRefreshRate rate this w = Some (true, w')
    ∧ objs w' !! this = Some s'
    ∧ refreshRate_ s' = rate
    ∧ breakToBreakTime_ s' = UINT32_MAX
    ∧ with_refreshRate_ (refreshRate_ s)
        (with_breakToBreakTime_ (breakToBreakTime_ s) s') = s
    ∧ (∀ p, p ≠ this → objs w' !! p = objs w !! p)
    ∧ txInstances w' = txInstances w.
Proof.
  intros Hs Hzero. destruct (float_eqb_zero_inv rate Hzero) as [Hself Hneg].
  eexists (modify this _ w), _. split.
  { unfold setRefreshRate. rewrite Hs. cbn [mbind option_bind].
    rewrite Hself, Hneg, Hzero. reflexivity. }
  split; [by apply modify_lookup|].
  split; [reflexivity|]. split; [reflexivity|].
  split; [by destruct s|].
  split; [intros p Hp; by apply modify_lookup_ne | reflexivity].
Qed.

Lemma setRefreshRate_zero_witness :
  objs (construct teensy32 0%nat 0 (World_new teensy32)) !! 0%nat
  = Some (Sender_new teensy32 0)
  ∧ float_eqb (S754_zero true) float_zero = true
  ∧ ∃ w' s',
      setRefreshRate (S754_zero true) 0%nat
        (construct teensy32 0%nat 0 (World_new teensy32)) = Some (true, w')
      ∧ objs w' !! 0%nat = Some s'
      ∧ breakToBreakTime_ s' = UINT32_MAX.
Proof.
  split; [reflexivity|]. split; [reflexivity|].
  destruct (setRefreshRate_zero (S754_zero true) 0%nat
              (construct teensy32 0%nat 0 (World_new teensy32))
              (Sender_new teensy32 0) eq_refl eq_refl)
    as (w' & s' & Hrun & Hs' & _ & Hinterval & _).
  exists w', s'. repeat split; assumption.
Defined.

(** X15: when the stored refresh rate is zero, [setRefreshRate] with a
    valid nonzero rate leaves the object begun, whether or not it had begun
    before: the call runs [end()] and then [begin()].  For an object of a
    known port the packet count is back at 0, the transmitting flag is clear
    and the slot of the port points to the object. *)
Theorem setRefreshRate_restart_begins (rate : float) (this : ptr) (w : World)
    (s : Sender) :
  registry_ok w → objs w !! this = Some s →
  float_eqb (refreshRate_ s) float_zero = true →
  float_is_nan rate = false → float_ltb rate float_zero = false →
  float_eqb rate float_zero = false →
  ∃ w' s',
    setRefreshRate rate this w = Some (true, w')
    ∧ objs w' !! this = Some s'
    ∧ began_ s' = true
    ∧ refreshRate_ s' = rate
    ∧ (0 <= serialIndex_ s →
       packetCount_ s' = 0 ∧ transmitting_ s' = false ∧ state_ s' = kIdle
       ∧ txInstances w' !! Z.to_nat (serialIndex_ s) = Some (Some this)).
Proof.
  intros Hok Hs Hstored Hnan Hneg Hzero.
  destruct (end_result this w s Hok Hs)
    as (w0 & Hend & Hok0 & Hs0 & _).
  set (s0 := if began_ s
             then if serialIndex_ s <? 0 then with_began_ false s
                  else ended s
             else s) in *.
  assert (Hb0 : began_ s0 = false).
  { unfold s0. destruct (began_ s) eqn:Hb; [|done].
    by destruct (serialIndex_ s <? 0). }
  assert (Hi0 : serialIndex_ s0 = serialIndex_ s).
  { unfold s0. destruct (began_ s); [|done].
    by destruct (serialIndex_ s <? 0). }
  destruct (begin_result this w0 s0 Hok0 Hs0 Hb0)
    as (w1 & Hbegin & Hok1 & Hs1 & Hslot).
  rewrite Hi0 in Hs1, Hslot.
  eexists (modify this _ w1), _. split.
  { unfold setRefreshRate. rewrite Hs. cbn [mbind option_bind].
    rewrite float_eqb_self, Hnan, Hneg, Hzero, Hstored. cbn [negb orb].
    rewrite Hend. cbn [mbind option_bind]. rewrite Hbegin. reflexivity. }
  split; [by apply modify_lookup|].
  split; [by destruct (serialIndex_ s <? 0)|].
  split; [reflexivity|].
  intros Hpos. destruct (Z.ltb_spec (serialIndex_ s) 0); [lia|].
  repeat split. by apply Hslot.
Qed.

Lemma setRefreshRate_restart_begins_witness :
  ∃ w s,
    setRefreshRate float_zero 0%nat
      (construct teensy32 0%nat 0 (World_new teensy32)) = Some (true, w)
    ∧ registry_ok w
    ∧ objs w !! 0%nat = Some s
    ∧ began_ s = false
    ∧ float_eqb (refreshRate_ s) float_zero = true
    ∧ ∃ w' s',
        setRefreshRate (float_of_int 44) 0%nat w = Some (true, w')
        ∧ objs w' !! 0%nat = Some s'
        ∧ began_ s' = true.
Proof.
  assert (Hok0 : registry_ok
                   (construct teensy32 0%nat 0 (World_new teensy32))).
  { apply construct_preserves;
      [apply registry_ok_new | reflexivity | simpl; lia]. }
  eexists _, _. split; [reflexivity|].
  assert (Hok : registry_ok
                  (modify 0%nat
                     (λ s, with_refreshRate_ float_zero
                             (with_breakToBreakTime_ UINT32_MAX s))
                     (construct teensy32 0%nat 0 (World_new teensy32))))
    by (by apply modify_preserves).
  split; [exact Hok|]. split; [reflexivity|]. split; [reflexivity|].
  split; [reflexivity|].
  destruct (setRefreshRate_restart_begins (float_of_int 44) 0%nat _ _
              Hok eq_refl eq_refl eq_refl eq_refl eq_refl)
    as (w' & s' & Hrun & Hs' & Hbegan & _).
  exists w', s'. repeat split; assumption.
Defined.

(** X16: [begin()] is idempotent, and it restarts the counters but not the
    data.  A second [begin()] changes nothing.  A first [begin()] on an
    object of a known port marks it begun with the packet count at 0, the
    transmitting flag clear and the state idle, starts and activates the
    send handler and sets the timer priority; the output buffer, the paused
    flag and the timing parameters are kept. *)
Theorem begin_idempotent_and_resets (this : ptr) (w : World) (s : Sender) :
  registry_ok w → objs w !! this = Some s →
  ∃ w',
    begin this w = Some w' ∧ begin this w' = Some w'
    ∧ (began_ s = true → w' = w)
    ∧ (began_ s = false → 0 <= serialIndex_ s →
       ∃ s',
         objs w' !! this = Some s'
         ∧ began_ s' = true ∧ packetCount_ s' = 0
         ∧ transmitting_ s' = false ∧ state_ s' = kIdle
         ∧ sendHandler_ s' = sendHandler_ s ++ [HStart; HSetActive]
         ∧ intervalTimer_ s' = intervalTimer_ s ++ [TSetPriorityOfHandler]
         ∧ (outputBuf_ s', paused_ s', resumeCounter_ s', refreshRate_ s',
            breakTime_ s', mabTime_ s', breakBaud_ s', breakFormat_ s')
           = (outputBuf_ s, paused_ s, resumeCounter_ s, refreshRate_ s,
              breakTime_ s, mabTime_ s, breakBaud_ s, breakFormat_ s)).
Proof.
  intros Hok Hs. destruct (began_ s) eqn:Hb.
  { exists w. rewrite (begin_already_begun this w s Hs Hb).
    repeat split; done. }
  destruct (begin_result this w s Hok Hs Hb)
    as (w' & Hrun & Hok' & Hs' & _).
  exists w'. split; [done|]. split.
  { apply (begin_already_begun this w' _ Hs').
    by destruct (serialIndex_ s <? 0). }
  split; [done|]. intros _ Hpos.
  destruct (Z.ltb_spec (serialIndex_ s) 0); [lia|].
  exists (started s). split; [done|].
  unfold started, handler_call, timer_call. simpl.
  rewrite <- app_assoc. repeat split.
Qed.

Lemma begin_idempotent_and_resets_witness :
  registry_ok (construct teensy32 0%nat 0 (World_new teensy32))
  ∧ objs (construct teensy32 0%nat 0 (World_new teensy32)) !! 0%nat
    = Some (Sender_new teensy32 0)
  ∧ ∃ w',
      begin 0%nat (construct teensy32 0%nat 0 (World_new teensy32)) = Some w'
      ∧ begin 0%nat w' = Some w'.
Proof.
  assert (Hok : registry_ok (construct teensy32 0%nat 0 (World_new teensy32))).
  { apply construct_preserves;
      [apply registry_ok_new | reflexivity | simpl; lia]. }
  split; [exact Hok|]. split; [reflexivity|].
  destruct (begin_idempotent_and_resets 0%nat
              (construct teensy32 0%nat 0 (World_new teensy32))
              (Sender_new teensy32 0) Hok eq_refl)
    as (w' & Hrun & Hagain & _).
  exists w'. split; assumption.
Defined.

(** X17: [begin()] followed by [end()] on an object of a known port leaves
    the object ended, with its send handler started, activated and ended and
    its timer ended, and leaves the slot of the port empty.  The slot is
    not given back: an object that [begin()] evicted from it stays ended. *)
Theorem begin_then_end (this : ptr) (w : World) (s : Sender) :
  registry_ok w → objs w !! this = Some s →
  began_ s = false → 0 <= serialIndex_ s →
  ∃ w1 w2 s2,
    begin this w = Some w1 ∧ end_ this w1 = Some w2
    ∧ registry_ok w2
    ∧ objs w2 !! this = Some s2
    ∧ began_ s2 = false
    ∧ sendHandler_ s2 = sendHandler_ s ++ [HStart; HSetActive; HEnd]
    ∧ intervalTimer_ s2 = intervalTimer_ s ++ [TSetPriorityOfHandler; TEnd]
    ∧ txInstances w2 !! Z.to_nat (serialIndex_ s) = Some None
    ∧ (∀ p sp, p ≠ this →
         txInstances w !! Z.to_nat (serialIndex_ s) = Some (Some p) →
         objs w !! p = Some sp →
         ∃ sp', objs w2 !! p = Some sp' ∧ began_ sp' = false).
Proof.
  intros Hok Hs Hb Hpos.
  destruct (begin_preserves this w s Hok Hs) as (w1 & Hrun & Hok1).
  destruct (begin_known_port this w s Hok Hs Hb Hpos)
    as (w1' & Hrun' & Htx & Hthis & _ & Hevicted).
  assert (w1' = w1) as -> by congruence.
  destruct (registry_ok_slot w this s Hok Hs Hpos) as [cur Hcur].
  assert (Hslot1 : txInstances w1 !! Z.to_nat (serialIndex_ (started s))
                   = Some (Some this)).
  { rewrite Htx. apply list_lookup_insert_eq.
    apply lookup_lt_is_Some. eauto. }
  destruct (end_preserves this w1 (started s) Hok1 Hthis)
    as (w2 & Hend & Hok2).
  pose proof Hend as Hend'.
  rewrite (end_begun this w1 (started s) (Some this) Hthis eq_refl Hpos
             Hslot1) in Hend'.
  rewrite decide_True in Hend' by done. injection Hend' as <-.
  exists w1,
    (set_txInstance (Z.to_nat (serialIndex_ s)) None (modify this ended w1)),
    (ended (started s)).
  split; [done|]. split; [done|]. split; [done|].
  split; [rewrite set_txInstance_objs; by apply modify_lookup|].
  split; [reflexivity|]. split.
  { unfold ended, started, handler_call, timer_call. simpl.
    by rewrite <- !app_assoc. }
  split.
  { unfold ended, started, handler_call, timer_call. simpl.
    by rewrite <- !app_assoc. }
  split.
  { simpl. apply list_lookup_insert_eq. apply lookup_lt_is_Some. eauto. }
  intros p sp Hp Hin Hsp. exists (ended sp). split; [|reflexivity].
  rewrite set_txInstance_objs, modify_lookup_ne by done.
  by apply Hevicted.
Qed.

Lemma begin_then_end_witness :
  registry_ok (construct teensy32 0%nat 0 (World_new teensy32))
  ∧ objs (construct teensy32 0%nat 0 (World_new teensy32)) !! 0%nat
    = Some (Sender_new teensy32 0)
  ∧ began_ (Sender_new teensy32 0) = false
  ∧ 0 <= serialIndex_ (Sender_new teensy32 0)
  ∧ ∃ w1 w2,
      begin 0%nat (construct teensy32 0%nat 0 (World_new teensy32)) = Some w1
      ∧ end_ 0%nat w1 = Some w2
      ∧ txInstances w2 !! 0%nat = Some None.
Proof.
  assert (Hok : registry_ok (construct teensy32 0%nat 0 (World_new teensy32))).
  { apply construct_preserves;
      [apply registry_ok_new | reflexivity | simpl; lia]. }
  assert (Hpos : 0 <= serialIndex_ (Sender_new teensy32 0)) by (simpl; lia).
  split; [exact Hok|]. split; [reflexivity|]. split; [reflexivity|].
  split; [exact Hpos|].
  destruct (begin_then_end 0%nat
              (construct teensy32 0%nat 0 (World_new teensy32))
              (Sender_new teensy32 0) Hok eq_refl eq_refl Hpos)
    as (w1 & w2 & s2 & Hbegin & Hend & _ & _ & _ & _ & _ & Hslot & _).
  exists w1, w2. repeat split; assumption.
Defined.

(** * The interrupt service routines *)

(** X18: in a consistent world a TX interrupt only ever reaches a live
    object that has begun and is bound to the port of that ISR.  It never
    reaches an object that has not begun, and in particular, once [end()]
    has returned, no TX interrupt reaches the ended object, while the
    interrupts of all other objects go where they went before. *)
Theorem isr_only_reaches_begun_objects (isr : TxIsr) (this : ptr)
    (w : World) (s : Sender) :
  registry_ok w → objs w !! this = Some s →
  (∀ p, tx_isr isr w = Some (Some p) →
        ∃ sp, objs w !! p = Some sp ∧ began_ sp = true
              ∧ serialIndex_ sp = Z.of_nat (isr_slot isr))
  ∧ (began_ s = false → tx_isr isr w ≠ Some (Some this))
  ∧ ∃ w',
      end_ this w = Some w'
      ∧ tx_isr isr w' ≠ Some (Some this)
      ∧ ∀ p, p ≠ this →
             tx_isr isr w' = Some (Some p) ↔ tx_isr isr w = Some (Some p).
Proof.
  intros Hok Hs. pose proof Hok as (_ & Hocc & _). unfold tx_isr.
  split; [intros p Hp; by apply Hocc|]. split.
  { intros Hb Hin. destruct (Hocc _ _ Hin) as (s' & Hs' & Hb' & _).
    congruence. }
  destruct (end_result this w s Hok Hs)
    as (w' & Hend & _ & _ & _ & Hfree & Hsame).
  exists w'. split; [done|]. split; [apply Hfree|].
  intros p Hp. by apply Hsame.
Qed.

Lemma isr_only_reaches_begun_objects_witness :
  ∃ w,
    begin 0%nat (construct teensy32 0%nat 0 (World_new teensy32)) = Some w
    ∧ registry_ok w
    ∧ tx_isr uart0_tx_isr w = Some (Some 0%nat)
    ∧ ∃ w', end_ 0%nat w = Some w'
            ∧ tx_isr uart0_tx_isr w' ≠ Some (Some 0%nat).
Proof.
  assert (Hok0 : registry_ok
                   (construct teensy32 0%nat 0 (World_new teensy32))).
  { apply construct_preserves;
      [apply registry_ok_new | reflexivity | simpl; lia]. }
  destruct (begin_preserves 0%nat _ _ Hok0 eq_refl) as (w & Hbegin & Hok).
  exists w. split; [exact Hbegin|]. split; [exact Hok|].
  assert (Hw : Some w
               = begin 0%nat
                   (construct teensy32 0%nat 0 (World_new teensy32)))
    by (by rewrite Hbegin).
  vm_compute in Hw. injection Hw as Hw.
  assert (Hs : objs w !! 0%nat
               = Some (started (Sender_new teensy32 0)))
    by (rewrite Hw; reflexivity).
  split; [rewrite Hw; reflexivity|].
  destruct (isr_only_reaches_begun_objects uart0_tx_isr 0%nat w _ Hok Hs)
    as (_ & _ & w' & Hend & Hfree & _).
  exists w'. split; assumption.
Defined.

Lemma constructor_isr_slot (b : Build) (m : PortMacros) (serialIndex : Z)
    (isr : TxIsr) :
  constructor_isr b m serialIndex = Some isr →
  isr_defined b m isr = true ∧ Z.of_nat (isr_slot isr) = serialIndex.
Proof.
  unfold constructor_isr.
  destruct serialIndex as [|p|p]; [| |discriminate];
    repeat (cbn beta iota; try discriminate;
            match goal with p : positive |- _ => destruct p end);
    cbn beta iota; try discriminate;
    repeat match goal with
           | |- context [if ?c then _ else _] =>
               let H := fresh "Hc" in destruct c eqn:H
           end;
    try discriminate; intros [= <-]; by split.
Qed.

Lemma isr_slot_bound (b : Build) (m : PortMacros) (isr : TxIsr) :
  isr_defined b m isr = true → (isr_slot isr < txInstances_size b)%nat.
Proof.
  unfold txInstances_size, isr_defined, has_eighth_port.
  destruct isr; simpl; intros H;
    destruct (chip b), (ARDUINO_TEENSY41 b); try lia;
    rewrite ?andb_false_r in H; discriminate.
Qed.

(** X19: every TX ISR that is compiled in reads [txInstances] inside the
    array: the only ISR that reads the eighth entry is compiled under the
    condition that gives the array eight entries.  So on a table of the
    build's size an interrupt is always well defined, and before any object
    has begun it finds a null slot and does nothing. *)
Theorem isr_reads_inside_table (b : Build) (m : PortMacros) (isr : TxIsr)
    (w : World) :
  isr_defined b m isr = true →
  length (txInstances w) = txInstances_size b →
  (isr_slot isr < txInstances_size b)%nat
  ∧ (∃ target, tx_isr isr w = Some target)
  ∧ tx_isr isr (World_new b) = Some None.
Proof.
  intros Hdef Hlen. pose proof (isr_slot_bound b m isr Hdef) as Hslot.
  split; [exact Hslot|]. split.
  - unfold tx_isr. apply lookup_lt_is_Some. lia.
  - unfold tx_isr, World_new. simpl. by apply lookup_replicate_2.
Qed.

Lemma isr_reads_inside_table_witness :
  isr_defined teensy41 teensy41_ports lpuart5_tx_isr = true
  ∧ length (txInstances (World_new teensy41)) = txInstances_size teensy41
  ∧ (isr_slot lpuart5_tx_isr < txInstances_size teensy41)%nat.
Proof.
  split; [reflexivity|]. split; [reflexivity|].
  destruct (isr_reads_inside_table teensy41 teensy41_ports lpuart5_tx_isr
              (World_new teensy41) eq_refl eq_refl) as [Hslot _].
  exact Hslot.
Defined.

(** X20: the constructor and [begin()] agree with the ISRs.  The ISR that
    the constructor's [switch] hands to the send handler of an object is
    compiled in and reads the slot [txInstances[serialIndex_]], the slot
    that [begin()] fills: after [begin()] that interrupt reaches the
    object. *)
Theorem constructor_isr_reaches_object (b : Build) (m : PortMacros)
    (isr : TxIsr) (this : ptr) (w : World) (s : Sender) :
  registry_ok w → objs w !! this = Some s → began_ s = false →
  constructor_isr b m (serialIndex_ s) = Some isr →
  isr_defined b m isr = true
  ∧ Z.of_nat (isr_slot isr) = serialIndex_ s
  ∧ (isr_slot isr < txInstances_size b)%nat
  ∧ ∃ w', begin this w = Some w' ∧ tx_isr isr w' = Some (Some this).
Proof.
  intros Hok Hs Hb Hisr.
  destruct (constructor_isr_slot b m _ isr Hisr) as [Hdef Hslot].
  split; [exact Hdef|]. split; [exact Hslot|].
  split; [by apply (isr_slot_bound b m)|].
  destruct (begin_result this w s Hok Hs Hb) as (w' & Hrun & _ & _ & Hin).
  exists w'. split; [exact Hrun|]. unfold tx_isr.
  rewrite <- Hslot, Nat2Z.id in Hin. apply Hin. lia.
Qed.

Lemma constructor_isr_reaches_object_witness :
  registry_ok (construct teensy41 0%nat 7 (World_new teensy41))
  ∧ objs (construct teensy41 0%nat 7 (World_new teensy41)) !! 0%nat
    = Some (Sender_new teensy41 7)
  ∧ constructor_isr teensy41 teensy41_ports 7 = Some lpuart5_tx_isr
  ∧ ∃ w',
      begin 0%nat (construct teensy41 0%nat 7 (World_new teensy41)) = Some w'
      ∧ tx_isr lpuart5_tx_isr w' = Some (Some 0%nat).
Proof.
  assert (Hok : registry_ok (construct teensy41 0%nat 7 (World_new teensy41))).
  { apply construct_preserves;
      [apply registry_ok_new | reflexivity | simpl; lia]. }
  split; [exact Hok|]. split; [reflexivity|]. split; [reflexivity|].
  destruct (constructor_isr_reaches_object teensy41 teensy41_ports
              lpuart5_tx_isr 0%nat
              (construct teensy41 0%nat 7 (World_new teensy41))
              (Sender_new teensy41 7) Hok eq_refl eq_refl eq_refl)
    as (_ & _ & _ & Hreach).
  exact Hreach.
Defined.

(** X21: destroying an object ends it first.  In a consistent world the
    destructor succeeds, the world stays consistent, the object is gone, no
    slot of the instance table is left pointing to it, so that no later
    interrupt can reach the freed object, and the other objects are
    untouched. *)
Theorem destructor_leaves_no_pointer (this : ptr) (w : World) (s : Sender) :
  registry_ok w → objs w !! this = Some s →
  ∃ w',
    destruct_ this w = Some w' ∧ registry_ok w'
    ∧ objs w' !! this = None
    ∧ (∀ isr, tx_isr isr w' ≠ Some (Some this))
    ∧ (∀ p, p ≠ this → objs w' !! p = objs w !! p).
Proof.
  intros Hok Hs.
  destruct (destruct_preserves this w s Hok Hs)
    as (w' & Hrun & Hok' & Hgone & Hfree).
  exists w'. split; [done|]. split; [done|]. split; [done|].
  split; [intros isr; apply Hfree|].
  intros p Hp.
  destruct (end_result this w s Hok Hs) as (w0 & Hend & _ & _ & Hother & _).
  unfold destruct_ in Hrun. rewrite Hend in Hrun. simpl in Hrun.
  injection Hrun as <-. simpl.
  rewrite lookup_delete_ne by done. by apply Hother.
Qed.

Lemma destructor_leaves_no_pointer_witness :
  registry_ok (construct teensy32 0%nat 0 (World_new teensy32))
  ∧ objs (construct teensy32 0%nat 0 (World_new teensy32)) !! 0%nat
    = Some (Sender_new teensy32 0)
  ∧ ∃ w',
      destruct_ 0%nat (construct teensy32 0%nat 0 (World_new teensy32))
      = Some w'
      ∧ objs w' !! 0%nat = None.
Proof.
  assert (Hok : registry_ok (construct teensy32 0%nat 0 (World_new teensy32))).
  { apply construct_preserves;
      [apply registry_ok_new | reflexivity | simpl; lia]. }
  split; [exact Hok|]. split; [reflexivity|].
  destruct (destructor_leaves_no_pointer 0%nat
              (construct teensy32 0%nat 0 (World_new teensy32))
              (Sender_new teensy32 0) Hok eq_refl)
    as (w' & Hrun & _ & Hgone & _).
  exists w'. split; assumption.
Defined.

(** X22: completed packets are counted one by one.  On an object that is
    not paused, [n] calls of [completePacket] add exactly [n] to the packet
    count and call no completion function: the object stays not paused, and
    the instance table and every other object are as before. *)
Theorem completions_are_counted
    (call : FnPtr → ptr → World → option World) (n : nat) (this : ptr)
    (w : World) (s : Sender) :
  objs w !! this = Some s → paused_ s = false →
  ∃ w' s',
    Nat.iter n (λ ow, ow ≫= completePacket call this) (Some w) = Some w'
    ∧ objs w' !! this = Some s'
    ∧ packetCount_ s' = packetCount_ s + Z.of_nat n
    ∧ paused_ s' = false
    ∧ (outputBuf_ s', began_ s', sendHandler_ s')
      = (outputBuf_ s, began_ s, sendHandler_ s)
    ∧ txInstances w' = txInstances w
    ∧ (∀ p, p ≠ this → objs w' !! p = objs w !! p).
Proof.
  intros Hs Hp. induction n as [|n IH].
  - exists w, s. simpl. rewrite Z.add_0_r. repeat split; done.
  - destruct IH as (w' & s' & Hiter & Hs' & Hcount & Hp' & Hrest & Htx
                    & Hother).
    exists
      (modify this
         (λ s, with_state_ kIdle
                 (with_transmitting_ false
                    (with_outputBufIndex_ 0 (incPacketCount s)))) w'),
      (with_state_ kIdle
         (with_transmitting_ false
            (with_outputBufIndex_ 0 (incPacketCount s')))).
    split.
    { cbn [Nat.iter nat_rect]. unfold Nat.iter in Hiter. rewrite Hiter.
      cbn [mbind option_bind]. unfold completePacket. rewrite Hs'.
      cbn [mbind option_bind]. by rewrite Hp'. }
    split; [exact (modify_lookup this _ w' s' Hs')|].
    split; [simpl; lia|]. split; [exact Hp'|]. split; [exact Hrest|].
    split; [exact Htx|].
    intros p Hne. rewrite modify_lookup_ne by done. by apply Hother.
Qed.

Lemma completions_are_counted_witness :
  ∃ w,
    begin 0%nat (construct teensy32 0%nat 0 (World_new teensy32)) = Some w
    ∧ objs w !! 0%nat = Some (started (Sender_new teensy32 0))
    ∧ paused_ (started (Sender_new teensy32 0)) = false
    ∧ ∃ w' s',
        Nat.iter 3 (λ ow, ow ≫= completePacket call_nothing 0%nat) (Some w)
        = Some w'
        ∧ objs w' !! 0%nat = Some s'
        ∧ packetCount_ s' = 3.
Proof.
  eexists. split; [vm_compute; reflexivity|].
  split; [reflexivity|]. split; [reflexivity|].
  match goal with
  | |- ∃ w' s', Nat.iter 3 _ (Some ?w) = _ ∧ _ =>
      destruct (completions_are_counted call_nothing 3 0%nat w
                  (started (Sender_new teensy32 0)) eq_refl eq_refl)
        as (w' & s' & Hiter & Hs' & Hcount & _)
  end.
  exists w', s'. split; [exact Hiter|]. split; [exact Hs'|].
  rewrite Hcount. reflexivity.
Defined.

(** * A write against the transmit interrupt *)

Lemma with_outputBufIndex_same (s : Sender) :
  with_outputBufIndex_ (outputBufIndex_ s) s = s.
Proof. by destruct s. Qed.

Lemma with_outputBufIndex_twice (i j : Z) (s : Sender) :
  with_outputBufIndex_ i (with_outputBufIndex_ j s) = with_outputBufIndex_ i s.
Proof. by destruct s. Qed.

Lemma with_outputBuf_twice (buf buf' : list Z) (s : Sender) :
  with_outputBuf_ buf' (with_outputBuf_ buf s) = with_outputBuf_ buf' s.
Proof. by destruct s. Qed.

Lemma disableIRQs_keeps_buffer (s : Sender) :
  with_outputBuf_ (outputBuf_ s) (disableIRQs s) = disableIRQs s
  ∧ outputBuf_ (disableIRQs s) = outputBuf_ s
  ∧ began_ (disableIRQs s) = began_ s.
Proof.
  unfold disableIRQs. destruct s. simpl. by destruct began_0.
Qed.

(** Once the lock is taken on a begun object, its interrupt is masked. *)
Lemma disableIRQs_masks (s : Sender) :
  began_ s = true → irqs_masked (disableIRQs s) = true.
Proof.
  intros Hb. unfold disableIRQs, irqs_masked, handler_call. rewrite Hb.
  destruct s. simpl. by rewrite last_snoc.
Qed.

(** The steps of a write leave the index of the interrupt alone. *)
Lemma write_step_index (i : Z) (o : WriteStep) (s : Sender) :
  with_outputBufIndex_ i (write_step o s)
  = write_step o (with_outputBufIndex_ i s)
  ∧ outputBufIndex_ (write_step o s) = outputBufIndex_ s.
Proof.
  destruct o, s; simpl; unfold disableIRQs, enableIRQs; simpl;
    by destruct began_0.
Qed.

Lemma apply_stores_snoc (stores : list (Z * Z)) (p : Z * Z) (buf : list Z) :
  apply_stores (stores ++ [p]) buf
  = store (fst p) (snd p) (apply_stores stores buf).
Proof.
  revert buf. induction stores as [|q stores IH]; intros buf; simpl;
    [reflexivity | apply IH].
Qed.

(** The stores of [copy_n], run in order, are the loop of the source. *)
Lemma apply_copy_n_stores (values : list Z) (n : nat) (dst : Z)
    (buf : list Z) :
  apply_stores (copy_n_stores values n dst) buf = copy_n values n dst buf.
Proof.
  revert values dst buf.
  induction n as [|n IH]; intros values dst buf; simpl;
    [reflexivity | apply IH].
Qed.

(** A call either returns at a guard, leaving the object as it is, or runs
    the lock around its stores and returns the object the source's function
    returns. *)
Lemma write_steps_cases (c : WriteCall) (s : Sender) :
  (write_steps c = [] ∧ snd (write_call c s) = s)
  ∨ ∃ sts,
      write_steps c = locked_steps sts
      ∧ snd (write_call c s)
        = locked (λ s, with_outputBuf_ (apply_stores sts (outputBuf_ s)) s) s.
Proof.
  destruct c as [channel value | startChannel values len];
    unfold write_steps, write_call.
  - unfold set16Bit. destruct (_ || _); [by left|].
    right. eexists. split; reflexivity.
  - unfold set_values. destruct (_ || _); [by left|].
    destruct (len =? 0); [by left|].
    destruct (_ || _); [by left|].
    right. eexists. split; [reflexivity|]. cbn [snd]. unfold locked.
    by rewrite apply_copy_n_stores.
Qed.

(** An interrupt that is masked, or whose object has not begun, does not
    run. *)
Lemma transmit_irq_masked (m : Machine) :
  (began_ (object m) = true → irqs_masked (object m) = true) →
  transmit_irq m = m.
Proof.
  intros Hmask. unfold transmit_irq. cbv zeta.
  destruct (began_ (object m)); [|reflexivity].
  by rewrite Hmask.
Qed.

Lemma transmit_irq_pending (m : Machine) :
  pending (transmit_irq m) = pending m.
Proof.
  unfold transmit_irq. cbv zeta.
  destruct (_ && _); [|reflexivity]. by destruct (_ !! _).
Qed.

(** An interrupt that runs reads the slot under the index from the buffer
    as it is at that moment. *)
Lemma transmit_irq_reads (s : Sender) (new : list Z) (n : nat) (m : Machine) :
  0 <= outputBufIndex_ s →
  outputBufIndex_ (object m)
  = outputBufIndex_ s + Z.of_nat (length (sent m)) →
  (n <= length (sent m))%nat →
  outputBuf_ (object m) = new →
  reads_old_then_new s new n (sent m) →
  outputBufIndex_ (object (transmit_irq m))
  = outputBufIndex_ s + Z.of_nat (length (sent (transmit_irq m)))
  ∧ (n <= length (sent (transmit_irq m)))%nat
  ∧ reads_old_then_new s new n (sent (transmit_irq m))
  ∧ with_outputBufIndex_ (outputBufIndex_ s) (object (transmit_irq m))
    = with_outputBufIndex_ (outputBufIndex_ s) (object m).
Proof.
  intros H0 Hidx Hn Hbuf Hreads. unfold transmit_irq. cbv zeta.
  destruct (_ && _); [|done].
  destruct (outputBuf_ (object m) !! Z.to_nat (outputBufIndex_ (object m)))
    as [x|] eqn:Hx; [|done].
  cbn [object sent]. rewrite length_app. cbn [length].
  split; [destruct (object m); simpl in *; lia|].
  split; [lia|]. split; [|apply with_outputBufIndex_twice].
  intros j y Hj. apply lookup_snoc_Some in Hj.
  destruct Hj as [[_ Hj] | [-> <-]]; [by apply Hreads|].
  destruct (decide (length (sent m) < n)%nat) as [Hlt|_]; [lia|].
  rewrite Hbuf, Hidx in Hx.
  replace (Z.to_nat (outputBufIndex_ s) + length (sent m))%nat
    with (Z.to_nat (outputBufIndex_ s + Z.of_nat (length (sent m)))) by lia.
  exact Hx.
Qed.

(** Bytes that all come from the old buffer are old up to any point. *)
Lemma reads_all_old (s : Sender) (new : list Z) (sent : list Z) :
  reads_old_then_new s (outputBuf_ s) 0 sent →
  reads_old_then_new s new (length sent) sent.
Proof.
  intros Hold j x Hj. pose proof (lookup_lt_Some _ _ _ Hj) as Hlt.
  destruct (decide (j < length sent)%nat); [|lia].
  specialize (Hold j x Hj). by destruct (decide (j < 0)%nat); [lia|].
Qed.

(** One event keeps the interleaving where it is or moves it on. *)
Lemma event_step_inv (s fin : Sender) (sts : list (Z * Z)) (e : Event)
    (m : Machine) :
  0 <= outputBufIndex_ s →
  pending m = []
  ∨ fin = locked (λ s, with_outputBuf_ (apply_stores sts (outputBuf_ s)) s) s →
  interleaving_inv s fin sts m →
  interleaving_inv s fin sts (event_step e m).
Proof.
  intros H0 Hfin [Hidx Hphase]. unfold interleaving_inv.
  destruct Hphase
    as [(Hpend & Hcore & Hreads)
       | [(done & rest & Hsts & Hpend & Hcore & Hreads)
         | (Hpend & Hcore & n & Hn & Hreads)]].
  - (* before the lock *)
    destruct e; cbn [event_step].
    + destruct (transmit_irq_reads s (outputBuf_ s) 0 m H0 Hidx)
        as (Hidx' & _ & Hreads' & Hcore'); [lia | | exact Hreads |].
      { change (outputBuf_ (object m))
          with (outputBuf_
                  (with_outputBufIndex_ (outputBufIndex_ s) (object m))).
        by rewrite Hcore. }
      split; [exact Hidx'|]. left.
      rewrite transmit_irq_pending, Hcore'. done.
    + unfold app_step. rewrite Hpend. unfold locked_steps.
      cbn [object pending sent].
      destruct (write_step_index (outputBufIndex_ s) WDisableIRQs (object m))
        as [Hcomm Hsame].
      split; [by rewrite Hsame|]. right. left.
      exists [], sts. split; [reflexivity|]. split; [reflexivity|].
      split; [|exact Hreads].
      rewrite Hcomm, Hcore. cbn [write_step apply_stores].
      symmetry. apply disableIRQs_keeps_buffer.
  - (* inside the lock *)
    assert (Hmask : began_ (object m) = true → irqs_masked (object m) = true).
    { change (began_ (object m))
        with (began_ (with_outputBufIndex_ (outputBufIndex_ s) (object m))).
      change (irqs_masked (object m))
        with (irqs_masked
                (with_outputBufIndex_ (outputBufIndex_ s) (object m))).
      rewrite Hcore.
      change (began_ (with_outputBuf_ (apply_stores done (outputBuf_ s))
                        (disableIRQs s)))
        with (began_ (disableIRQs s)).
      change (irqs_masked (with_outputBuf_ (apply_stores done (outputBuf_ s))
                             (disableIRQs s)))
        with (irqs_masked (disableIRQs s)).
      destruct (disableIRQs_keeps_buffer s) as (_ & _ & ->).
      apply disableIRQs_masks. }
    destruct e; cbn [event_step].
    + rewrite (transmit_irq_masked m Hmask).
      split; [exact Hidx|]. right. left.
      exists done, rest. done.
    + unfold app_step. rewrite Hpend.
      destruct rest as [|p rest]; cbn [map app object pending sent].
      * destruct (write_step_index (outputBufIndex_ s) WEnableIRQs
                    (object m)) as [Hcomm Hsame].
        split; [by rewrite Hsame|]. right. right.
        rewrite app_nil_r in Hsts. subst done.
        destruct Hfin as [Hnil | ->]; [by rewrite Hpend in Hnil|].
        split; [reflexivity|]. split.
        { rewrite Hcomm, Hcore. cbn [write_step]. unfold locked.
          by destruct (disableIRQs_keeps_buffer s) as (_ & -> & _). }
        exists (length (sent m)). split; [lia|]. by apply reads_all_old.
      * destruct (write_step_index (outputBufIndex_ s)
                    (WStore (fst p) (snd p)) (object m)) as [Hcomm Hsame].
        split; [by rewrite Hsame|]. right. left.
        exists (done ++ [p]), rest.
        split; [by rewrite <- app_assoc|]. split; [reflexivity|].
        split; [|exact Hreads].
        rewrite Hcomm, Hcore. cbn [write_step].
        rewrite with_outputBuf_twice, apply_stores_snoc. reflexivity.
  - (* after the write *)
    destruct e; cbn [event_step].
    + destruct (transmit_irq_reads s (outputBuf_ fin) n m H0 Hidx Hn)
        as (Hidx' & Hn' & Hreads' & Hcore'); [|exact Hreads|].
      { change (outputBuf_ (object m))
          with (outputBuf_
                  (with_outputBufIndex_ (outputBufIndex_ s) (object m))).
        by rewrite Hcore. }
      split; [exact Hidx'|]. right. right.
      rewrite transmit_irq_pending, Hcore'.
      split; [exact Hpend|]. split; [exact Hcore|]. by exists n.
    + unfold app_step. rewrite Hpend.
      split; [exact Hidx|]. right. right.
      split; [exact Hpend|]. split; [exact Hcore|]. by exists n.
Qed.

Lemma event_step_done (e : Event) (m : Machine) :
  pending m = [] → pending (event_step e m) = [].
Proof.
  intros Hpend. destruct e; cbn [event_step].
  - by rewrite transmit_irq_pending.
  - unfold app_step. by rewrite Hpend.
Qed.

Lemma run_inv (s fin : Sender) (sts : list (Z * Z)) (sched : list Event)
    (m : Machine) :
  0 <= outputBufIndex_ s →
  pending m = []
  ∨ fin = locked (λ s, with_outputBuf_ (apply_stores sts (outputBuf_ s)) s) s →
  interleaving_inv s fin sts m →
  interleaving_inv s fin sts (run sched m).
Proof.
  intros H0. revert m.
  induction sched as [|e sched IH]; intros m Hfin Hinv; [exact Hinv|].
  cbn [run]. apply IH.
  - destruct Hfin as [Hnil | Hfin]; [left; by apply event_step_done | by right].
  - by apply event_step_inv.
Qed.

(** The application's steps are taken one by one, whatever the interrupt
    does. *)
Lemma run_pending_length (sched : list Event) (m : Machine) :
  length (pending (run sched m))
  = (length (pending m) - count_App sched)%nat.
Proof.
  revert m. induction sched as [|e sched IH]; intros m.
  - simpl. lia.
  - destruct e; cbn [run count_App event_step]; rewrite IH.
    + by rewrite transmit_irq_pending.
    + unfold app_step. destruct (pending m) eqn:Hpend;
        cbn [pending length]; rewrite ?Hpend; cbn [length]; lia.
Qed.

(** C9 (amended): take any interleaving of the steps of an application
    write that claims the lock, [set16Bit(channel, value)] or
    [set(startChannel, values, len)], with transmit interrupts that each
    read one byte of the output buffer.  The bytes handed to the port are
    read from consecutive slots, and there is a point [n] such that the
    first [n] bytes are the bytes of the buffer before the call and all
    later ones the bytes of the buffer after the call: no interrupt reads a
    buffer that holds a part of the write.  The write is complete as soon
    as the schedule has given the application all its steps, and it then
    leaves the object that the call returns, with the interrupt's index
    moved on by the number of bytes sent. *)
Theorem interrupt_reads_old_then_new (c : WriteCall) (s : Sender)
    (sched : list Event) :
  0 <= outputBufIndex_ s →
  packetSize_ s <= Z.of_nat (length (outputBuf_ s)) →
  let m := run sched (mkMachine s (write_steps c) []) in
  (∃ n, (n <= length (sent m))%nat
        ∧ reads_old_then_new s (outputBuf_ (snd (write_call c s))) n (sent m))
  ∧ outputBufIndex_ (object m)
    = outputBufIndex_ s + Z.of_nat (length (sent m))
  ∧ ((length (write_steps c) <= count_App sched)%nat → pending m = [])
  ∧ (pending m = [] →
     with_outputBufIndex_ (outputBufIndex_ s) (object m)
     = snd (write_call c s)).
Proof.
  intros H0 _ m.
  assert (Hinv : ∃ sts,
             interleaving_inv s (snd (write_call c s)) sts m
             ∧ (write_steps c = [] ∨ write_steps c = locked_steps sts)).
  { destruct (write_steps_cases c s) as [[Hnone Hsame] | (sts & Hsts & Hfin)].
    - exists []. split; [|by left]. unfold m. apply run_inv; [exact H0 | |].
      + left. exact Hnone.
      + split; [simpl; lia|]. right. right. cbn [object pending sent].
        split; [exact Hnone|].
        split; [by rewrite with_outputBufIndex_same|].
        exists 0%nat. split; [simpl; lia|]. intros j x Hj. discriminate.
    - exists sts. split; [|by right]. unfold m.
      apply run_inv; [exact H0 | by right |].
      split; [simpl; lia|]. left. cbn [object pending sent].
      split; [exact Hsts|]. split; [apply with_outputBufIndex_same|].
      intros j x Hj. discriminate. }
  destruct Hinv as (sts & [Hidx Hphase] & Hsteps).
  split; [|split; [exact Hidx|split]].
  - destruct Hphase
      as [(_ & _ & Hreads)
         | [(done & rest & _ & _ & _ & Hreads) | (_ & _ & Hreads)]].
    + exists (length (sent m)). split; [lia|]. by apply reads_all_old.
    + exists (length (sent m)). split; [lia|]. by apply reads_all_old.
    + exact Hreads.
  - intros Hcount. apply length_zero_iff_nil. unfold m.
    rewrite run_pending_length. cbn [pending]. lia.
  - intros Hpend.
    destruct Hphase
      as [(Hpend' & _) | [(done & rest & _ & Hpend' & _) | (_ & Hcore & _)]].
    + rewrite Hpend in Hpend'. discriminate.
    + rewrite Hpend in Hpend'. by destruct rest.
    + exact Hcore.
Qed.

Lemma interrupt_reads_old_then_new_witness :
  0 <= outputBufIndex_ (snd (set16Bit 1 0x1122 (started (Sender_new teensy32 0))))
  ∧ packetSize_ (snd (set16Bit 1 0x1122 (started (Sender_new teensy32 0))))
    <= Z.of_nat
         (length
            (outputBuf_
               (snd (set16Bit 1 0x1122 (started (Sender_new teensy32 0))))))
  ∧ pending
      (run [App; App; Irq; Irq; App; App; Irq]
         (mkMachine (snd (set16Bit 1 0x1122 (started (Sender_new teensy32 0))))
            (write_steps (CallSet16Bit 1 0x3344)) [])) = []
  ∧ sent
      (run [App; App; Irq; Irq; App; App; Irq]
         (mkMachine (snd (set16Bit 1 0x1122 (started (Sender_new teensy32 0))))
            (write_steps (CallSet16Bit 1 0x3344)) [])) = [0]
  ∧ outputBuf_
      (object
         (run [App; App; Irq; Irq; App; App; Irq]
            (mkMachine
               (snd (set16Bit 1 0x1122 (started (Sender_new teensy32 0))))
               (write_steps (CallSet16Bit 1 0x3344)) [])))
    = outputBuf_
        (snd (set16Bit 1 0x3344
                (snd (set16Bit 1 0x1122 (started (Sender_new teensy32 0)))))).
Proof.
  assert (H0 : 0 <= outputBufIndex_
                      (snd (set16Bit 1 0x1122
                              (started (Sender_new teensy32 0)))))
    by (apply Z.leb_le; vm_compute; reflexivity).
  assert (Hsize :
            packetSize_
              (snd (set16Bit 1 0x1122 (started (Sender_new teensy32 0))))
            <= Z.of_nat
                 (length
                    (outputBuf_
                       (snd (set16Bit 1 0x1122
                               (started (Sender_new teensy32 0)))))))
    by (apply Z.leb_le; vm_compute; reflexivity).
  split; [exact H0|]. split; [exact Hsize|].
  pose proof (interrupt_reads_old_then_new (CallSet16Bit 1 0x3344)
                (snd (set16Bit 1 0x1122 (started (Sender_new teensy32 0))))
                [App; App; Irq; Irq; App; App; Irq] H0 Hsize) as Hrun.
  cbv zeta in Hrun. destruct Hrun as (_ & _ & Hdone & Hobj).
  assert (Hpend :
            pending
              (run [App; App; Irq; Irq; App; App; Irq]
                 (mkMachine
                    (snd (set16Bit 1 0x1122
                            (started (Sender_new teensy32 0))))
                    (write_steps (CallSet16Bit 1 0x3344)) [])) = [])
    by (apply Hdone; vm_compute; lia).
  split; [exact Hpend|]. split; [vm_compute; reflexivity|].
  specialize (Hobj Hpend).
  change (write_call (CallSet16Bit 1 0x3344)
            (snd (set16Bit 1 0x1122 (started (Sender_new teensy32 0)))))
    with (set16Bit 1 0x3344
            (snd (set16Bit 1 0x1122 (started (Sender_new teensy32 0)))))
    in Hobj.
  rewrite <- Hobj. reflexivity.
Defined.

(** C9 as stated fails for a declared multi-byte range.  On a begun object
    whose slots 1 and 2 hold the 16-bit value 0x1122, let the interrupt read
    slots 0 and 1, then let [set16Bit(1, 0x3344)] run under its lock, then
    let the interrupt read slot 2: the packet carries the old high byte 0x11
    followed by the new low byte 0x44, a value that is neither the one
    before nor the one after the write. *)
Lemma torn_16bit_value_counterexample :
  began_ (snd (set16Bit 1 0x1122 (started (Sender_new teensy32 0)))) = true
  ∧ irqs_masked (snd (set16Bit 1 0x1122 (started (Sender_new teensy32 0))))
    = false
  ∧ outputBufIndex_
      (snd (set16Bit 1 0x1122 (started (Sender_new teensy32 0)))) = 0
  ∧ take 3
      (outputBuf_ (snd (set16Bit 1 0x1122 (started (Sender_new teensy32 0)))))
    = [0; 0x11; 0x22]
  ∧ take 3
      (outputBuf_
         (snd (write_call (CallSet16Bit 1 0x3344)
                 (snd (set16Bit 1 0x1122
                         (started (Sender_new teensy32 0)))))))
    = [0; 0x33; 0x44]
  ∧ write_steps (CallSet16Bit 1 0x3344)
    = [WDisableIRQs; WStore 1 0x33; WStore 2 0x44; WEnableIRQs]
  ∧ pending
      (run [Irq; Irq; App; App; App; App; Irq]
         (mkMachine (snd (set16Bit 1 0x1122 (started (Sender_new teensy32 0))))
            (write_steps (CallSet16Bit 1 0x3344)) [])) = []
  ∧ sent
      (run [Irq; Irq; App; App; App; App; Irq]
         (mkMachine (snd (set16Bit 1 0x1122 (started (Sender_new teensy32 0))))
            (write_steps (CallSet16Bit 1 0x3344)) []))
    = [0; 0x11; 0x44].
Proof. vm_compute. repeat split. Qed.
